(* ===== verification/_CoqProject ===== *)
-Q . S2P
Prelude.v
PyStr.v
Table.v
FFGraph.v
FFExpr.v
Drawtext.v
Trim.v
Shell.v
PyReplace.v
Base64.v
World.v
App.v
