(* ===== verification/Prelude.v ===== *)
(** * A verified model of streamlit-video-editor (src/app.py)

    The program is one Streamlit script, [src/app.py].  Streamlit re-runs
    [main] from the top on every user interaction; the script reads widget
    values, keeps a few entries in [st.session_state], and, when a button is
    pressed, builds an ffmpeg command line as a Python f-string and hands it
    to [os.system].  Its parts and how they interact:

    - Tables (pandas DataFrames) of time ranges: the two default tables
      ([get_default_annotation_data], [get_default_trimming_data]), rows read
      with [df.iterrows()], cells read by column label, and the arithmetic
      [row['Start time (min)'] * 60 + row['Start time (sec)']], following
      Python for object rows (unbounded [int], [str] repetition and
      concatenation, TypeError) and numpy for rows of an all-int64 frame
      (64-bit wrap-around).
    - The two builders, [draw_text_on_video] (one [drawtext=...] filter per
      row, joined with [", "]) and [trim_video] (one [between(t,s,e)] per
      row joined with ["+"], wrapped in [select='not(...)'] and
      [aselect='not(...)']), with the f-string formatting of [str(int)].
    - The handlers' effects: [os.path.exists]/[os.remove] of the old output,
      then [os.system] of the command, which [/bin/sh] splits into words and
      ffmpeg runs on the argument vector.
    - [main]: the selected function kept in [st.session_state], the two
      table sections with their lazily initialised tables and editor key
      ([random.randint] drawn ten times), the data editor, the process
      button, the output video, the GIF export ([str.replace], removal,
      conversion, the session key of the GIF) and the GIF view ([open],
      [base64.b64encode], an HTML image with a data URL).

    Library layout (each file requires the ones before it):
    - [Prelude.v]   this header; Python exceptions and the [res] error monad
                    (stdpp's [mret]/[mbind], so [x ← c; k] reads like the
                    code), string lemmas, the [vedit_rw] rewrite database
                    and the [str_norm] tactic.
    - [PyStr.v]     Module [PyInt]: [py_str_int] (= [str(int)]) with fuel,
                    and the number parser [parse_int] ffmpeg's expression
                    reader uses, with its round trip.
    - [Table.v]     Module [Table]: cells, frames, the dtype of a frame
                    ([row_kind]), [series_get], [py_mul]/[py_add],
                    [np_mul]/[np_add]/[np_wrap64], [row_total], the row
                    loop [for_rows].
    - [FFGraph.v]   ffmpeg's filtergraph parser ([av_get_token], the graph
                    and option levels), modelled from ffmpeg's documentation.
    - [FFExpr.v]    ffmpeg's expression parser and evaluator for the subset
                    the code emits, and the [select] semantics.
    - [Drawtext.v]  [drawtext_string], [drawtext_strings],
                    [draw_text_joined], [draw_text_command].
    - [Trim.v]      [between_string], [trim_joined], [trim_vf], [trim_af],
                    [trim_command].
    - [Shell.v]     [/bin/sh] word splitting and quote removal ([sh_words]).
    - [PyReplace.v] [str.replace] as a scan.
    - [Base64.v]    [base64.b64encode] (RFC 4648) with its decoder.
    - [World.v]     the world of a run (session state, files, page, random
                    draws), the monad [app], the effects ([os.remove],
                    [os.system] through the class [System], [st.success],
                    [st.video], [st.markdown], [open]), ffmpeg on files
                    ([ffmpeg_exec] with the class [Ffmpeg]) and a Hoare logic.
    - [App.v]       Module [App]: the handlers, the GIF export and view, the
                    sections, [process_click], [output_column] and [main_run]
                    (one run of [main]); the session invariant, reachability,
                    recovery of the default table, and end-to-end runs.

    Theorems (the manifest PROJECT.json lists them as claims C1-C24):
    - refinement: the trim expressions, parsed and evaluated by the ffmpeg
      model, keep a frame or sample exactly when its time lies in no
      listed interval, for every non-empty table (C1, C2); the annotation
      graph is one drawtext filter per row, in table order, with the row's
      text and window (C3, C11); a whole run of [main] with the process
      button writes exactly what ffmpeg makes of the input with those
      filters (C21, C22);
    - functional behaviour and errors of the handlers, the GIF export and
      the GIF view (C4, C5, C7-C9, C12, C18, C19): each writes only its
      output, a raising builder leaves the world untouched, a failed ffmpeg
      is still reported as success, a name without [.mp4] makes the export
      delete the video, and the view shows a data URL that decodes to the
      GIF's bytes;
    - error paths of a whole run: a table without a ['Text'] column raises
      [KeyError] after showing the input video and nothing else (C23); a
      failed CSV load raises before the session's table or key changes
      (C24); the builders' [KeyError] for a missing column (C14, C15);
    - invariant: in every reachable world the editor key is ten digits and
      the session tables are defaults or loaded files (C6), by rule
      induction over runs with a Hoare logic for [app];
    - liveness: from every world one run restores the default table (C20);
    - bounds: in an all-int64 table the totals are numpy's, wrapped at 64
      bits and exact exactly when they fit (C10, C16); text time cells are
      repeated rather than rejected (C17);
    - the unquoted interpolation of file names: an output name with a
      blank reaches ffmpeg as two arguments and is never written (C13).

    Fuel and bounds: [py_str_int] prints with fuel [S (N.size n)], enough as
    [n < 2^(size n) <= 10^(size n)] ([str_N_fuel_ok]); the parsers are
    structural on their input.  Integers are [Z], with numpy's int64
    wrap-around written out where the code runs in numpy.

    External behaviour modelled from documentation rather than from this
    repository: ffmpeg's filtergraph and expression parsers and the effect
    of ffmpeg on files (a parameter [ffmpeg_transcode] of what it makes of a
    file, with its documented refusal to overwrite), [/bin/sh]'s word
    splitting for the syntax the commands use, [str.replace] and
    [base64.b64encode].

    Not modelled: Streamlit's rendering and page layout
    ([set_page_config], columns, headers, expanders), which change no
    state; the data editor's internals (its result is an input of a run);
    pandas' CSV reader and [random.randint] (parameters of the session
    model, with the randint range as a hypothesis); float and NaN cells,
    which rows added in the dynamic editor introduce (an empty cell turns
    an int64 column into float64, formatted by Python's float [repr]);
    ffmpeg's behaviour beyond the filters and expressions the code emits;
    the blocking of the process during [os.system]. *)

From stdpp Require Export base strings list options.
From Stdlib Require Export ZArith.
From Stdlib Require Import Ascii.

Declare Scope vedit_scope.
Delimit Scope vedit_scope with vedit.
Open Scope stdpp_scope.

(** ** Python exceptions raised by the modelled code *)

(** [KeyError k]: a Series indexed by column name has no entry [k];
    [TypeError]: an operator applied to operands of the wrong types;
    [ValueError]: [pd.read_csv] given no file; [FileNotFoundError p]:
    [os.remove] of a missing path; [UnboundLocalError x]: a local variable
    read before any assignment. *)
Inductive py_exc :=
  | KeyError (k : string)
  | TypeError
  | ValueError
  | FileNotFoundError (path : string)
  | UnboundLocalError (name : string).

Inductive res (A : Type) :=
  | Ok (a : A)
  | Exc (e : py_exc).
Arguments Ok {A} a.
Arguments Exc {A} e.

#[export] Instance res_ret : MRet res := λ A a, Ok a.
#[export] Instance res_bind : MBind res := λ A B f r,
  match r with Ok a => f a | Exc e => Exc e end.

#[export] Instance res_fmap : FMap res := λ A B g r,
  match r with Ok a => Ok (g a) | Exc e => Exc e end.

Notation "'raise' e" := (Exc e) (at level 10) : vedit_scope.

(** A result is [Ok] with some value. *)
Definition is_ok {A} (r : res A) : bool :=
  match r with Ok _ => true | Exc _ => false end.

Lemma res_bind_ok {A B} (a : A) (f : A → res B) : (Ok a ≫= f) = f a.
Proof. reflexivity. Qed.

Lemma res_bind_exc {A B} (e : py_exc) (f : A → res B) : (Exc e ≫= f) = Exc e.
Proof. reflexivity. Qed.

Lemma res_bind_inv {A B} (r : res A) (f : A → res B) b :
  (r ≫= f) = Ok b → ∃ a, r = Ok a ∧ f a = Ok b.
Proof. destruct r; simpl; [eauto | discriminate]. Qed.

Lemma res_bind_exc_inv {A B} (r : res A) (f : A → res B) e :
  (r ≫= f) = Exc e → r = Exc e ∨ ∃ a, r = Ok a ∧ f a = Exc e.
Proof. destruct r; simpl; [eauto | intros [= ->]; auto]. Qed.

(** ** Lists *)

Lemma forallb_negb_existsb {A} (p : A → bool) (l : list A) :
  forallb (λ x, negb (p x)) l = negb (existsb p l).
Proof. induction l as [|x l IH]; simpl; [done|]. by rewrite IH, negb_orb. Qed.

(** ** Strings *)

Lemma str_app_cons (c : ascii) (s1 s2 : string) :
  String c s1 +:+ s2 = String c (s1 +:+ s2).
Proof. reflexivity. Qed.

Lemma str_app_nil_l (s : string) : "" +:+ s = s.
Proof. reflexivity. Qed.

Lemma str_app_nil_r (s : string) : s +:+ "" = s.
Proof. induction s as [|c s IH]; [done|]. by rewrite str_app_cons, IH. Qed.

Lemma str_app_assoc (s1 s2 s3 : string) :
  s1 +:+ s2 +:+ s3 = (s1 +:+ s2) +:+ s3.
Proof. induction s1 as [|c s IH]; [done|]. by rewrite !str_app_cons, IH. Qed.

Lemma str_length_app (s1 s2 : string) :
  String.length (s1 +:+ s2) = (String.length s1 + String.length s2)%nat.
Proof. induction s1 as [|c s IH]; [done|]. rewrite str_app_cons; simpl. by rewrite IH. Qed.

Lemma str_app_inv_l (s a b : string) : s +:+ a = s +:+ b → a = b.
Proof. induction s as [|c s IH]; [done|]. intros [=]. by apply IH. Qed.

(** [sep.join(x :: xs)] is [x] followed by [sep + y] for each later [y]. *)
Lemma str_concat_cons sep x xs :
  String.concat sep (x :: xs) = x +:+ foldr (λ y r, sep +:+ y +:+ r) "" xs.
Proof.
  revert x. induction xs as [|y xs IH]; intros x; [simpl; by rewrite str_app_nil_r|].
  change (String.concat sep (x :: y :: xs)) with (x +:+ sep +:+ String.concat sep (y :: xs)).
  by rewrite IH.
Qed.

(** Joining [n] non-empty strings gives at least [n] characters. *)
Lemma str_concat_length sep l :
  Forall (λ x, x ≠ "") l → (length l ≤ String.length (String.concat sep l))%nat.
Proof.
  induction 1 as [|x l Hx Hl IH]; [simpl; lia|].
  destruct l as [|y l]; [destruct x; simpl; [done|lia]|].
  change (String.concat sep (x :: y :: l)) with (x +:+ sep +:+ String.concat sep (y :: l)).
  rewrite !str_length_app. destruct x; [done|]. simpl in *. lia.
Qed.

(** Whether a character occurs in a string. *)
Fixpoint str_has (c : ascii) (s : string) : bool :=
  match s with
  | "" => false
  | String c' s' => bool_decide (c = c') || str_has c s'
  end.

Lemma str_has_app c s1 s2 : str_has c (s1 +:+ s2) = str_has c s1 || str_has c s2.
Proof.
  induction s1 as [|c' s IH]; [done|].
  rewrite str_app_cons; simpl. rewrite IH. by destruct (bool_decide _).
Qed.

(** Every character of a string satisfies [p]. *)
Fixpoint str_forall (p : ascii → bool) (s : string) : bool :=
  match s with "" => true | String c s' => p c && str_forall p s' end.

Lemma str_forall_app p s1 s2 : str_forall p (s1 +:+ s2) = str_forall p s1 && str_forall p s2.
Proof. induction s1 as [|c s IH]; [done|]. simpl. rewrite IH. apply andb_assoc. Qed.

Lemma str_forall_has p s : str_forall p s = true ↔ ∀ c, str_has c s → p c = true.
Proof.
  induction s as [|c s IH]; simpl; [naive_solver|]. rewrite andb_true_iff, IH. split.
  - intros [Hc Hs] c' Hc'. apply orb_True in Hc' as [Hc'|Hc']; [|by apply Hs].
    case_bool_decide; [by subst|done].
  - intros H. split; [apply H; by rewrite bool_decide_eq_true_2|].
    intros c' Hc'. apply H. apply orb_True. by right.
Qed.

Lemma str_forall_concat p sep l :
  str_forall p sep = true → Forall (λ x, str_forall p x = true) l →
  str_forall p (String.concat sep l) = true.
Proof.
  intros Hsep Hl. induction Hl as [|x l Hx Hl IH]; [done|].
  rewrite str_concat_cons. rewrite str_forall_app, Hx. simpl.
  clear IH. induction Hl as [|y l Hy Hl IH]; [done|]. simpl.
  by rewrite !str_forall_app, Hsep, Hy.
Qed.

(** The double-quote character, as a one-character string. *)
Definition dq : string := String "034"%char "".

(** The first character of a string, if any. *)
Definition str_head (s : string) : option ascii :=
  match s with "" => None | String c _ => Some c end.

Lemma str_head_app_l c s1 s2 : str_head s1 = Some c → str_head (s1 +:+ s2) = Some c.
Proof. by destruct s1. Qed.

Create HintDb vedit discriminated.
Create Rewrite HintDb vedit_rw.
#[export] Hint Rewrite str_app_cons str_app_nil_l str_app_nil_r : vedit_rw.
#[export] Hint Rewrite <- str_app_assoc : vedit_rw.
#[export] Hint Rewrite str_has_app str_forall_app orb_false_r andb_true_r : vedit_rw.
#[export] Hint Resolve str_head_app_l : vedit.

(** Normalise string concatenations and [str_has] tests. *)
Ltac str_norm := autorewrite with vedit_rw in *; simpl in *.
