(* ===== verification/PyStr.v ===== *)
(** Python's [str(int)], as every f-string [{...}] of an integer in
    src/app.py prints it, and a parser for the decimal integers that ffmpeg
    reads back.  [py_str_int] prints an optional ["-"] and the decimal
    digits of the absolute value, with no leading zero; [parse_int] reads
    the longest digit run after an optional sign.  The main results are the
    round trip [parse_int (py_str_int z +:+ rest) = Some (z, rest)] and the
    fact that no character other than a digit or ["-"] is ever printed. *)

From S2P Require Import Prelude.
From Stdlib Require Import Ascii.

Module PyInt.

Local Open Scope N_scope.

(** The character of a decimal digit [d < 10]: [chr(48 + d)]. *)
Definition digit_char (d : N) : ascii := Ascii.ascii_of_N (48 + d).

(** Digits are produced least significant first, prepended to [acc];
    [fuel] bounds the number of digits. *)
Fixpoint str_N_go (fuel : nat) (n : N) (acc : string) : string :=
  match fuel with
  | O => acc
  | S f =>
      let acc' := String (digit_char (n mod 10)) acc in
      if n <? 10 then acc' else str_N_go f (n / 10) acc'
  end.

(** [str(n)] for [n >= 0]; [n < 2^(size n) <= 10^(size n)], so [size n]
    digits (and one for [n = 0]) are enough. *)
Definition str_N (n : N) : string := str_N_go (S (N.to_nat (N.size n))) n "".

(** [str(z)] for a Python [int]. *)
Definition py_str_int (z : Z) : string :=
  if (z <? 0)%Z then "-" +:+ str_N (Z.to_N (- z)) else str_N (Z.to_N z).

(** The value of a decimal digit character. *)
Definition digit_val (c : ascii) : option N := N.of_nat <$> Ascii.is_nat c.

Definition digit_head (s : string) : bool :=
  match s with String c _ => bool_decide (is_Some (digit_val c)) | "" => false end.

(** Read the longest run of digits, accumulating into [acc]. *)
Fixpoint digits_acc (acc : N) (s : string) : N * string :=
  match s with
  | String c s' =>
      match digit_val c with
      | Some d => digits_acc (acc * 10 + d) s'
      | None => (acc, s)
      end
  | "" => (acc, "")
  end.

(** A non-empty run of digits. *)
Definition parse_N (s : string) : option (N * string) :=
  if digit_head s then Some (digits_acc 0 s) else None.

(** An integer literal with an optional leading minus sign. *)
Definition parse_int (s : string) : option (Z * string) :=
  match s with
  | String c s' =>
      if decide (c = "-"%char)
      then (λ '(n, r), (- Z.of_N n, r)%Z) <$> parse_N s'
      else (λ '(n, r), (Z.of_N n, r)) <$> parse_N s
  | "" => None
  end.

(** ** Digits *)

Lemma digit_val_char d : d < 10 → digit_val (digit_char d) = Some d.
Proof.
  intros Hd.
  assert (d = 0 ∨ d = 1 ∨ d = 2 ∨ d = 3 ∨ d = 4 ∨ d = 5 ∨ d = 6 ∨ d = 7
          ∨ d = 8 ∨ d = 9) as Hc by lia.
  by repeat destruct Hc as [-> | Hc]; [..| subst].
Qed.

Lemma digit_char_inj d1 d2 :
  d1 < 10 → d2 < 10 → digit_char d1 = digit_char d2 → d1 = d2.
Proof.
  intros H1 H2 Heq. apply (f_equal digit_val) in Heq.
  rewrite !digit_val_char in Heq by done. congruence.
Qed.

(** ** Fuel *)

Lemma str_N_go_acc f n acc : str_N_go f n acc = str_N_go f n "" +:+ acc.
Proof.
  revert n acc. induction f as [|f IH]; intros n acc; [done|]. simpl.
  destruct (n <? 10); [done|].
  rewrite IH, (IH _ (String _ "")). by rewrite <- str_app_assoc.
Qed.

(** Any fuel [f >= 1] with [n < 10^f] gives the same digits. *)
Lemma str_N_go_fuel f f' n acc :
  n < 10 ^ N.of_nat f → (1 ≤ f)%nat → (f ≤ f')%nat →
  str_N_go f n acc = str_N_go f' n acc.
Proof.
  revert f' n acc. induction f as [|f IH]; intros f' n acc Hn H1 Hf; [lia|].
  destruct f' as [|f']; [lia|]. simpl.
  destruct (N.ltb_spec n 10); [done|].
  rewrite Nat2N.inj_succ, N.pow_succ_r in Hn by lia.
  destruct f as [|f]; [simpl in Hn; lia|].
  apply IH; [|lia|lia].
  apply N.Div0.div_lt_upper_bound. lia.
Qed.

Lemma str_N_fuel_ok n : n < 10 ^ N.of_nat (S (N.to_nat (N.size n))).
Proof.
  rewrite Nat2N.inj_succ, N2Nat.id.
  eapply N.lt_le_trans; [apply N.size_gt|].
  etrans; [apply N.pow_le_mono_l with (b := 10); lia|].
  apply N.pow_le_mono_r; lia.
Qed.

(** The recursive characterisation of [str_N]: the digits of [n / 10]
    followed by the last digit. *)
Lemma str_N_unfold n :
  str_N n = if n <? 10 then String (digit_char n) ""
            else str_N (n / 10) +:+ String (digit_char (n mod 10)) "".
Proof.
  unfold str_N at 1; simpl. destruct (N.ltb_spec n 10) as [Hlt|Hge].
  { by rewrite N.mod_small. }
  rewrite str_N_go_acc. f_equal. unfold str_N.
  assert (1 ≤ N.to_nat (N.size n))%nat.
  { rewrite N.size_log2 by lia. lia. }
  pose proof (str_N_fuel_ok n) as Hn.
  rewrite Nat2N.inj_succ, N.pow_succ_r in Hn by lia.
  rewrite (str_N_go_fuel (N.to_nat (N.size n))
             (Nat.max (N.to_nat (N.size n)) (S (N.to_nat (N.size (n / 10))))))
    by (try apply N.Div0.div_lt_upper_bound; lia).
  symmetry. apply str_N_go_fuel; [apply str_N_fuel_ok|lia|lia].
Qed.

(** Division by ten, as [lia] sees it: [n / 10] and [n mod 10] become
    atoms tied to [n] by Euclid's equation. *)
Lemma N_div10_facts n : n = 10 * (n / 10) + n mod 10 ∧ n mod 10 < 10.
Proof. split; [apply N.div_mod'|apply N.mod_lt; lia]. Qed.

Ltac N_div10 n := destruct (N_div10_facts n); generalize dependent (n mod 10);
  generalize dependent (n / 10); intros.

(** Strong induction on [N], used on the recursion of [str_N]. *)
Lemma N_strong_ind (P : N → Prop) :
  (∀ n, (∀ m, m < n → P m) → P n) → ∀ n, P n.
Proof. intros H n. induction n using (well_founded_induction N.lt_wf_0). auto. Qed.

Ltac str_N_ind n :=
  induction n as [n IH] using N_strong_ind; rewrite str_N_unfold;
  destruct (N.ltb_spec n 10).

(** Every character printed is a digit. *)
Lemma str_N_chars n c : str_has c (str_N n) → ∃ d, d < 10 ∧ c = digit_char d.
Proof.
  revert c. str_N_ind n; intros c Hc; str_norm.
  - rewrite orb_false_r in Hc. case_bool_decide; [eauto | done].
  - apply orb_True in Hc as [Hc|Hc]; [exact (IH (n / 10) ltac:(apply N.div_lt; lia) c Hc)|].
    rewrite orb_false_r in Hc. case_bool_decide; [|done].
    exists (n mod 10). split; [apply N.mod_lt; lia | done].
Qed.

Lemma str_N_head n : ∃ d s, d < 10 ∧ str_N n = String (digit_char d) s.
Proof.
  str_N_ind n; [by exists n, ""|].
  destruct (IH (n / 10)) as (d & s & Hd & ->); [apply N.div_lt; lia|].
  by exists d, (s +:+ String (digit_char (n mod 10)) "").
Qed.

(** Reading the digits of [str_N n] back, followed by any [rest]. *)
Lemma digits_acc_str_N n acc rest :
  digits_acc acc (str_N n +:+ rest) =
  digits_acc (acc * 10 ^ N.of_nat (String.length (str_N n)) + n) rest.
Proof.
  revert acc rest. str_N_ind n; intros acc rest.
  - simpl. rewrite digit_val_char by done. f_equal; lia.
  - assert (n / 10 < n) as Hlt by (apply N.div_lt; lia).
    rewrite <- str_app_assoc, (IH _ Hlt). simpl.
    rewrite digit_val_char by (apply N.mod_lt; lia). f_equal.
    rewrite str_length_app; simpl. rewrite Nat.add_1_r, Nat2N.inj_succ, N.pow_succ_r by lia.
    N_div10 n. nia.
Qed.

Lemma digits_acc_stop acc rest : digit_head rest = false → digits_acc acc rest = (acc, rest).
Proof.
  destruct rest as [|c r]; [done|]. simpl. case_bool_decide as Hd; [done|].
  intros _. destruct (digit_val c); [naive_solver | done].
Qed.

Lemma digit_head_str_N n rest : digit_head (str_N n +:+ rest) = true.
Proof.
  destruct (str_N_head n) as (d & s & Hd & ->). simpl.
  rewrite digit_val_char by done. by apply bool_decide_eq_true.
Qed.

Lemma parse_N_str_N n rest :
  digit_head rest = false → parse_N (str_N n +:+ rest) = Some (n, rest).
Proof.
  intros Hr. unfold parse_N. rewrite digit_head_str_N, digits_acc_str_N, digits_acc_stop by done.
  do 2 f_equal; lia.
Qed.

Lemma digit_char_not_minus d : d < 10 → digit_char d ≠ "-"%char.
Proof.
  intros Hd Heq. apply (f_equal digit_val) in Heq.
  by rewrite digit_val_char in Heq.
Qed.

Example py_str_int_65 : py_str_int 65 = "65".
Proof. reflexivity. Qed.
Example py_str_int_neg : py_str_int (-305) = "-305".
Proof. reflexivity. Qed.
Example py_str_int_0 : py_str_int 0 = "0".
Proof. reflexivity. Qed.

(** ** Round trip *)

(** [parse_int] reads back exactly the integer that [str(z)] printed,
    and leaves whatever follows it untouched, as long as that does not
    start with a digit. *)
Lemma parse_int_py_str_int (z : Z) (rest : string) :
  digit_head rest = false → parse_int (py_str_int z +:+ rest) = Some (z, rest).
Proof.
  intros Hr. unfold py_str_int. destruct (Z.ltb_spec z 0) as [Hneg|Hpos].
  - rewrite <- str_app_assoc. simpl. rewrite str_app_nil_l, parse_N_str_N by done.
    simpl. f_equal. f_equal. lia.
  - destruct (str_N_head (Z.to_N z)) as (d & s & Hd & Hs). rewrite Hs at 1.
    simpl. rewrite decide_False by (by apply digit_char_not_minus).
    rewrite <- Hs, parse_N_str_N by done. simpl. f_equal. f_equal. lia.
Qed.

(** [str(z)] prints only digits and the minus sign. *)
Lemma py_str_int_chars z c :
  str_has c (py_str_int z) → c = "-"%char ∨ ∃ d, d < 10 ∧ c = digit_char d.
Proof.
  unfold py_str_int. destruct (z <? 0)%Z; intros Hc; [str_norm|].
  - apply orb_True in Hc as [Hc|Hc]; [|by right; eapply str_N_chars].
    left. by case_bool_decide.
  - right. by eapply str_N_chars.
Qed.

(** Hence no character that is neither a digit nor ["-"] is printed;
    [py_str_int_no_char "'" ] and the like are decided by computation. *)
Lemma py_str_int_no_char c z :
  c ≠ "-"%char → digit_val c = None → str_has c (py_str_int z) = false.
Proof.
  intros Hm Hd. destruct (str_has c (py_str_int z)) eqn:E; [|done].
  destruct (py_str_int_chars z c) as [|(d & Hd10 & ->)]; [by rewrite E|done|].
  by rewrite digit_val_char in Hd.
Qed.

(** A character test that holds of ["-"] and of every digit holds of
    every character [str(z)] prints. *)
Lemma py_str_int_forall p z :
  p "-"%char = true → forallb (λ d, p (digit_char d)) [0; 1; 2; 3; 4; 5; 6; 7; 8; 9] = true →
  str_forall p (py_str_int z) = true.
Proof.
  intros Hm Hd. apply str_forall_has. intros c Hc.
  destruct (py_str_int_chars z c Hc) as [->|(d & Hd10 & ->)]; [done|].
  assert (d = 0 ∨ d = 1 ∨ d = 2 ∨ d = 3 ∨ d = 4 ∨ d = 5 ∨ d = 6 ∨ d = 7
          ∨ d = 8 ∨ d = 9) as Hc' by lia.
  simpl in Hd. repeat (apply andb_prop in Hd as [? Hd]).
  repeat destruct Hc' as [-> | Hc']; subst; done.
Qed.

End PyInt.
