(* ===== verification/Table.v ===== *)
(** Tables of time ranges (pandas DataFrames) as src/app.py reads them:
    the two default tables, the rows produced by [df.iterrows()], the cell
    lookup [row['...']] and the arithmetic
    [row['Start time (min)'] * 60 + row['Start time (sec)']].

    pandas decides the scalar type of an [iterrows] row from the frame's
    dtypes: when every column is int64 the row is an int64 Series and its
    cells are numpy int64 scalars, whose [*] and [+] wrap at 64 bits; when
    some column holds objects (the annotation table's ['Text']) the row is an
    object Series and its cells are Python objects: unbounded [int], or
    [str], which [*] repeats and [+] concatenates.  [scalar_kind] records
    which of the two the code gets. *)

From S2P Require Import Prelude PyStr.

Module Table.

Import PyInt.

(** A cell as the code reads it: an integer or a string. *)
Inductive cell :=
  | CInt (z : Z)
  | CStr (s : string).

#[export] Instance cell_eq_dec : EqDecision cell.
Proof. solve_decision. Defined.

(** A DataFrame: its column labels and its rows, each a list of cells
    aligned with the columns. *)
Record frame := mk_frame { columns : list string; rows : list (list cell) }.

(** Column labels the code uses. *)
Definition col_text : string := "Text".
Definition col_start_min : string := "Start time (min)".
Definition col_start_sec : string := "Start time (sec)".
Definition col_end_min : string := "End time (min)".
Definition col_end_sec : string := "End time (sec)".

(** app.py, [get_default_annotation_data]. *)
Definition get_default_annotation_data : frame :=
  {| columns := [col_text; col_start_min; col_start_sec; col_end_min; col_end_sec];
     rows := [[CStr "Sample text"; CInt 0; CInt 5; CInt 0; CInt 10]] |}.

(** app.py, [get_default_trimming_data]. *)
Definition get_default_trimming_data : frame :=
  {| columns := [col_start_min; col_start_sec; col_end_min; col_end_sec];
     rows := [[CInt 0; CInt 5; CInt 0; CInt 10]] |}.

(** A frame is well formed when its labels are distinct and every row has
    one cell per column. *)
Definition frame_wf (df : frame) : Prop :=
  NoDup (columns df) ∧ Forall (λ r, length r = length (columns df)) (rows df).

(** ** int64 *)

Definition int64_min : Z := (- 2 ^ 63)%Z.
Definition int64_max : Z := (2 ^ 63 - 1)%Z.

Definition in_int64 (z : Z) : bool := bool_decide (int64_min ≤ z ≤ int64_max)%Z.

(** numpy's two's-complement wrap-around of an int64 result. *)
Definition np_wrap64 (z : Z) : Z := ((z + 2 ^ 63) mod 2 ^ 64 - 2 ^ 63)%Z.

Definition cell_int64 (c : cell) : bool :=
  match c with CInt z => in_int64 z | CStr _ => false end.

(** Every column of the frame is int64. *)
Definition frame_all_int64 (df : frame) : bool :=
  forallb (forallb cell_int64) (rows df).

Inductive scalar_kind := NpInt64 | PyObject.

(** The scalar type of the rows [df.iterrows()] yields. *)
Definition row_kind (df : frame) : scalar_kind :=
  if frame_all_int64 df then NpInt64 else PyObject.

(** ** Reading a row *)

(** [row[k]] on a Series indexed by the column labels. *)
Fixpoint series_get (cols : list string) (vals : list cell) (k : string) : res cell :=
  match cols, vals with
  | c :: cs, v :: vs => if decide (c = k) then Ok v else series_get cs vs k
  | _, _ => Exc (KeyError k)
  end.

(** [s * n] for a Python string: [n] copies, none when [n <= 0]. *)
Definition str_repeat (s : string) (n : Z) : string :=
  foldr String.append "" (replicate (Z.to_nat n) s).

(** Python's [*] on int and str operands. *)
Definition py_mul (a b : cell) : res cell :=
  match a, b with
  | CInt x, CInt y => Ok (CInt (x * y))
  | CStr s, CInt n => Ok (CStr (str_repeat s n))
  | CInt n, CStr s => Ok (CStr (str_repeat s n))
  | CStr _, CStr _ => Exc TypeError
  end.

(** Python's [+] on int and str operands. *)
Definition py_add (a b : cell) : res cell :=
  match a, b with
  | CInt x, CInt y => Ok (CInt (x + y))
  | CStr x, CStr y => Ok (CStr (x +:+ y))
  | _, _ => Exc TypeError
  end.

(** numpy int64 [*] and [+]: the operands of an int64 row are integers. *)
Definition np_mul (a b : cell) : res cell :=
  match a, b with
  | CInt x, CInt y => Ok (CInt (np_wrap64 (x * y)))
  | _, _ => Exc TypeError
  end.

Definition np_add (a b : cell) : res cell :=
  match a, b with
  | CInt x, CInt y => Ok (CInt (np_wrap64 (x + y)))
  | _, _ => Exc TypeError
  end.

Definition op_mul (k : scalar_kind) : cell → cell → res cell :=
  match k with NpInt64 => np_mul | PyObject => py_mul end.

Definition op_add (k : scalar_kind) : cell → cell → res cell :=
  match k with NpInt64 => np_add | PyObject => py_add end.

(** [row[cmin] * 60 + row[csec]], evaluated left to right: the product is
    computed before [row[csec]] is read. *)
Definition row_total (k : scalar_kind) (cols : list string) (vals : list cell)
    (cmin csec : string) : res cell :=
  m ← series_get cols vals cmin;
  p ← op_mul k m (CInt 60);
  s ← series_get cols vals csec;
  op_add k p s.

Definition start_total (k : scalar_kind) (cols : list string) (vals : list cell) : res cell :=
  row_total k cols vals col_start_min col_start_sec.

Definition end_total (k : scalar_kind) (cols : list string) (vals : list cell) : res cell :=
  row_total k cols vals col_end_min col_end_sec.

(** [f"{x}"] of a cell: [str(x)]. *)
Definition fmt_cell (c : cell) : string :=
  match c with CInt z => py_str_int z | CStr s => s end.

(** The loop [for _, row in df.iterrows(): out.append(f(row))]; an
    exception raised by [f] ends the loop and propagates. *)
Fixpoint for_rows {A} (f : list cell → res A) (rs : list (list cell)) (acc : list A)
    : res (list A) :=
  match rs with
  | [] => Ok acc
  | r :: rs' => x ← f r; for_rows f rs' (acc ++ [x])
  end.

(** The interval [(start, end)] of a row whose two totals are integers. *)
Definition row_interval (k : scalar_kind) (cols : list string) (row : list cell)
    : option (Z * Z) :=
  match start_total k cols row, end_total k cols row with
  | Ok (CInt s), Ok (CInt e) => Some (s, e)
  | _, _ => None
  end.

(** The intervals of a table, when every row has integer totals. *)
Definition table_intervals (df : frame) : option (list (Z * Z)) :=
  mapM (row_interval (row_kind df) (columns df)) (rows df).

(** ** int64 arithmetic *)

Lemma np_wrap64_in_int64 z : in_int64 (np_wrap64 z) = true.
Proof.
  unfold in_int64, np_wrap64, int64_min, int64_max. apply bool_decide_eq_true.
  pose proof (Z.mod_pos_bound (z + 2 ^ 63) (2 ^ 64) ltac:(lia)). lia.
Qed.

Lemma np_wrap64_id z : in_int64 z = true → np_wrap64 z = z.
Proof.
  unfold in_int64, np_wrap64, int64_min, int64_max. intros Hz%bool_decide_eq_true_1.
  rewrite Z.mod_small; lia.
Qed.

(** Wrapping an intermediate sum does not change the final wrap. *)
Lemma np_wrap64_add_l a b : np_wrap64 (np_wrap64 a + b) = np_wrap64 (a + b).
Proof.
  unfold np_wrap64. f_equal.
  replace ((a + 2 ^ 63) mod 2 ^ 64 - 2 ^ 63 + b + 2 ^ 63)%Z
    with ((a + 2 ^ 63) mod 2 ^ 64 + b)%Z by lia.
  rewrite Z.add_mod_idemp_l by lia. f_equal. lia.
Qed.

Lemma np_wrap64_mod a b : (a mod 2 ^ 64 = b mod 2 ^ 64)%Z → np_wrap64 a = np_wrap64 b.
Proof.
  intros H. unfold np_wrap64. f_equal.
  rewrite <- (Z.add_mod_idemp_l a), <- (Z.add_mod_idemp_l b), H by lia. done.
Qed.

Lemma np_wrap64_congr z : ((np_wrap64 z - z) mod 2 ^ 64 = 0)%Z.
Proof.
  unfold np_wrap64. rewrite (Z.mod_eq (z + 2 ^ 63) (2 ^ 64)) by lia.
  set (q := ((z + 2 ^ 63) / 2 ^ 64)%Z).
  replace ((z + 2 ^ 63 - 2 ^ 64 * q - 2 ^ 63 - z))%Z with ((- q) * 2 ^ 64)%Z by lia.
  apply Z.mod_mul. lia.
Qed.

(** ** The row loop *)

Lemma for_rows_app {A} (f : list cell → res A) rs acc1 acc2 :
  for_rows f rs (acc1 ++ acc2) = (λ out, acc1 ++ out) <$> for_rows f rs acc2.
Proof.
  revert acc2. induction rs as [|r rs IH]; intros acc2; [done|]. simpl.
  destruct (f r); simpl; [|done]. by rewrite <- app_assoc, IH.
Qed.

Lemma res_fmap_ok {A B} (g : A → B) (r : res A) b :
  (g <$> r) = Ok b ↔ ∃ a, r = Ok a ∧ b = g a.
Proof.
  destruct r as [a|e]; simpl; split.
  - intros [= <-]. eauto.
  - by intros (a' & [= ->] & ->).
  - done.
  - by intros (? & ? & _).
Qed.

(** The loop succeeds exactly when every row does; its output is the
    accumulator followed by one result per row, in row order. *)
Lemma for_rows_ok_iff {A} (f : list cell → res A) rs acc out :
  for_rows f rs acc = Ok out ↔
  ∃ outs, Forall2 (λ r o, f r = Ok o) rs outs ∧ out = acc ++ outs.
Proof.
  revert acc. induction rs as [|r rs IH]; intros acc; simpl.
  - split; [intros [= <-]; exists []; by rewrite app_nil_r|].
    intros (outs & Hf & ->). apply Forall2_nil_inv_l in Hf as ->. by rewrite app_nil_r.
  - destruct (f r) as [x|e] eqn:Hr; simpl.
    + rewrite IH. split.
      * intros (outs & Hf & ->). exists (x :: outs). rewrite <- app_assoc. auto.
      * intros (outs & Hf & ->). apply Forall2_cons_inv_l in Hf as (o & outs' & Ho & Hf & ->).
        exists outs'. rewrite Hr in Ho. injection Ho as <-. by rewrite <- app_assoc.
    + split; [done|]. intros (outs & Hf & _).
      apply Forall2_cons_inv_l in Hf as (o & ? & Ho & _). congruence.
Qed.

(** The first row that raises decides the exception of the loop. *)
Lemma for_rows_exc {A} (f : list cell → res A) ok r rest acc e :
  Forall (λ r', is_ok (f r')) ok → f r = Exc e →
  for_rows f (ok ++ r :: rest) acc = Exc e.
Proof.
  revert acc. induction ok as [|r' ok IH]; intros acc Hok Hr; simpl.
  - by rewrite Hr.
  - apply Forall_cons in Hok as [Hr' Hok].
    destruct (f r'); [|done]. by apply IH.
Qed.

(** A label that is not a column raises [KeyError]. *)
Lemma series_get_missing cols vals k : k ∉ cols → series_get cols vals k = Exc (KeyError k).
Proof.
  revert vals. induction cols as [|c cols IH]; intros [|v vals] Hk; simpl; try done.
  rewrite decide_False by (intros ->; apply Hk; left). apply IH. intros ?. apply Hk. by right.
Qed.

(** ** Totals *)

(** In an object row, integer cells add up exactly. *)
Lemma row_total_obj cols vals cmin csec m s :
  series_get cols vals cmin = Ok (CInt m) → series_get cols vals csec = Ok (CInt s) →
  row_total PyObject cols vals cmin csec = Ok (CInt (m * 60 + s)).
Proof. intros Hm Hs. unfold row_total. by rewrite Hm, Hs. Qed.

(** In an int64 row, the total is the exact one wrapped once at 64 bits. *)
Lemma row_total_np cols vals cmin csec m s :
  series_get cols vals cmin = Ok (CInt m) → series_get cols vals csec = Ok (CInt s) →
  row_total NpInt64 cols vals cmin csec = Ok (CInt (np_wrap64 (m * 60 + s))).
Proof. intros Hm Hs. unfold row_total. rewrite Hm, Hs. simpl. by rewrite np_wrap64_add_l. Qed.

(** C10: in a frame whose columns are all int64 (the trimming table),
    [row[min] * 60 + row[sec]] is computed in numpy int64: the result is
    always an int64, it is congruent to the exact [m*60+s] modulo 2^64, and
    it equals [m*60+s] whenever that fits in 64 bits. *)
Theorem row_total_int64 cols row cmin csec m s :
  series_get cols row cmin = Ok (CInt m) → series_get cols row csec = Ok (CInt s) →
  ∃ r, row_total NpInt64 cols row cmin csec = Ok (CInt r) ∧ in_int64 r = true ∧
       ((r - (m * 60 + s)) mod 2 ^ 64 = 0)%Z ∧
       (in_int64 (m * 60 + s) = true → r = (m * 60 + s)%Z).
Proof.
  intros Hm Hs. exists (np_wrap64 (m * 60 + s)).
  split; [by apply row_total_np|]. split; [apply np_wrap64_in_int64|]. split.
  - apply np_wrap64_congr.
  - apply np_wrap64_id.
Qed.

Lemma row_total_int64_witness :
  series_get (columns get_default_trimming_data) [CInt 0; CInt 5; CInt 0; CInt 10]
    col_start_min = Ok (CInt 0) ∧
  series_get (columns get_default_trimming_data) [CInt 0; CInt 5; CInt 0; CInt 10]
    col_start_sec = Ok (CInt 5) ∧
  ∃ r, row_total NpInt64 (columns get_default_trimming_data) [CInt 0; CInt 5; CInt 0; CInt 10]
         col_start_min col_start_sec = Ok (CInt r) ∧ in_int64 r = true ∧
       ((r - (0 * 60 + 5)) mod 2 ^ 64 = 0)%Z ∧
       (in_int64 (0 * 60 + 5) = true → r = (0 * 60 + 5)%Z).
Proof. split; [reflexivity|]. split; [reflexivity|]. by apply row_total_int64. Defined.

End Table.
