(* ===== verification/FFGraph.v ===== *)
(** How ffmpeg reads the [-vf]/[-af] argument that src/app.py builds: a
    filtergraph description.  This is the external tool's behaviour, not
    code of the repository; it is modelled after ffmpeg's documentation
    ("Notes on filtergraph escaping") and libavutil's [av_get_token], so
    that the builders' strings can be given a meaning.

    Two levels of quoting apply.  The graph level splits the description
    into filters at [','], reading each filter's name with [av_get_token]
    up to ["=,;["] and its arguments up to ["[],;"].  The option level
    splits the arguments at [':'] into [key=value] pairs (a value with no
    key takes the filter's next positional option name), each value read
    again with [av_get_token].  [av_get_token] skips leading white space,
    copies characters up to a terminator, removes single quotes (what is
    between them is copied verbatim, terminators included), resolves a
    backslash escape, and drops trailing white space that is not quoted
    or escaped. *)

From S2P Require Import Prelude.
From Stdlib Require Import Ascii.

Module FFGraph.

Definition char_in (c : ascii) (l : list ascii) : bool := existsb (Ascii.eqb c) l.

(** [" \n\t\r"] *)
Definition ws_chars : list ascii := [" "; "010"; "009"; "013"]%char.
Definition is_ws (c : ascii) : bool := char_in c ws_chars.

Fixpoint skip_ws (s : string) : string :=
  match s with String c s' => if is_ws c then skip_ws s' else s | "" => "" end.

(** The scan of [av_get_token].  [out] holds the copied characters, last
    first; the first [prot] of them (in string order) are protected from
    the final trim; [inq] is set inside a quote. *)
Fixpoint tok_go (term : list ascii) (inq : bool) (s : string) (out : list ascii) (prot : nat)
    : list ascii * nat * string :=
  match s with
  | "" => (out, prot, "")
  | String c s' =>
      if inq then
        if Ascii.eqb c "'" then tok_go term false s' out (length out)
        else tok_go term true s' (c :: out) prot
      else if char_in c term then (out, prot, s)
      else if Ascii.eqb c "\" then
        match s' with
        | String c2 s'' => tok_go term false s'' (c2 :: out) (S (length out))
        | "" => (c :: out, prot, "")
        end
      else if Ascii.eqb c "'" then tok_go term true s' out prot
      else tok_go term false s' (c :: out) prot
  end.

(** Drop trailing white space beyond the protected prefix. *)
Fixpoint trim_ws (out : list ascii) (prot : nat) : list ascii :=
  match out with
  | c :: out' => if is_ws c && (prot <? length out) then trim_ws out' prot else out
  | [] => []
  end.

(** [av_get_token(&s, term)]: the token and the rest of the input, which
    starts at the terminator (not consumed). *)
Definition av_get_token (term : list ascii) (s : string) : string * string :=
  let '(out, prot, rest) := tok_go term false (skip_ws s) [] 0 in
  (String.string_of_list_ascii (rev (trim_ws out prot)), rest).

Definition name_term : list ascii := ["="; ","; ";"; "["]%char.
Definition args_term : list ascii := ["["; "]"; ","; ";"]%char.
Definition opt_term : list ascii := [":"]%char.

(** A chain of filters [name=args, name=args, ...]; one filter per
    iteration, so [fuel] is at most the length of the description. *)
Fixpoint parse_chain (fuel : nat) (s : string) : option (list (string * string)) :=
  match fuel with
  | O => None
  | S f =>
      let '(name, r) := av_get_token name_term s in
      let '(args, r') :=
        match r with
        | String c r1 => if Ascii.eqb c "=" then av_get_token args_term r1 else ("", r)
        | "" => ("", r)
        end in
      if decide (name = "") then None else
      match skip_ws r' with
      | "" => Some [(name, args)]
      | String c r'' =>
          if Ascii.eqb c "," then ((name, args) ::.) <$> parse_chain f r'' else None
      end
  end.

Definition parse_graph (s : string) : option (list (string * string)) :=
  parse_chain (S (String.length s)) s.

(** Characters allowed in an option name. *)
Definition is_key_char (c : ascii) : bool :=
  let n := nat_of_ascii c in
  ((97 <=? n) && (n <=? 122)) || ((65 <=? n) && (n <=? 90)) ||
  ((48 <=? n) && (n <=? 57)) || char_in c ["-"; "_"; "/"; "."]%char.

Fixpoint take_key (s : string) : string * string :=
  match s with
  | String c s' => if is_key_char c then let '(k, r) := take_key s' in (String c k, r) else ("", s)
  | "" => ("", "")
  end.

(** An option name followed by ['=']; [None] when there is none. *)
Definition get_key (s : string) : option (string * string) :=
  let '(k, r) := take_key (skip_ws s) in
  match skip_ws r with
  | String c r' => if Ascii.eqb c "=" then Some (k, r') else None
  | "" => None
  end.

Definition skip_sep (s : string) : string := match s with String _ s' => s' | "" => "" end.

(** The option list of a filter: [key=value] pairs separated by [':'];
    values without a key take the next [shorthand] name, until the first
    named option. *)
Fixpoint parse_opts (fuel : nat) (shorthand : list string) (s : string)
    : option (list (string * string)) :=
  match fuel with
  | O => None
  | S f =>
      match s with
      | "" => Some []
      | _ =>
          match get_key s with
          | Some (k, r) =>
              let '(v, r') := av_get_token opt_term r in
              ((k, v) ::.) <$> parse_opts f [] (skip_sep r')
          | None =>
              match shorthand with
              | k :: sh =>
                  let '(v, r') := av_get_token opt_term s in
                  ((k, v) ::.) <$> parse_opts f sh (skip_sep r')
              | [] => None
              end
          end
      end
  end.

(** Positional option names of the filters the code uses, in ffmpeg's
    declaration order. *)
Definition filter_shorthand (name : string) : list string :=
  if decide (name = "select") then ["expr"; "outputs"]
  else if decide (name = "aselect") then ["expr"; "outputs"]
  else if decide (name = "setpts") then ["expr"]
  else if decide (name = "asetpts") then ["expr"]
  else if decide (name = "drawtext") then ["fontfile"; "text"; "textfile"]
  else [].

Definition parse_filter (nf : string * string) : option (string * list (string * string)) :=
  (λ opts, (nf.1, opts)) <$> parse_opts (S (String.length nf.2)) (filter_shorthand nf.1) nf.2.

(** A filtergraph: each filter's name and its options. *)
Definition parse_filtergraph (s : string) : option (list (string * list (string * string))) :=
  chain ← parse_graph s; mapM parse_filter chain.

(** ** Reading plain and quoted segments *)

(** A character [av_get_token] copies as it is: no terminator, no
    backslash, no quote. *)
Definition ord_char (term : list ascii) (c : ascii) : bool :=
  negb (char_in c term) && negb (Ascii.eqb c "\") && negb (Ascii.eqb c "'").

Definition no_quote (c : ascii) : bool := negb (Ascii.eqb c "'").

(** Neither the first nor the last character is white space. *)
Definition ws_free_edges (s : string) : bool :=
  match String.list_ascii_of_string s, rev (String.list_ascii_of_string s) with
  | c1 :: _, c2 :: _ => negb (is_ws c1) && negb (is_ws c2)
  | _, _ => true
  end.

(** The input ends, or continues with a terminator that is not white space. *)
Definition stops_at (term : list ascii) (rest : string) : bool :=
  match rest with "" => true | String c _ => char_in c term && negb (is_ws c) end.

Lemma ord_char_inv term c :
  ord_char term c = true →
  char_in c term = false ∧ Ascii.eqb c "\" = false ∧ Ascii.eqb c "'" = false.
Proof. unfold ord_char. intros H. repeat (apply andb_prop in H as [H ?]). by destruct (char_in _ _), (Ascii.eqb c _), (Ascii.eqb c _). Qed.

Lemma tok_go_plain term p s out prot :
  str_forall (ord_char term) p = true →
  tok_go term false (p +:+ s) out prot =
  tok_go term false s (rev (String.list_ascii_of_string p) ++ out) prot.
Proof.
  revert out. induction p as [|c p IH]; intros out Hp; [done|].
  simpl in Hp. apply andb_prop in Hp as [Hc Hp].
  destruct (ord_char_inv term c Hc) as (H1 & H2 & H3).
  rewrite str_app_cons; simpl. rewrite H1, H2, H3, IH by done.
  simpl. by rewrite <- app_assoc.
Qed.

Lemma tok_go_in_quote term q s out prot :
  str_forall no_quote q = true →
  tok_go term true (q +:+ String "'" s) out prot =
  tok_go term false s (rev (String.list_ascii_of_string q) ++ out)
    (length (rev (String.list_ascii_of_string q) ++ out)).
Proof.
  revert out. induction q as [|c q IH]; intros out Hq; [done|].
  simpl in Hq. apply andb_prop in Hq as [Hc Hq].
  rewrite str_app_cons; simpl. unfold no_quote in Hc.
  destruct (Ascii.eqb c "'"); [done|]. rewrite IH by done.
  simpl. by rewrite <- app_assoc.
Qed.

Lemma tok_go_quoted term q s out prot :
  char_in "'" term = false → str_forall no_quote q = true →
  tok_go term false (String "'" (q +:+ String "'" s)) out prot =
  tok_go term false s (rev (String.list_ascii_of_string q) ++ out)
    (length (rev (String.list_ascii_of_string q) ++ out)).
Proof. intros Ht Hq. simpl. rewrite Ht. by apply tok_go_in_quote. Qed.

Lemma tok_go_stop term c s out prot :
  char_in c term = true → tok_go term false (String c s) out prot = (out, prot, String c s).
Proof. intros Hc. simpl. by rewrite Hc. Qed.

Lemma trim_ws_prot out : trim_ws out (length out) = out.
Proof. destruct out; simpl; [done|]. rewrite Nat.ltb_irrefl. by destruct (is_ws _). Qed.

Lemma trim_ws_last c out prot : is_ws c = false → trim_ws (c :: out) prot = c :: out.
Proof. simpl. by intros ->. Qed.

Lemma skip_ws_head c s : is_ws c = false → skip_ws (String c s) = String c s.
Proof. simpl. by intros ->. Qed.

Lemma string_of_list_ascii_app l1 l2 :
  String.string_of_list_ascii (l1 ++ l2) =
  String.string_of_list_ascii l1 +:+ String.string_of_list_ascii l2.
Proof. induction l1 as [|c l IH]; [done|]. simpl. by rewrite IH. Qed.

Lemma list_ascii_of_string_app s1 s2 :
  String.list_ascii_of_string (s1 +:+ s2) = String.list_ascii_of_string s1 ++ String.list_ascii_of_string s2.
Proof. induction s1 as [|c s IH]; [done|]. simpl. by rewrite IH. Qed.

Lemma trim_ws_edges p :
  ws_free_edges p = true →
  trim_ws (rev (String.list_ascii_of_string p)) 0 = rev (String.list_ascii_of_string p).
Proof.
  unfold ws_free_edges. destruct (rev (String.list_ascii_of_string p)) as [|c2 l] eqn:E; [done|].
  destruct (String.list_ascii_of_string p); [done|].
  intros He. apply andb_prop in He as [_ He]. apply trim_ws_last. by destruct (is_ws c2).
Qed.

(** [av_get_token] on a plain token followed by a terminator. *)
Lemma av_get_token_plain term p rest :
  str_forall (ord_char term) p = true → ws_free_edges p = true → stops_at term rest = true →
  av_get_token term (p +:+ rest) = (p, rest).
Proof.
  intros Hp He Hr. unfold av_get_token.
  assert (skip_ws (p +:+ rest) = p +:+ rest) as ->.
  { destruct p as [|c p'].
    - destruct rest as [|c rest]; [done|]. simpl in Hr. apply andb_prop in Hr as [_ Hws].
      apply skip_ws_head. by destruct (is_ws c).
    - unfold ws_free_edges in He; simpl in He.
      destruct (rev (String.list_ascii_of_string p') ++ [c]) eqn:E.
      { apply app_eq_nil in E as [_ ?]. discriminate. }
      apply andb_prop in He as [He _]. apply skip_ws_head. by destruct (is_ws c). }
  rewrite tok_go_plain, app_nil_r by done.
  destruct rest as [|c rest].
  - simpl. by rewrite trim_ws_edges, rev_involutive, String.string_of_list_ascii_of_string.
  - simpl in Hr. apply andb_prop in Hr as [Hin _]. rewrite tok_go_stop by done.
    by rewrite trim_ws_edges, rev_involutive, String.string_of_list_ascii_of_string.
Qed.

(** ** Tokens made of plain and quoted segments *)

Inductive seg := Plain (p : string) | Quoted (q : string).

(** The text of the segments as written, quotes included. *)
Fixpoint render (segs : list seg) : string :=
  match segs with
  | [] => ""
  | Plain p :: r => p +:+ render r
  | Quoted q :: r => String "'" (q +:+ String "'" (render r))
  end.

(** The text [av_get_token] copies: the quotes removed. *)
Fixpoint unquoted (segs : list seg) : string :=
  match segs with
  | [] => ""
  | Plain p :: r => p +:+ unquoted r
  | Quoted q :: r => q +:+ unquoted r
  end.

Definition seg_ok (term : list ascii) (sg : seg) : bool :=
  match sg with
  | Plain p => str_forall (ord_char term) p
  | Quoted q => str_forall no_quote q
  end.

(** The token does not start with white space, and its last copied
    character is quoted or not white space, so nothing is trimmed. *)
Definition segs_edges_ok (segs : list seg) : bool :=
  match segs with
  | Plain (String c _) :: _ => negb (is_ws c)
  | Quoted _ :: _ => true
  | _ => false
  end &&
  match last segs with
  | Some (Quoted _) => true
  | Some (Plain p) =>
      match rev (String.list_ascii_of_string p) with c :: _ => negb (is_ws c) | [] => false end
  | None => false
  end.

Fixpoint segs_go (segs : list seg) (out : list ascii) (prot : nat) : list ascii * nat :=
  match segs with
  | [] => (out, prot)
  | Plain p :: r => segs_go r (rev (String.list_ascii_of_string p) ++ out) prot
  | Quoted q :: r =>
      let out' := rev (String.list_ascii_of_string q) ++ out in segs_go r out' (length out')
  end.

Lemma tok_go_segs term segs rest out prot :
  char_in "'" term = false → forallb (seg_ok term) segs = true →
  tok_go term false (render segs +:+ rest) out prot =
  let '(o, pr) := segs_go segs out prot in tok_go term false rest o pr.
Proof.
  intros Hq. revert out prot. induction segs as [|[p|q] segs IH]; intros out prot Hs;
    simpl in *; [done| |]; apply andb_prop in Hs as [Hsg Hs].
  - by rewrite <- str_app_assoc, tok_go_plain, IH.
  - rewrite Hq, <- !str_app_assoc, str_app_cons, tok_go_in_quote by done. by rewrite IH.
Qed.

Lemma segs_go_out segs out prot :
  (segs_go segs out prot).1 = rev (String.list_ascii_of_string (unquoted segs)) ++ out.
Proof.
  revert out prot. induction segs as [|[p|q] segs IH]; intros out prot; simpl; [done| |];
    by rewrite IH, list_ascii_of_string_app, rev_app_distr, app_assoc.
Qed.

Lemma segs_go_trim segs out prot :
  segs_edges_ok segs = true →
  trim_ws (segs_go segs out prot).1 (segs_go segs out prot).2 = (segs_go segs out prot).1.
Proof.
  intros He. apply andb_prop in He as [_ He].
  revert out prot He. induction segs as [|sg segs IH]; intros out prot He; [done|].
  destruct segs as [|sg' segs'].
  - destruct sg as [p|q]; simpl in *.
    + destruct (rev (String.list_ascii_of_string p)) as [|c l]; [done|]. simpl.
      apply trim_ws_last. by destruct (is_ws c).
    + apply trim_ws_prot.
  - destruct sg; simpl; apply IH; done.
Qed.

(** [av_get_token] on a token made of segments, followed by a terminator. *)
Lemma av_get_token_segs term segs rest :
  char_in "'" term = false → forallb (seg_ok term) segs = true →
  segs_edges_ok segs = true → stops_at term rest = true →
  av_get_token term (render segs +:+ rest) = (unquoted segs, rest).
Proof.
  intros Hq Hs He Hr. unfold av_get_token.
  assert (skip_ws (render segs +:+ rest) = render segs +:+ rest) as ->.
  { destruct segs as [|[[|c p]|q] segs]; simpl in He; try discriminate.
    - apply andb_prop in He as [He _]. apply skip_ws_head. by destruct (is_ws c).
    - done. }
  rewrite tok_go_segs by done.
  pose proof (segs_go_trim segs [] 0 He) as Ht.
  destruct (segs_go segs [] 0) as [o pr] eqn:Eg.
  assert (o = rev (String.list_ascii_of_string (unquoted segs))) as Ho.
  { pose proof (segs_go_out segs [] 0) as Hout. rewrite Eg, app_nil_r in Hout. done. }
  simpl in Ht.
  destruct rest as [|c rest].
  - simpl. by rewrite Ht, Ho, rev_involutive, String.string_of_list_ascii_of_string.
  - simpl in Hr. apply andb_prop in Hr as [Hin _]. rewrite tok_go_stop by done.
    by rewrite Ht, Ho, rev_involutive, String.string_of_list_ascii_of_string.
Qed.

(** ** Whole chains and option lists *)

Lemma av_get_token_ws term c s : is_ws c = true → av_get_token term (String c s) = av_get_token term s.
Proof. intros Hc. unfold av_get_token. simpl. by rewrite Hc. Qed.

Lemma av_get_token_ws_prefix term w s :
  str_forall is_ws w = true → av_get_token term (w +:+ s) = av_get_token term s.
Proof.
  induction w as [|c w IH]; [done|]. simpl. intros Hw. apply andb_prop in Hw as [Hc Hw].
  rewrite str_app_cons, av_get_token_ws by done. by apply IH.
Qed.

Lemma skip_ws_prefix w s : str_forall is_ws w = true → skip_ws (w +:+ s) = skip_ws s.
Proof.
  induction w as [|c w IH]; [done|]. intros Hw. simpl in Hw. apply andb_prop in Hw as [Hc Hw].
  rewrite str_app_cons. simpl. rewrite Hc. by apply IH.
Qed.

(** A filter [name=args] with its arguments written as segments. *)
Definition filter_text (nf : string * list seg) : string := nf.1 +:+ "=" +:+ render nf.2.

Definition filter_ok (nf : string * list seg) : bool :=
  bool_decide (nf.1 ≠ "") && str_forall (ord_char name_term) nf.1 && ws_free_edges nf.1 &&
  forallb (seg_ok args_term) nf.2 && segs_edges_ok nf.2.

Lemma parse_chain_step f nf rest :
  filter_ok nf = true → stops_at args_term rest = true →
  parse_chain (S f) (filter_text nf +:+ rest) =
  match skip_ws rest with
  | "" => Some [(nf.1, unquoted nf.2)]
  | String c r => if Ascii.eqb c "," then ((nf.1, unquoted nf.2) ::.) <$> parse_chain f r else None
  end.
Proof.
  destruct nf as [name segs]. unfold filter_ok, filter_text; simpl. intros Hok Hr.
  repeat (apply andb_prop in Hok as [Hok ?]). apply bool_decide_eq_true in Hok.
  rewrite <- !str_app_assoc, av_get_token_plain by done. simpl.
  rewrite str_app_nil_l, av_get_token_segs by done. by rewrite decide_False.
Qed.

Lemma parse_chain_unfold f s :
  parse_chain (S f) s =
  let '(name, r) := av_get_token name_term s in
  let '(args, r') :=
    match r with
    | String c r1 => if Ascii.eqb c "=" then av_get_token args_term r1 else ("", r)
    | "" => ("", r)
    end in
  if decide (name = "") then None else
  match skip_ws r' with
  | "" => Some [(name, args)]
  | String c r'' => if Ascii.eqb c "," then ((name, args) ::.) <$> parse_chain f r'' else None
  end.
Proof. reflexivity. Qed.

Lemma parse_chain_ws f w s :
  str_forall is_ws w = true → parse_chain f (w +:+ s) = parse_chain f s.
Proof.
  intros Hw. destruct f as [|f]; [done|].
  by rewrite !parse_chain_unfold, av_get_token_ws_prefix.
Qed.

Lemma parse_chain_step_comma f nf w rest :
  filter_ok nf = true → str_forall is_ws w = true →
  parse_chain (S f) (filter_text nf +:+ ("," +:+ w) +:+ rest) =
  ((nf.1, unquoted nf.2) ::.) <$> parse_chain f rest.
Proof.
  intros Hok Hw. rewrite parse_chain_step by (done || reflexivity).
  change (skip_ws (("," +:+ w) +:+ rest)) with (String "," (w +:+ rest)). simpl.
  by rewrite parse_chain_ws.
Qed.

(** Filters joined by a comma and optional white space [w], as [', '.join]
    and [','.join] produce them, parse back one by one. *)
Lemma parse_chain_join f w nf nfs :
  str_forall is_ws w = true → forallb filter_ok (nf :: nfs) = true → (length nfs < f)%nat →
  parse_chain f (String.concat ("," +:+ w) (map filter_text (nf :: nfs))) =
  Some (map (λ nf, (nf.1, unquoted nf.2)) (nf :: nfs)).
Proof.
  intros Hw. revert f nf. induction nfs as [|nf' nfs IH]; intros f nf Hok Hf;
    destruct f as [|f]; try (simpl in Hf; lia); simpl in Hok; apply andb_prop in Hok as [Hnf Hok].
  - change (String.concat ("," +:+ w) (map filter_text [nf])) with (filter_text nf).
    by rewrite <- (str_app_nil_r (filter_text nf)), parse_chain_step.
  - change (String.concat ("," +:+ w) (map filter_text (nf :: nf' :: nfs)))
      with (filter_text nf +:+ ("," +:+ w) +:+ String.concat ("," +:+ w) (map filter_text (nf' :: nfs))).
    rewrite parse_chain_step_comma, IH by (simpl in *; lia || done). done.
Qed.

Lemma is_ws_not_key c : is_ws c = true → is_key_char c = false.
Proof.
  unfold is_ws, char_in, ws_chars. simpl.
  intros H. repeat (apply orb_prop in H as [H|H]; [apply Ascii.eqb_eq in H as ->; reflexivity|]). discriminate.
Qed.

Lemma take_key_keys k r :
  str_forall is_key_char k = true → take_key (k +:+ "=" +:+ r) = (k, "=" +:+ r).
Proof.
  induction k as [|c k IH]; intros Hk; [done|]. simpl in Hk. apply andb_prop in Hk as [Hc Hk].
  rewrite str_app_cons. simpl. rewrite Hc, IH by done. done.
Qed.

Lemma get_key_keys k r :
  k ≠ "" → str_forall is_key_char k = true → get_key (k +:+ "=" +:+ r) = Some (k, r).
Proof.
  intros Hne Hk. unfold get_key. destruct k as [|c k']; [done|].
  assert (is_ws c = false) as Hc.
  { simpl in Hk. apply andb_prop in Hk as [Hc _].
    destruct (is_ws c) eqn:E; [|done]. by rewrite is_ws_not_key in Hc. }
  rewrite str_app_cons, skip_ws_head, <- str_app_cons, take_key_keys by done. done.
Qed.

Lemma parse_opts_unfold f sh s :
  s ≠ "" →
  parse_opts (S f) sh s =
  match get_key s with
  | Some (k, r) =>
      let '(v, r') := av_get_token opt_term r in
      ((k, v) ::.) <$> parse_opts f [] (skip_sep r')
  | None =>
      match sh with
      | k :: sh' => let '(v, r') := av_get_token opt_term s in
                    ((k, v) ::.) <$> parse_opts f sh' (skip_sep r')
      | [] => None
      end
  end.
Proof. by destruct s. Qed.

(** A [key=value] option. *)
Definition kv_text (kv : string * string) : string := kv.1 +:+ "=" +:+ kv.2.

Definition kv_ok (kv : string * string) : bool :=
  bool_decide (kv.1 ≠ "") && str_forall is_key_char kv.1 &&
  str_forall (ord_char opt_term) kv.2 && ws_free_edges kv.2.

Lemma parse_opts_key f sh kv rest :
  kv_ok kv = true → stops_at opt_term rest = true →
  parse_opts (S f) sh (kv_text kv +:+ rest) = (kv ::.) <$> parse_opts f [] (skip_sep rest).
Proof.
  destruct kv as [k v]. unfold kv_ok, kv_text; cbn [fst snd]. intros Hok Hr.
  repeat (apply andb_prop in Hok as [Hok ?]). apply bool_decide_eq_true in Hok.
  rewrite parse_opts_unfold by (by destruct k).
  rewrite <- !str_app_assoc, get_key_keys by done.
  rewrite av_get_token_plain by done. done.
Qed.

Lemma parse_opts_positional f k sh v rest :
  get_key (v +:+ rest) = None → v ≠ "" → str_forall (ord_char opt_term) v = true →
  ws_free_edges v = true → stops_at opt_term rest = true →
  parse_opts (S f) (k :: sh) (v +:+ rest) = ((k, v) ::.) <$> parse_opts f sh (skip_sep rest).
Proof.
  intros Hg Hne Hv He Hr. rewrite parse_opts_unfold by (by destruct v).
  rewrite Hg, av_get_token_plain by done. done.
Qed.

Lemma parse_opts_nil f sh : parse_opts (S f) sh "" = Some [].
Proof. reflexivity. Qed.

Definition opts_tail (kvs : list (string * string)) : string :=
  foldr (λ kv r, ":" +:+ kv_text kv +:+ r) "" kvs.

(** Named options separated by [':'] parse back in order. *)
Lemma parse_opts_kvs f sh kv kvs :
  forallb kv_ok (kv :: kvs) = true → (length kvs < f)%nat →
  parse_opts (S f) sh (kv_text kv +:+ opts_tail kvs) = Some (kv :: kvs).
Proof.
  revert f sh kv. induction kvs as [|kv' kvs IH]; intros f sh kv Hok Hf;
    simpl in Hok; apply andb_prop in Hok as [Hkv Hok]; destruct f as [|f]; try (simpl in Hf; lia).
  - rewrite parse_opts_key by done. done.
  - rewrite parse_opts_key by (done || reflexivity).
    change (skip_sep (opts_tail (kv' :: kvs))) with (kv_text kv' +:+ opts_tail kvs).
    rewrite IH by (simpl in *; lia || done). done.
Qed.

Lemma ws_free_edges_wrap c1 s c2 :
  is_ws c1 = false → is_ws c2 = false → ws_free_edges (String c1 (s +:+ String c2 "")) = true.
Proof.
  intros H1 H2. unfold ws_free_edges. simpl.
  rewrite list_ascii_of_string_app, rev_app_distr. simpl. by rewrite H1, H2.
Qed.

Arguments parse_opts : simpl never.
Arguments parse_chain : simpl never.

End FFGraph.
