(* ===== verification/FFExpr.v ===== *)
(** ffmpeg's arithmetic expressions (libavutil/eval.c), restricted to what
    src/app.py emits: integer literals, the variable [t] (the frame's time
    in seconds), [between(x,lo,hi)], [not(x)] and [+].  This is the
    external tool's behaviour, modelled from its documentation, so that the
    [select]/[aselect] expressions and the [enable] option the code builds
    have a meaning: [between(x,lo,hi)] is 1 when [lo <= x <= hi] and 0
    otherwise, [not(x)] is 1 when [x = 0] and 0 otherwise, and [select]
    keeps a frame when its expression is not 0.

    The parser follows eval.c's recursive descent: a sum of terms, each
    term a number (with its sign), the constant [t] or a function call
    [name(args)].  Subtraction, products, powers and the other functions
    and constants are not modelled: [parse_ffexpr] returns [None] on them,
    as it does on text ffmpeg itself rejects, such as [not()]. *)

From S2P Require Import Prelude PyStr.
From Stdlib Require Import Ascii QArith Lqa.

Module FFExpr.

Import PyInt.

Inductive fexpr :=
  | ENum (z : Z)
  | ET
  | EBetween (x lo hi : fexpr)
  | EAdd (a b : fexpr)
  | ENot (a : fexpr).

(** [IS_IDENTIFIER_CHAR]: letters, digits and ['_']. *)
Definition is_ident_char (c : ascii) : bool :=
  let n := nat_of_ascii c in
  ((97 <=? n) && (n <=? 122)) || ((65 <=? n) && (n <=? 90)) ||
  ((48 <=? n) && (n <=? 57)) || Ascii.eqb c "_".
Arguments is_ident_char : simpl never.

Fixpoint strip_prefix (pre s : string) : option string :=
  match pre, s with
  | "", _ => Some s
  | String c pre', String c' s' => if Ascii.eqb c c' then strip_prefix pre' s' else None
  | _, _ => None
  end.

(** [strmatch]: [s] starts with the name, and the name ends there. *)
Definition strmatch (name s : string) : option string :=
  r ← strip_prefix name s;
  match r with
  | String c _ => if is_ident_char c then None else Some r
  | "" => Some r
  end.

Definition expect (c : ascii) (s : string) : option string :=
  match s with String c' s' => if Ascii.eqb c c' then Some s' else None | "" => None end.

(** [pexpr] parses a sum, [pprim] a primary, [psum] the [+ term]s that
    follow a term.  Every call consumes one unit of [fuel]. *)
Fixpoint pexpr (fuel : nat) (s : string) : option (fexpr * string) :=
  match fuel with
  | O => None
  | S f => '(e, r) ← pprim f s; psum f e r
  end
with pprim (fuel : nat) (s : string) : option (fexpr * string) :=
  match fuel with
  | O => None
  | S f =>
      match parse_int s with
      | Some (z, r) => Some (ENum z, r)
      | None =>
          match strmatch "t" s with
          | Some r => Some (ET, r)
          | None =>
              match strmatch "between" s ≫= expect "(" with
              | Some r =>
                  '(x, r1) ← pexpr f r; r1' ← expect "," r1;
                  '(lo, r2) ← pexpr f r1'; r2' ← expect "," r2;
                  '(hi, r3) ← pexpr f r2'; r4 ← expect ")" r3;
                  Some (EBetween x lo hi, r4)
              | None =>
                  r ← strmatch "not" s ≫= expect "(";
                  '(a, r1) ← pexpr f r; r2 ← expect ")" r1;
                  Some (ENot a, r2)
              end
          end
      end
  end
with psum (fuel : nat) (acc : fexpr) (s : string) : option (fexpr * string) :=
  match fuel with
  | O => None
  | S f =>
      match s with
      | String c s' =>
          if Ascii.eqb c "+" then '(e, r) ← pprim f s'; psum f (EAdd acc e) r
          else Some (acc, s)
      | "" => Some (acc, "")
      end
  end.

(** A whole expression string; each call consumes at least one character,
    so the length of the string is enough fuel. *)
Definition parse_ffexpr (s : string) : option fexpr :=
  match pexpr (S (String.length s)) s with
  | Some (e, "") => Some e
  | _ => None
  end.

(** ** Parsing the strings the code prints *)

Definition plus_head (s : string) : bool :=
  match s with String c _ => Ascii.eqb c "+" | "" => false end.

Lemma psum_stop f acc rest : plus_head rest = false → psum (S f) acc rest = Some (acc, rest).
Proof. destruct rest as [|c rest]; simpl; [done|]. by intros ->. Qed.

Lemma pexpr_int f z rest :
  digit_head rest = false → plus_head rest = false →
  pexpr (S (S f)) (py_str_int z +:+ rest) = Some (ENum z, rest).
Proof.
  intros Hd Hp. cbn [pexpr pprim]. rewrite parse_int_py_str_int by done.
  cbn [mbind option_bind]. by apply psum_stop.
Qed.

Lemma pexpr_t f rest :
  (match rest with String c _ => is_ident_char c | "" => false end) = false →
  plus_head rest = false →
  pexpr (S (S f)) (String "t" rest) = Some (ET, rest).
Proof.
  intros Hi Hp. cbn [pexpr pprim]. simpl.
  destruct rest as [|c rest]; unfold strmatch; simpl in *; [done|].
  rewrite Hi. simpl. by rewrite Hp.
Qed.

(** One step of each parser on the input shapes the code produces. *)
Lemma pexpr_unfold f s : pexpr (S f) s = '(e, r) ← pprim f s; psum f e r.
Proof. reflexivity. Qed.

Lemma psum_plus f acc s :
  psum (S f) acc ("+" +:+ s) = '(e, r) ← pprim f s; psum f (EAdd acc e) r.
Proof. reflexivity. Qed.

Lemma pprim_between_unfold f r :
  pprim (S f) ("between(" +:+ r) =
  '(x, r1) ← pexpr f r; r1' ← expect "," r1;
  '(lo, r2) ← pexpr f r1'; r2' ← expect "," r2;
  '(hi, r3) ← pexpr f r2'; r4 ← expect ")" r3;
  Some (EBetween x lo hi, r4).
Proof. reflexivity. Qed.

Lemma pprim_not_unfold f r :
  pprim (S f) ("not(" +:+ r) =
  '(a, r1) ← pexpr f r; r2 ← expect ")" r1; Some (ENot a, r2).
Proof. reflexivity. Qed.

Arguments pexpr : simpl never.
Arguments pprim : simpl never.
Arguments psum : simpl never.

(** The [between] term the builders print for an interval, and its syntax. *)
Definition between_text (iv : Z * Z) : string :=
  "between(t," +:+ py_str_int iv.1 +:+ "," +:+ py_str_int iv.2 +:+ ")".

Definition between_ast (iv : Z * Z) : fexpr := EBetween ET (ENum iv.1) (ENum iv.2).

(** A character test that accepts every character of ["between(t,-0123456789)"]
    accepts every [between] term. *)
Lemma between_text_forall p iv :
  str_forall p "between(t,-0123456789)" = true → str_forall p (between_text iv) = true.
Proof.
  intros Hp. pose proof (proj1 (str_forall_has _ _) Hp) as H.
  assert (str_forall p (py_str_int iv.1) = true ∧ str_forall p (py_str_int iv.2) = true) as [H1 H2].
  { split; apply py_str_int_forall; [apply H; done| |apply H; done|];
      simpl; rewrite !H by done; done. }
  unfold between_text. rewrite !str_forall_app, H1, H2. simpl.
  rewrite !H by done. done.
Qed.

Lemma pprim_between f iv rest :
  pprim (S (S (S f))) (between_text iv +:+ rest) = Some (between_ast iv, rest).
Proof.
  unfold between_text. rewrite <- !str_app_assoc.
  change ("between(t," +:+ ?x) with ("between(" +:+ String "t" (String "," x)).
  rewrite pprim_between_unfold, pexpr_t by done. simpl.
  rewrite pexpr_int by done. simpl. rewrite str_app_nil_l.
  rewrite pexpr_int by done. simpl. done.
Qed.

(** The sum [b1+b2+...+bn] as eval.c builds it, left-nested. *)
Definition add_between (acc : fexpr) (iv : Z * Z) : fexpr := EAdd acc (between_ast iv).

Definition sum_ast (iv : Z * Z) (ivs : list (Z * Z)) : fexpr :=
  fold_left add_between ivs (between_ast iv).

Definition plus_texts (ivs : list (Z * Z)) : string :=
  foldr (λ iv r, "+" +:+ between_text iv +:+ r) "" ivs.

Lemma plus_texts_foldr ivs :
  plus_texts ivs = foldr (λ y r, "+" +:+ y +:+ r) "" (map between_text ivs).
Proof. induction ivs as [|iv ivs IH]; simpl; [done|]. by rewrite IH. Qed.

Lemma plus_texts_length ivs : (length ivs ≤ String.length (plus_texts ivs))%nat.
Proof.
  induction ivs as [|iv ivs IH]; simpl; [lia|].
  rewrite str_length_app. lia.
Qed.

Lemma psum_betweens f acc ivs rest :
  (length ivs + 3 ≤ f)%nat → plus_head rest = false →
  psum f acc (plus_texts ivs +:+ rest) = Some (fold_left add_between ivs acc, rest).
Proof.
  revert f acc. induction ivs as [|iv ivs IH]; intros f acc Hf Hr; simpl in *.
  - destruct f as [|f]; [lia|]. by apply psum_stop.
  - destruct f as [|[|[|[|f]]]]; try lia.
    rewrite <- !str_app_assoc, psum_plus, pprim_between. simpl.
    apply IH; [lia | done].
Qed.

Lemma pexpr_sum f iv ivs rest :
  (length ivs + 3 ≤ f)%nat → plus_head rest = false →
  pexpr (S f) (String.concat "+" (map between_text (iv :: ivs)) +:+ rest) =
  Some (sum_ast iv ivs, rest).
Proof.
  intros Hf Hr. rewrite fmap_cons, str_concat_cons, pexpr_unfold.
  destruct f as [|[|[|f]]]; try lia.
  rewrite <- str_app_assoc, pprim_between. simpl.
  replace (foldr _ "" (map between_text ivs)) with (plus_texts ivs).
  - by apply psum_betweens.
  - apply plus_texts_foldr.
Qed.

(** The [select] expression of the trim builder, for a non-empty
    table, parses to the negated left-nested sum of its [between] terms. *)
Lemma parse_ffexpr_not_sum iv ivs :
  parse_ffexpr ("not(" +:+ String.concat "+" (map between_text (iv :: ivs)) +:+ ")") =
  Some (ENot (sum_ast iv ivs)).
Proof.
  unfold parse_ffexpr.
  set (J := String.concat "+" (map between_text (iv :: ivs))).
  assert (length ivs ≤ String.length J)%nat.
  { unfold J. rewrite fmap_cons, str_concat_cons, str_length_app.
    replace (foldr _ "" (map between_text ivs)) with (plus_texts ivs).
    - pose proof (plus_texts_length ivs). lia.
    - apply plus_texts_foldr. }
  change (String.length ("not(" +:+ J +:+ ")")) with (4 + String.length (J +:+ ")"))%nat.
  rewrite str_length_app. simpl.
  rewrite pexpr_unfold, pprim_not_unfold. subst J. rewrite pexpr_sum; [| lia | done].
  by simpl.
Qed.

Lemma parse_ffexpr_between iv : parse_ffexpr (between_text iv) = Some (between_ast iv).
Proof.
  unfold parse_ffexpr. rewrite <- (str_app_nil_r (between_text iv)) at 2.
  unfold between_text at 1. rewrite str_length_app. simpl.
  rewrite pexpr_unfold, pprim_between. by simpl.
Qed.

Local Open Scope Q_scope.

(** The value of an expression at time [t]. *)
Fixpoint eval (e : fexpr) (t : Q) : Q :=
  match e with
  | ENum z => inject_Z z
  | ET => t
  | EBetween x lo hi =>
      let v := eval x t in
      if Qle_bool (eval lo t) v && Qle_bool v (eval hi t) then 1 else 0
  | EAdd a b => eval a t + eval b t
  | ENot a => if Qeq_bool (eval a t) 0 then 1 else 0
  end.

(** [select]: a frame at time [t] is kept when the expression is not 0. *)
Definition select_keeps (e : fexpr) (t : Q) : bool := negb (Qeq_bool (eval e t) 0).

(** [t] lies in the closed interval [[s, e]]. *)
Definition in_interval (t : Q) (iv : Z * Z) : bool :=
  Qle_bool (inject_Z iv.1) t && Qle_bool t (inject_Z iv.2).

Lemma eval_between_ast t iv : eval (between_ast iv) t = if in_interval t iv then 1 else 0.
Proof. reflexivity. Qed.

Lemma Qeq_bool_01 (b : bool) : Qeq_bool (if b then 1 else 0) 0 = negb b.
Proof. by destruct b. Qed.

Lemma eval_between_nonneg t iv : 0 <= eval (between_ast iv) t.
Proof. rewrite eval_between_ast. destruct (in_interval t iv); discriminate. Qed.

(** A sum of non-negative values is 0 exactly when both are. *)
Lemma Qeq_bool_add_nonneg a b :
  0 <= a → 0 <= b → Qeq_bool (a + b) 0 = Qeq_bool a 0 && Qeq_bool b 0.
Proof.
  intros Ha Hb. apply Bool.eq_iff_eq_true. rewrite andb_true_iff, !Qeq_bool_iff.
  split; [intros H; split; lra | intros [H1 H2]; lra].
Qed.

Lemma eval_sum_zero t ivs acc :
  0 <= eval acc t →
  0 <= eval (fold_left add_between ivs acc) t ∧
  Qeq_bool (eval (fold_left add_between ivs acc) t) 0 =
  Qeq_bool (eval acc t) 0 && forallb (λ iv, negb (in_interval t iv)) ivs.
Proof.
  revert acc. induction ivs as [|iv ivs IH]; intros acc Hacc; simpl.
  - by rewrite andb_true_r.
  - pose proof (eval_between_nonneg t iv) as Hb.
    assert (eval (add_between acc iv) t = eval acc t + eval (between_ast iv) t) as Ea
      by reflexivity.
    destruct (IH (add_between acc iv)) as [Hn ->]; [rewrite Ea; lra|].
    split; [done|]. rewrite Ea, Qeq_bool_add_nonneg, eval_between_ast, Qeq_bool_01 by done.
    by rewrite andb_assoc.
Qed.

(** The trim expression keeps [t] exactly when no interval contains it. *)
Lemma select_keeps_not_sum t iv ivs :
  select_keeps (ENot (sum_ast iv ivs)) t = negb (existsb (in_interval t) (iv :: ivs)).
Proof.
  unfold select_keeps. cbn [eval]. rewrite Qeq_bool_01, negb_involutive. unfold sum_ast.
  destruct (eval_sum_zero t ivs (between_ast iv)) as [_ ->]; [apply eval_between_nonneg|].
  rewrite eval_between_ast, Qeq_bool_01, forallb_negb_existsb. simpl.
  by rewrite negb_orb.
Qed.

Lemma select_keeps_between t iv : select_keeps (between_ast iv) t = in_interval t iv.
Proof. unfold select_keeps. rewrite eval_between_ast, Qeq_bool_01. apply negb_involutive. Qed.

End FFExpr.
