(* ===== verification/Drawtext.v ===== *)
(** The annotation builder of src/app.py, [draw_text_on_video]: for each
    row of the table, one ffmpeg [drawtext] filter that burns the row's
    text into the video while [t] is between the row's start and end in
    seconds; the filters are joined with [", "] and passed as the [-vf]
    argument of an ffmpeg command line. *)

From S2P Require Import Prelude PyStr Table FFGraph FFExpr.
From Stdlib Require Import Ascii QArith.

Module Drawtext.

Import PyInt Table FFGraph FFExpr.

(** The f-string of app.py line 33 for one row.  Python evaluates the
    replacement fields from left to right: [row['Text']], then the start
    total, then the end total; the first one that raises ends the call. *)
Definition drawtext_string (k : scalar_kind) (cols : list string) (row : list cell)
    : res string :=
  text ← series_get cols row col_text;
  st ← start_total k cols row;
  en ← end_total k cols row;
  mret ("drawtext=text='" +:+ fmt_cell text +:+
        "':fontcolor=yellow:fontsize=50:x=(w-text_w)/2:y=h-(text_h*2):box=1:boxcolor=black@0.5:enable='between(t,"
        +:+ fmt_cell st +:+ "," +:+ fmt_cell en +:+ ")'").

(** The loop of lines 31-33: [drawtext_strings], in row order. *)
Definition drawtext_strings (df : frame) : res (list string) :=
  for_rows (drawtext_string (row_kind df) (columns df)) (rows df) [].

(** Line 38: [joined_string = ', '.join(drawtext_strings)]. *)
Definition draw_text_joined (df : frame) : res string :=
  ss ← drawtext_strings df; mret (String.concat ", " ss).

(** Line 40: the shell command handed to [os.system]. *)
Definition draw_text_command (input output joined : string) : string :=
  "ffmpeg -i " +:+ input +:+ " -vf " +:+ dq +:+ joined +:+ dq +:+ " " +:+ output.

(** ** What the builder emits *)

(** The text and the interval of a row, when its totals are integers. *)
Definition row_annotation (k : scalar_kind) (cols : list string) (row : list cell)
    : option (string * (Z * Z)) :=
  match series_get cols row col_text with
  | Ok c => (λ iv, (fmt_cell c, iv)) <$> row_interval k cols row
  | Exc _ => None
  end.

Definition table_annotations (df : frame) : option (list (string * (Z * Z))) :=
  mapM (row_annotation (row_kind df) (columns df)) (rows df).

(** The constant options between the text and the enable window. *)
Definition drawtext_style : string :=
  ":fontcolor=yellow:fontsize=50:x=(w-text_w)/2:y=h-(text_h*2):box=1:boxcolor=black@0.5:enable=".

(** The filter of one row, as plain and quoted segments. *)
Definition drawtext_segs (a : string * (Z * Z)) : list seg :=
  [Plain "text="; Quoted a.1; Plain drawtext_style; Quoted (between_text a.2)].

(** The options ffmpeg's drawtext receives for one row. *)
Definition drawtext_opts (a : string * (Z * Z)) : list (string * string) :=
  [("text", a.1); ("fontcolor", "yellow"); ("fontsize", "50"); ("x", "(w-text_w)/2");
   ("y", "h-(text_h*2)"); ("box", "1"); ("boxcolor", "black@0.5"); ("enable", between_text a.2)].

(** A text survives both quoting levels intact: no [':'], backslash or
    single quote, and no white space at either end. *)
Definition safe_text (t : string) : bool := str_forall (ord_char opt_term) t && ws_free_edges t.

Lemma drawtext_string_annotation k cols row a :
  row_annotation k cols row = Some a →
  drawtext_string k cols row = Ok (filter_text ("drawtext", drawtext_segs a)).
Proof.
  unfold row_annotation, row_interval, drawtext_string.
  destruct (series_get cols row col_text) as [c|]; [|done].
  destruct (start_total k cols row) as [[s|]|], (end_total k cols row) as [[en|]|];
    intros; simplify_eq/=; try done.
  unfold filter_text, drawtext_segs, drawtext_style, between_text. simpl. str_norm. reflexivity.
Qed.

Lemma drawtext_strings_annotations df anns :
  table_annotations df = Some anns →
  drawtext_strings df = Ok (map (λ a, filter_text ("drawtext", drawtext_segs a)) anns).
Proof.
  intros H%mapM_Some_1. unfold drawtext_strings. apply for_rows_ok_iff.
  eexists; split; [|done]. apply Forall2_fmap_r. eapply Forall2_impl; [done|].
  intros. by apply drawtext_string_annotation.
Qed.

Lemma ws_free_edges_between iv : ws_free_edges (between_text iv) = true.
Proof.
  assert (between_text iv = String "b" (("etween(t," +:+ py_str_int iv.1 +:+ ","
            +:+ py_str_int iv.2) +:+ String ")" "")) as ->.
  { unfold between_text. rewrite <- !str_app_assoc. reflexivity. }
  by apply ws_free_edges_wrap.
Qed.

(** ffmpeg's option parser recovers the eight options of one filter. *)
Lemma parse_drawtext_filter a :
  safe_text a.1 = true →
  parse_filter ("drawtext", unquoted (drawtext_segs a)) = Some ("drawtext", drawtext_opts a).
Proof.
  destruct a as [t iv]. unfold safe_text. cbn [fst snd]. intros [Ht1 Ht2]%andb_prop.
  assert (unquoted (drawtext_segs (t, iv)) =
          kv_text ("text", t) +:+ opts_tail (tail (drawtext_opts (t, iv)))) as ->.
  { unfold drawtext_segs, drawtext_opts, drawtext_style, kv_text, opts_tail. simpl.
    str_norm. reflexivity. }
  assert (kv_ok ("text", t) = true) as Hk1.
  { unfold kv_ok. cbn [fst snd]. by rewrite Ht1, Ht2. }
  assert (kv_ok ("enable", between_text iv) = true) as Hk2.
  { unfold kv_ok. cbn [fst snd]. by rewrite between_text_forall, ws_free_edges_between. }
  unfold parse_filter. cbn [fst snd].
  rewrite parse_opts_kvs; [done| |].
  - cbn [forallb tail drawtext_opts fst snd]. rewrite Hk1, Hk2. reflexivity.
  - rewrite str_length_app. simpl. lia.
Qed.

Lemma filter_ok_drawtext a :
  str_forall no_quote a.1 = true → filter_ok ("drawtext", drawtext_segs a) = true.
Proof.
  intros Ht. unfold filter_ok, drawtext_segs. cbn [fst snd forallb seg_ok].
  rewrite Ht, (between_text_forall no_quote) by reflexivity. reflexivity.
Qed.

Lemma safe_text_no_quote t : safe_text t = true → str_forall no_quote t = true.
Proof.
  unfold safe_text. intros [Ht _]%andb_prop. apply str_forall_has. intros c Hc.
  pose proof (proj1 (str_forall_has _ _) Ht c Hc) as Hord.
  apply ord_char_inv in Hord as (_ & _ & Hq). unfold no_quote. by rewrite Hq.
Qed.

Lemma mapM_parse_drawtext l :
  Forall (λ a, safe_text a.1 = true) l →
  mapM parse_filter (map (λ nf, (nf.1, unquoted nf.2)) (map (λ a, ("drawtext", drawtext_segs a)) l)) =
  Some (map (λ a, ("drawtext", drawtext_opts a)) l).
Proof.
  induction 1 as [|a l Ha Hl IH]; [done|]. cbn [map].
  change (mapM parse_filter (?x :: ?l))
    with (y ← parse_filter x; k ← mapM parse_filter l; mret (y :: k)).
  cbn [fst snd]. rewrite parse_drawtext_filter, IH by done. done.
Qed.

Lemma forallb_Forall {A} (p : A → bool) l : forallb p l = true → Forall (λ x, p x = true) l.
Proof. intros H. apply List.Forall_forall. by apply List.forallb_forall. Qed.

(** C3: for a table whose rows all have integer totals and texts without
    [':'], backslash, single quote or surrounding white space,
    [draw_text_on_video] builds one filtergraph that ffmpeg splits into
    exactly one [drawtext] filter per row, in table order, each with the
    row's text, the fixed style options, and the enable window
    [between(t,start,end)] of the row. *)
Theorem draw_text_filters df anns :
  table_annotations df = Some anns → anns ≠ [] → forallb (λ a, safe_text a.1) anns = true →
  ∃ J, draw_text_joined df = Ok J ∧
       parse_filtergraph J = Some (map (λ a, ("drawtext", drawtext_opts a)) anns).
Proof.
  intros Ha Hne Hs%forallb_Forall. unfold draw_text_joined.
  rewrite (drawtext_strings_annotations df anns Ha).
  eexists; split; [reflexivity|].
  replace (map (λ a, filter_text ("drawtext", drawtext_segs a)) anns)
    with (map filter_text (map (λ a, ("drawtext", drawtext_segs a)) anns))
    by (by rewrite map_map).
  destruct anns as [|a anns']; [done|].
  unfold parse_filtergraph, parse_graph.
  change ", " with ("," +:+ " ").
  rewrite (map_cons (λ a0, ("drawtext", drawtext_segs a0))).
  rewrite parse_chain_join; [|done| |].
  - change (Some ?x ≫= ?f) with (f x). cbv beta.
    rewrite <- (map_cons (λ a0, ("drawtext", drawtext_segs a0)) a anns').
    by apply mapM_parse_drawtext.
  - rewrite <- (map_cons (λ a0, ("drawtext", drawtext_segs a0)) a anns').
    apply List.forallb_forall. intros nf (b & <- & Hb)%in_map_iff. apply filter_ok_drawtext.
    apply safe_text_no_quote. eapply List.Forall_forall in Hs; [done|]. done.
  - rewrite <- (map_cons (λ a0, ("drawtext", drawtext_segs a0)) a anns').
    pose proof (str_concat_length ("," +:+ " ")
      (map filter_text (map (λ a, ("drawtext", drawtext_segs a)) (a :: anns')))) as Hl.
    rewrite !length_map in Hl. cbn [length] in Hl. rewrite length_map.
    enough (S (length anns') ≤ String.length (String.concat ("," +:+ " ")
      (map filter_text (map (λ a, ("drawtext", drawtext_segs a)) (a :: anns')))))%nat by lia.
    apply Hl, List.Forall_forall. intros x (nf & <- & (b & <- & _)%in_map_iff)%in_map_iff.
    by intros ?.
Qed.

Lemma draw_text_filters_witness :
  table_annotations get_default_annotation_data = Some [("Sample text", (5, 10)%Z)] ∧
  [("Sample text", (5, 10)%Z)] ≠ [] ∧
  forallb (λ a, safe_text a.1) [("Sample text", (5, 10)%Z)] = true ∧
  ∃ J, draw_text_joined get_default_annotation_data = Ok J ∧
       parse_filtergraph J =
         Some (map (λ a, ("drawtext", drawtext_opts a)) [("Sample text", (5, 10)%Z)]).
Proof.
  split; [reflexivity|]. split; [done|]. split; [reflexivity|].
  apply draw_text_filters; [reflexivity|done|reflexivity].
Defined.

(** C11: the filter built for one row is enabled exactly during the row's
    window: its [enable] option is an expression ffmpeg parses, and it is
    non-zero at time [t] exactly when [start <= t <= end]. *)
Theorem drawtext_enable_window k cols row a :
  row_annotation k cols row = Some a → safe_text a.1 = true →
  ∃ s e, drawtext_string k cols row = Ok s ∧
         parse_filtergraph s = Some [("drawtext", drawtext_opts a)] ∧
         parse_ffexpr (between_text a.2) = Some e ∧
         ∀ t, select_keeps e t = in_interval t a.2.
Proof.
  intros Ha Hs. exists (filter_text ("drawtext", drawtext_segs a)), (between_ast a.2).
  split; [by apply drawtext_string_annotation|].
  split; [|split; [apply parse_ffexpr_between|intros t; apply select_keeps_between]].
  unfold parse_filtergraph, parse_graph.
  change (filter_text ("drawtext", drawtext_segs a))
    with (String.concat ("," +:+ " ") (map filter_text [("drawtext", drawtext_segs a)])).
  rewrite parse_chain_join; [|done| |simpl; lia].
  - change (Some ?x ≫= ?f) with (f x). cbv beta.
    apply (mapM_parse_drawtext [a]). by constructor.
  - cbn [forallb]. rewrite filter_ok_drawtext; [done|]. by apply safe_text_no_quote.
Qed.

Lemma drawtext_enable_window_witness :
  row_annotation NpInt64 (columns get_default_annotation_data)
    [CStr "Sample text"; CInt 0; CInt 5; CInt 0; CInt 10] = Some ("Sample text", (5, 10)%Z) ∧
  safe_text "Sample text" = true ∧
  ∃ s e, drawtext_string NpInt64 (columns get_default_annotation_data)
           [CStr "Sample text"; CInt 0; CInt 5; CInt 0; CInt 10] = Ok s ∧
         parse_filtergraph s = Some [("drawtext", drawtext_opts ("Sample text", (5, 10)%Z))] ∧
         parse_ffexpr (between_text (5, 10)%Z) = Some e ∧
         ∀ t, select_keeps e t = in_interval t (5, 10)%Z.
Proof.
  split; [reflexivity|]. split; [reflexivity|].
  apply (drawtext_enable_window NpInt64 _ _ ("Sample text", (5, 10)%Z)); reflexivity.
Defined.

(** The builder loop raises [KeyError('Text')] on the first row of a
    table without that column. *)
Lemma drawtext_strings_missing_text df r rs :
  col_text ∉ columns df → rows df = r :: rs → drawtext_strings df = Exc (KeyError col_text).
Proof.
  intros Hc Hr. unfold drawtext_strings. rewrite Hr.
  rewrite (for_rows_exc _ [] r rs [] (KeyError col_text)); [done|constructor|].
  unfold drawtext_string. by rewrite series_get_missing.
Qed.

(** C14: a table without a ['Text'] column (a trimming table, or a CSV
    with other labels) makes [draw_text_on_video] raise [KeyError('Text')]
    on its first row, before the output file is touched. *)
Theorem draw_text_missing_text df r rs :
  col_text ∉ columns df → rows df = r :: rs →
  draw_text_joined df = Exc (KeyError col_text).
Proof. intros Hc Hr. unfold draw_text_joined. by rewrite (drawtext_strings_missing_text df r rs). Qed.

Lemma draw_text_missing_text_witness :
  rows get_default_trimming_data = [[CInt 0; CInt 5; CInt 0; CInt 10]]%list ∧
  rows get_default_trimming_data = [[CInt 0; CInt 5; CInt 0; CInt 10]] ∧
  draw_text_joined get_default_trimming_data = Exc (KeyError col_text).
Proof.
  assert (col_text ∉ columns get_default_trimming_data) as Hc.
  { apply (bool_decide_unpack _). by vm_compute. }
  split; [done|]. split; [reflexivity|].
  by apply (draw_text_missing_text _ [CInt 0; CInt 5; CInt 0; CInt 10] []).
Defined.

End Drawtext.
