(* ===== verification/Trim.v ===== *)
(** The trim builder of src/app.py, [trim_video]: for each row of the
    table, one [between(t,start,end)] term; the terms are joined with ["+"]
    and the sum is negated with [not(...)], so that the [select] video
    filter and the [aselect] audio filter keep exactly the frames and
    samples outside every listed range, and [setpts]/[asetpts] renumber
    what is kept. *)

From S2P Require Import Prelude PyStr Table FFGraph FFExpr.
From Stdlib Require Import Ascii QArith.

Module Trim.

Import PyInt Table FFGraph FFExpr.

(** The f-string of app.py line 47 for one row. *)
Definition between_string (k : scalar_kind) (cols : list string) (row : list cell)
    : res string :=
  st ← start_total k cols row;
  en ← end_total k cols row;
  mret ("between(t," +:+ fmt_cell st +:+ "," +:+ fmt_cell en +:+ ")").

(** The loop of lines 45-47. *)
Definition between_strings (df : frame) : res (list string) :=
  for_rows (between_string (row_kind df) (columns df)) (rows df) [].

(** Line 52: [joined_string = '+'.join(between_strings)]. *)
Definition trim_joined (df : frame) : res string :=
  ss ← between_strings df; mret (String.concat "+" ss).

(** The video filter graph of line 54. *)
Definition trim_vf (joined : string) : string :=
  "select='not(" +:+ joined +:+ ")',setpts=N/FRAME_RATE/TB".

(** The audio filter graph of line 54. *)
Definition trim_af (joined : string) : string :=
  "aselect='not(" +:+ joined +:+ ")',asetpts=N/SR/TB".

(** Line 54: the shell command handed to [os.system]. *)
Definition trim_command (input output joined : string) : string :=
  "ffmpeg -i " +:+ input +:+ " -vf " +:+ dq +:+ trim_vf joined +:+ dq +:+
  " -af " +:+ dq +:+ trim_af joined +:+ dq +:+ " " +:+ output.

(** ** What the builder emits *)

Lemma between_string_interval k cols row iv :
  row_interval k cols row = Some iv → between_string k cols row = Ok (between_text iv).
Proof.
  unfold row_interval, between_string.
  destruct (start_total k cols row) as [[s|]|], (end_total k cols row) as [[en|]|];
    intros; simplify_eq; done.
Qed.

Lemma trim_joined_intervals df ivs :
  table_intervals df = Some ivs → trim_joined df = Ok (String.concat "+" (map between_text ivs)).
Proof.
  intros H%mapM_Some_1. unfold trim_joined, between_strings.
  assert (for_rows (between_string (row_kind df) (columns df)) (rows df) [] =
          Ok (map between_text ivs)) as ->; [|done].
  apply for_rows_ok_iff. exists (map between_text ivs). split; [|done].
  apply Forall2_fmap_r. eapply Forall2_impl; [done|]. intros. by apply between_string_interval.
Qed.

Lemma joined_forall p ivs :
  str_forall p "between(t,-0123456789)+" = true →
  str_forall p (String.concat "+" (map between_text ivs)) = true.
Proof.
  change "between(t,-0123456789)+" with ("between(t,-0123456789)" +:+ "+").
  rewrite str_forall_app. intros [Hb Hp]%andb_prop.
  apply str_forall_concat; [done|]. apply Forall_fmap, Forall_forall. intros iv _.
  by apply between_text_forall.
Qed.

(** The graph [sel='not(J)',pts=E] of line 54, for [sel] one of [select],
    [aselect] and [pts=E] one of the two renumbering filters. *)
Lemma select_graph_parse sel pts e J :
  filter_shorthand sel = ["expr"; "outputs"] →
  filter_ok (sel, [Quoted ("not(" +:+ J +:+ ")")]) = true →
  filter_ok (pts, [Plain e]) = true →
  parse_filter (pts, e +:+ "") = Some (pts, [("expr", e)]) →
  str_forall (ord_char opt_term) J = true →
  parse_filtergraph (sel +:+ "='not(" +:+ J +:+ ")'," +:+ pts +:+ "=" +:+ e) =
  Some [(sel, [("expr", "not(" +:+ J +:+ ")")]); (pts, [("expr", e)])].
Proof.
  intros Hsh Hsel Hpts Hpf HJ.
  assert (sel +:+ "='not(" +:+ J +:+ ")'," +:+ pts +:+ "=" +:+ e =
          String.concat ("," +:+ "") (map filter_text
            [(sel, [Quoted ("not(" +:+ J +:+ ")")]); (pts, [Plain e])])) as ->.
  { unfold filter_text. simpl. str_norm. reflexivity. }
  unfold parse_filtergraph, parse_graph.
  set (a := (sel, [Quoted ("not(" +:+ J +:+ ")")])). set (b := (pts, [Plain e])).
  assert (String.length (String.concat ("," +:+ "") (map filter_text [a; b])) =
          String.length (filter_text a) + 1 + String.length (filter_text b))%nat as Hlen.
  { change (String.concat _ (map filter_text [a; b]))
      with (filter_text a +:+ ("," +:+ "") +:+ filter_text b).
    rewrite !str_length_app. simpl. lia. }
  rewrite parse_chain_join; [|done| cbn [forallb]; unfold a, b; by rewrite Hsel, Hpts | rewrite Hlen; simpl; lia].
  subst a b.
  simpl. rewrite Hpf. unfold parse_filter. simpl. rewrite Hsh, str_app_nil_r.
  change (String.length ("not(" +:+ J +:+ ")")) with (S (String.length ("ot(" +:+ J +:+ ")"))).
  rewrite <- (str_app_nil_r ("not(" +:+ J +:+ ")")) at 2.
  rewrite parse_opts_positional; [|reflexivity|by intros ?|..].
  { cbn [skip_sep].
    change (String.length ("ot(" +:+ J +:+ ")")) with (S (String.length ("t(" +:+ J +:+ ")"))).
    rewrite parse_opts_nil. simpl. by rewrite str_app_nil_r. }
  - by rewrite !str_forall_app, HJ.
  - rewrite str_app_assoc. change ("not(" +:+ J) with (String "n"%char ("ot(" +:+ J)).
    by apply ws_free_edges_wrap.
  - done.
Qed.

Lemma filter_ok_not_sum name ivs :
  bool_decide (name ≠ "") && str_forall (ord_char name_term) name && ws_free_edges name = true →
  filter_ok (name, [Quoted ("not(" +:+ String.concat "+" (map between_text ivs) +:+ ")")]) = true.
Proof.
  intros Hn. unfold filter_ok. cbn [fst snd]. rewrite Hn. simpl.
  rewrite !str_forall_app, (joined_forall no_quote) by reflexivity. done.
Qed.

(** The video filter graph of line 54, as ffmpeg splits it: a [select]
    filter whose expression is [not(J)], then [setpts]. *)
Lemma trim_vf_graph ivs :
  let J := String.concat "+" (map between_text ivs) in
  parse_filtergraph (trim_vf J) =
  Some [("select", [("expr", "not(" +:+ J +:+ ")")]); ("setpts", [("expr", "N/FRAME_RATE/TB")])].
Proof.
  intros J.
  assert (trim_vf J = "select" +:+ "='not(" +:+ J +:+ ")'," +:+ "setpts" +:+ "=" +:+ "N/FRAME_RATE/TB") as ->
    by reflexivity.
  apply (select_graph_parse "select" "setpts" "N/FRAME_RATE/TB" J);
    [reflexivity | by apply filter_ok_not_sum | reflexivity | reflexivity |].
  by apply joined_forall.
Qed.

(** The audio filter graph of line 54: [aselect] with the same expression,
    then [asetpts]. *)
Lemma trim_af_graph ivs :
  let J := String.concat "+" (map between_text ivs) in
  parse_filtergraph (trim_af J) =
  Some [("aselect", [("expr", "not(" +:+ J +:+ ")")]); ("asetpts", [("expr", "N/SR/TB")])].
Proof.
  intros J.
  assert (trim_af J = "aselect" +:+ "='not(" +:+ J +:+ ")'," +:+ "asetpts" +:+ "=" +:+ "N/SR/TB") as ->
    by reflexivity.
  apply (select_graph_parse "aselect" "asetpts" "N/SR/TB" J);
    [reflexivity | by apply filter_ok_not_sum | reflexivity | reflexivity |].
  by apply joined_forall.
Qed.

(** ** The trim builder removes exactly the listed intervals *)

(** C1: for a table whose rows all have integer start and end totals, the
    [select] expression that [trim_video] passes to ffmpeg is a single
    filter expression [not(J)] that ffmpeg parses, and it keeps a frame at
    time [t] exactly when [t] lies in none of the rows' closed intervals
    [[start, end]]: the table lists what is removed, not what is kept. *)
Theorem trim_video_select_refines df ivs J :
  table_intervals df = Some ivs → ivs ≠ [] → trim_joined df = Ok J →
  parse_filtergraph (trim_vf J) =
    Some [("select", [("expr", "not(" +:+ J +:+ ")")]); ("setpts", [("expr", "N/FRAME_RATE/TB")])] ∧
  ∃ e, parse_ffexpr ("not(" +:+ J +:+ ")") = Some e ∧
       ∀ t, select_keeps e t = negb (existsb (in_interval t) ivs).
Proof.
  intros Hiv Hne HJ. rewrite (trim_joined_intervals df ivs Hiv) in HJ. injection HJ as <-.
  split; [apply trim_vf_graph|].
  destruct ivs as [|iv ivs]; [done|].
  exists (ENot (sum_ast iv ivs)). split; [apply parse_ffexpr_not_sum|].
  intros t. apply select_keeps_not_sum.
Qed.

Lemma trim_video_select_refines_witness :
  table_intervals get_default_trimming_data = Some [(5, 10)%Z] ∧
  [(5, 10)%Z] ≠ [] ∧
  trim_joined get_default_trimming_data = Ok "between(t,5,10)" ∧
  (parse_filtergraph (trim_vf "between(t,5,10)") =
     Some [("select", [("expr", "not(" +:+ "between(t,5,10)" +:+ ")")]);
           ("setpts", [("expr", "N/FRAME_RATE/TB")])] ∧
   ∃ e, parse_ffexpr ("not(" +:+ "between(t,5,10)" +:+ ")") = Some e ∧
        ∀ t, select_keeps e t = negb (existsb (in_interval t) [(5, 10)%Z])).
Proof.
  split; [reflexivity|]. split; [done|]. split; [reflexivity|].
  apply (trim_video_select_refines get_default_trimming_data); [reflexivity|done|reflexivity].
Defined.

(** C2: the same holds of the audio expression given to [aselect]: samples
    are kept exactly outside the listed intervals. *)
Theorem trim_video_aselect_refines df ivs J :
  table_intervals df = Some ivs → ivs ≠ [] → trim_joined df = Ok J →
  parse_filtergraph (trim_af J) =
    Some [("aselect", [("expr", "not(" +:+ J +:+ ")")]); ("asetpts", [("expr", "N/SR/TB")])] ∧
  ∃ e, parse_ffexpr ("not(" +:+ J +:+ ")") = Some e ∧
       ∀ t, select_keeps e t = negb (existsb (in_interval t) ivs).
Proof.
  intros Hiv Hne HJ. rewrite (trim_joined_intervals df ivs Hiv) in HJ. injection HJ as <-.
  split; [apply trim_af_graph|].
  destruct ivs as [|iv ivs]; [done|].
  exists (ENot (sum_ast iv ivs)). split; [apply parse_ffexpr_not_sum|].
  intros t. apply select_keeps_not_sum.
Qed.

Lemma trim_video_aselect_refines_witness :
  table_intervals get_default_trimming_data = Some [(5, 10)%Z] ∧
  [(5, 10)%Z] ≠ [] ∧
  trim_joined get_default_trimming_data = Ok "between(t,5,10)" ∧
  (parse_filtergraph (trim_af "between(t,5,10)") =
     Some [("aselect", [("expr", "not(" +:+ "between(t,5,10)" +:+ ")")]);
           ("asetpts", [("expr", "N/SR/TB")])] ∧
   ∃ e, parse_ffexpr ("not(" +:+ "between(t,5,10)" +:+ ")") = Some e ∧
        ∀ t, select_keeps e t = negb (existsb (in_interval t) [(5, 10)%Z])).
Proof.
  split; [reflexivity|]. split; [done|]. split; [reflexivity|].
  apply (trim_video_aselect_refines get_default_trimming_data); [reflexivity|done|reflexivity].
Defined.

(** ** Tables the builder mishandles *)

(** C15: a table without a ['Start time (min)'] column makes [trim_video]
    raise [KeyError] on its first row, before the output file is touched. *)
Theorem trim_missing_start_column df r rs :
  col_start_min ∉ columns df → rows df = r :: rs →
  trim_joined df = Exc (KeyError col_start_min).
Proof.
  intros Hc Hr. unfold trim_joined, between_strings. rewrite Hr.
  rewrite (for_rows_exc _ [] r rs [] (KeyError col_start_min)); [done|constructor|].
  unfold between_string, start_total, row_total. by rewrite (series_get_missing _ _ col_start_min).
Qed.

Lemma trim_missing_start_column_witness :
  (col_start_min ∉ [col_text]) ∧
  rows {| columns := [col_text]; rows := [[CStr "x"]] |} = [[CStr "x"]]%list ∧
  trim_joined {| columns := [col_text]; rows := [[CStr "x"]] |} = Exc (KeyError col_start_min).
Proof.
  assert (col_start_min ∉ [col_text]) as Hc by (apply (bool_decide_unpack _); by vm_compute).
  split; [done|]. split; [reflexivity|].
  by apply (trim_missing_start_column _ [CStr "x"] []).
Defined.

(** ** Totals in int64 and in Python objects *)

(** The interval numpy computes for a row of the trimming table, whose
    four columns are int64: both totals wrapped at 64 bits. *)
Definition int64_interval (r : list cell) : option (Z * Z) :=
  match r with
  | [CInt m1; CInt s1; CInt m2; CInt s2] => Some (np_wrap64 (m1 * 60 + s1), np_wrap64 (m2 * 60 + s2))
  | _ => None
  end.

Lemma row_interval_int64 r iv :
  int64_interval r = Some iv → row_interval NpInt64 (columns get_default_trimming_data) r = Some iv.
Proof.
  destruct r as [|[m1|] [|[s1|] [|[m2|] [|[s2|] []]]]]; intros Hr; try discriminate.
  injection Hr as <-. unfold row_interval, start_total, end_total.
  rewrite (row_total_np _ _ _ _ m1 s1), (row_total_np _ _ _ _ m2 s2) by reflexivity. done.
Qed.

(** A numpy total is the exact one exactly when the exact one fits. *)
Lemma np_wrap64_id_iff z : np_wrap64 z = z ↔ in_int64 z = true.
Proof. split; [intros <-; apply np_wrap64_in_int64|apply np_wrap64_id]. Qed.

Lemma int64_interval_exact r iv :
  int64_interval r = Some iv →
  ∀ m1 s1 m2 s2, r = [CInt m1; CInt s1; CInt m2; CInt s2] →
    (iv.1 = m1 * 60 + s1 ↔ in_int64 (m1 * 60 + s1) = true)%Z ∧
    (iv.2 = m2 * 60 + s2 ↔ in_int64 (m2 * 60 + s2) = true)%Z.
Proof. intros Hr m1 s1 m2 s2 ->. injection Hr as <-. split; apply np_wrap64_id_iff. Qed.

(** C16: for a trimming table whose cells are all int64, [trim_video]
    removes the intervals numpy computes, not the exact ones: each bound
    is [m * 60 + s] when that total fits in int64, and the total wrapped
    at 64 bits otherwise (so [153722867280912931] min [5] s is emitted as
    the start [-9223372036854775751]). *)
Theorem trim_int64_totals_wrap df ivs :
  frame_all_int64 df = true → columns df = columns get_default_trimming_data →
  mapM int64_interval (rows df) = Some ivs →
  trim_joined df = Ok (String.concat "+" (map between_text ivs)) ∧
  Forall2 (λ r iv, ∀ m1 s1 m2 s2, r = [CInt m1; CInt s1; CInt m2; CInt s2] →
             (iv.1 = m1 * 60 + s1 ↔ in_int64 (m1 * 60 + s1) = true)%Z ∧
             (iv.2 = m2 * 60 + s2 ↔ in_int64 (m2 * 60 + s2) = true)%Z) (rows df) ivs.
Proof.
  intros Hk Hc Hm%mapM_Some_1. split.
  - apply trim_joined_intervals. unfold table_intervals, row_kind. rewrite Hk, Hc.
    apply mapM_Some_2. eapply Forall2_impl; [done|]. intros. by apply row_interval_int64.
  - eapply Forall2_impl; [done|]. intros r iv Hr. by apply int64_interval_exact.
Qed.

Lemma trim_int64_totals_wrap_witness :
  let df := {| columns := columns get_default_trimming_data;
               rows := [[CInt 153722867280912931; CInt 5; CInt 0; CInt 10]] |} in
  frame_all_int64 df = true ∧ columns df = columns get_default_trimming_data ∧
  mapM int64_interval (rows df) = Some [(-9223372036854775751, 10)%Z] ∧
  trim_joined df = Ok (String.concat "+" (map between_text [(-9223372036854775751, 10)%Z])) ∧
  Forall2 (λ r iv, ∀ m1 s1 m2 s2, r = [CInt m1; CInt s1; CInt m2; CInt s2] →
             (iv.1 = m1 * 60 + s1 ↔ in_int64 (m1 * 60 + s1) = true)%Z ∧
             (iv.2 = m2 * 60 + s2 ↔ in_int64 (m2 * 60 + s2) = true)%Z)
    (rows df) [(-9223372036854775751, 10)%Z].
Proof.
  intros df. assert (mapM int64_interval (rows df) = Some [(-9223372036854775751, 10)%Z]) as Hm
    by reflexivity.
  split; [reflexivity|]. split; [reflexivity|]. split; [exact Hm|].
  apply trim_int64_totals_wrap; [reflexivity|reflexivity|exact Hm].
Defined.

(** C17: a time cell holding text (a CSV column read as strings) is not
    rejected: in a row whose minute and second cells are the strings [a]
    and [b], [row[min] * 60 + row[sec]] is [a] repeated sixty times
    followed by [b], and that text is emitted as the start of the interval
    (["1"] and ["5"] give a 61-digit number of seconds). *)
Theorem trim_text_time_cells df a b m s :
  columns df = columns get_default_trimming_data → rows df = [[CStr a; CStr b; CInt m; CInt s]] →
  trim_joined df =
  Ok ("between(t," +:+ (str_repeat a 60 +:+ b) +:+ "," +:+ py_str_int (m * 60 + s) +:+ ")").
Proof.
  intros Hc Hr. unfold trim_joined, between_strings, row_kind, frame_all_int64.
  rewrite Hc, Hr. reflexivity.
Qed.

Lemma trim_text_time_cells_witness :
  let df := {| columns := columns get_default_trimming_data;
               rows := [[CStr "1"; CStr "5"; CInt 0; CInt 10]] |} in
  columns df = columns get_default_trimming_data ∧ rows df = [[CStr "1"; CStr "5"; CInt 0; CInt 10]] ∧
  trim_joined df =
  Ok ("between(t," +:+ (str_repeat "1" 60 +:+ "5") +:+ "," +:+ py_str_int (0 * 60 + 10) +:+ ")").
Proof. intros df. split; [reflexivity|]. split; [reflexivity|]. by apply trim_text_time_cells. Defined.

End Trim.
