(* ===== verification/Shell.v ===== *)
(** How [/bin/sh] splits the command strings src/app.py passes to
    [os.system] into the argument vector of ffmpeg.  This is the shell's
    behaviour (POSIX word splitting and quote removal), modelled for the
    subset these commands use: blanks separate words, a double-quoted
    section is part of the current word with its quotes removed.  Any other
    shell syntax (single quotes, backslashes, [$], backquotes, globbing,
    redirections, [;], [&], [|], comments) is outside the model:
    [sh_words] returns [None] on it rather than guess. *)

From S2P Require Import Prelude.
From Stdlib Require Import Ascii.

Module Shell.


Definition sh_blank (c : ascii) : bool := Ascii.eqb c " " || Ascii.eqb c "009".

(** Characters with a meaning to the shell outside double quotes. *)
Definition sh_special (c : ascii) : bool :=
  existsb (Ascii.eqb c)
    ["|"; "&"; ";"; "<"; ">"; "("; ")"; "$"; "`"; "\"; "'"; "*"; "?"; "["; "#"; "~"; "010"]%char.

(** Characters with a meaning inside double quotes. *)
Definition dq_special (c : ascii) : bool :=
  existsb (Ascii.eqb c) ["$"; "`"; "\"]%char.

Definition finish (cur : option (list ascii)) (acc : list string) : list string :=
  match cur with Some w => acc ++ [String.string_of_list_ascii (rev w)] | None => acc end.

(** [inq]: inside double quotes; [cur]: the word being read (last
    character first), if one has started; [acc]: the finished words. *)
Fixpoint sh_go (s : string) (inq : bool) (cur : option (list ascii)) (acc : list string)
    : option (list string) :=
  match s with
  | "" => if inq then None else Some (finish cur acc)
  | String c s' =>
      if inq then
        if Ascii.eqb c "034" then sh_go s' false (Some (default [] cur)) acc
        else if dq_special c then None
        else sh_go s' true (Some (c :: default [] cur)) acc
      else if sh_blank c then sh_go s' false None (finish cur acc)
      else if Ascii.eqb c "034" then sh_go s' true (Some (default [] cur)) acc
      else if sh_special c then None
      else sh_go s' false (Some (c :: default [] cur)) acc
  end.

(** The argument vector of a command line. *)
Definition sh_words (s : string) : option (list string) := sh_go s false None [].

(** A word that needs no quoting. *)
Definition plain_char (c : ascii) : bool :=
  negb (sh_blank c) && negb (Ascii.eqb c "034") && negb (sh_special c).

Definition plain_word (w : string) : bool := bool_decide (w ≠ "") && str_forall plain_char w.

(** Text that can stand between double quotes unchanged. *)
Definition dq_char (c : ascii) : bool := negb (Ascii.eqb c "034") && negb (dq_special c).

Lemma sh_go_plain w s cur acc :
  str_forall plain_char w = true →
  sh_go (w +:+ s) false cur acc =
  sh_go s false (if decide (w = "") then cur
                 else Some (rev (String.list_ascii_of_string w) ++ default [] cur)) acc.
Proof.
  revert cur. induction w as [|c w IH]; intros cur Hw; [done|].
  simpl in Hw. apply andb_prop in Hw as [Hc Hw]. unfold plain_char in Hc.
  apply andb_prop in Hc as [Hc Hs]. apply andb_prop in Hc as [Hb Hq].
  rewrite str_app_cons. simpl.
  destruct (sh_blank c), (Ascii.eqb c "034"), (sh_special c); try discriminate.
  rewrite IH by done. simpl. destruct (decide (w = "")) as [->|]; [done|].
  by rewrite <- app_assoc.
Qed.

Lemma sh_go_dq w s cur acc :
  str_forall dq_char w = true →
  sh_go (w +:+ String "034" s) true cur acc =
  sh_go s false (Some (rev (String.list_ascii_of_string w) ++ default [] cur)) acc.
Proof.
  revert cur. induction w as [|c w IH]; intros cur Hw; [done|].
  simpl in Hw. apply andb_prop in Hw as [Hc Hw]. unfold dq_char in Hc.
  apply andb_prop in Hc as [Hq Hd].
  rewrite str_app_cons. simpl.
  destruct (Ascii.eqb c "034"), (dq_special c); try discriminate.
  rewrite IH by done. simpl. by rewrite <- app_assoc.
Qed.

Lemma string_of_rev_rev w :
  String.string_of_list_ascii (rev (rev (String.list_ascii_of_string w))) = w.
Proof. by rewrite rev_involutive, String.string_of_list_ascii_of_string. Qed.

(** A plain word followed by a blank is one word of the argument vector. *)
Lemma sh_go_word w s acc :
  plain_word w = true →
  sh_go (w +:+ String " " s) false None acc = sh_go s false None (acc ++ [w]).
Proof.
  intros [Hne Hw]%andb_prop. apply bool_decide_eq_true in Hne.
  rewrite sh_go_plain by done. destruct (decide (w = "")); [done|].
  simpl. by rewrite app_nil_r, string_of_rev_rev.
Qed.

Lemma sh_go_last w acc :
  plain_word w = true → sh_go w false None acc = Some (acc ++ [w]).
Proof.
  intros [Hne Hw]%andb_prop. apply bool_decide_eq_true in Hne.
  rewrite <- (str_app_nil_r w) at 1. rewrite sh_go_plain by done.
  destruct (decide (w = "")); [done|].
  simpl. by rewrite app_nil_r, string_of_rev_rev.
Qed.

(** The rest of a double-quoted section, closed and followed by a blank, is
    one word, quotes removed. *)
Lemma sh_go_quoted J s acc :
  str_forall dq_char J = true →
  sh_go (J +:+ String "034" (String " " s)) true (Some []) acc = sh_go s false None (acc ++ [J]).
Proof.
  intros HJ. rewrite sh_go_dq by done.
  simpl. by rewrite app_nil_r, string_of_rev_rev.
Qed.

End Shell.
