(* ===== verification/PyReplace.v ===== *)
(** Python's [str.replace], which the GIF export of src/app.py applies to
    the output name (line 163), as a left-to-right scan ([replace_go]), and
    the facts the GIF export relies on: a name without the pattern is left
    unchanged, and [base.mp4] becomes [base.gif] when [base] has no
    [.mp4]. *)

From S2P Require Import Prelude.
From Stdlib Require Import Ascii.

Module PyReplace.

(** ** Python's [str.replace] *)

(** [s.replace(old, new)] for a non-empty [old] (the script's only use is
    [.replace('.mp4', '.gif')]): every occurrence, left to right, without
    overlaps.  [skip] counts the characters of a replaced occurrence still
    to pass over. *)
Fixpoint replace_go (old new s : string) (skip : nat) : string :=
  match s with
  | "" => ""
  | String c s' =>
      match skip with
      | S k => replace_go old new s' k
      | O => if String.prefix old s then new +:+ replace_go old new s' (String.length old - 1)
             else String c (replace_go old new s' 0)
      end
  end.

Definition py_replace (s old new : string) : string := replace_go old new s 0.

(** Whether [old] occurs in [s] ([old in s]). *)
Fixpoint occurs (old s : string) : bool :=
  String.prefix old s || match s with "" => false | String _ s' => occurs old s' end.

(** ** [str.replace] on the output name *)

Lemma replace_go_step old new c s :
  replace_go old new (String c s) 0 =
  if String.prefix old (String c s) then new +:+ replace_go old new s (String.length old - 1)
  else String c (replace_go old new s 0).
Proof. reflexivity. Qed.

Lemma replace_go_no_occurrence old new s :
  occurs old s = false → replace_go old new s 0 = s.
Proof.
  induction s as [|c s IH]; [done|]. simpl. intros [Hp Ho]%orb_false_iff.
  rewrite Hp. by rewrite IH.
Qed.

Lemma prefix_mp4_shift c b :
  String.prefix ".mp4" (String c b) = false →
  String.prefix ".mp4" (String c (b +:+ ".mp4")) = false.
Proof.
  destruct b as [|d [|e [|f b]]]; rewrite ?str_app_cons, ?str_app_nil_l;
    with_strategy opaque [ascii_dec] simpl;
    repeat (destruct (ascii_dec _ _); subst; with_strategy opaque [ascii_dec] simpl);
    first [congruence | destruct b; simpl; congruence].
Qed.

Lemma py_replace_mp4 base :
  occurs ".mp4" base = false → py_replace (base +:+ ".mp4") ".mp4" ".gif" = base +:+ ".gif".
Proof.
  unfold py_replace. induction base as [|c b IH]; [done|].
  intros [Hp Ho]%orb_false_iff. rewrite str_app_cons, replace_go_step.
  rewrite (prefix_mp4_shift c b Hp). by rewrite IH.
Qed.

Lemma replace_go_forall (p : ascii → bool) old new s k :
  str_forall p s = true → str_forall p new = true → str_forall p (replace_go old new s k) = true.
Proof.
  revert k. induction s as [|c s IH]; intros k Hs Hn; [done|].
  simpl in Hs. apply andb_prop in Hs as [Hc Hs].
  destruct k as [|k]; [rewrite replace_go_step|exact (IH k Hs Hn)].
  destruct (String.prefix old (String c s)); [rewrite str_forall_app, Hn; by apply IH|].
  simpl. rewrite Hc. by apply IH.
Qed.

Lemma replace_go_nonempty old new s :
  new ≠ "" → s ≠ "" → replace_go old new s 0 ≠ "".
Proof.
  destruct s as [|x s]; [done|]. intros Hn _. rewrite replace_go_step.
  destruct (String.prefix old (String x s)); [|done].
  destruct new; [done|]. done.
Qed.


End PyReplace.
