(* ===== verification/Base64.v ===== *)
(** [base64.b64encode], which src/app.py applies to the GIF's bytes to put
    them in a data URL (line 174), as RFC 4648 defines it and CPython's
    [binascii] computes it: three bytes make four sextets by shifts and
    masks, and a final group of one or two bytes is padded with ['='].  The
    decoder [b64decode] (the inverse a browser applies to the data URL) and
    the round trip [b64decode (b64encode s) = Some s]; the encoder's output
    is made of the 64 alphabet characters and ['='] only, so it cannot end
    the HTML attribute it is written into. *)

From S2P Require Import Prelude.
From Stdlib Require Import Ascii ZArith Lia.

Module Base64.

Open Scope Z_scope.

(** A byte as an integer in [0, 256) and back. *)
Definition byte (c : ascii) : Z := Z.of_N (N_of_ascii c).
Definition of_byte (z : Z) : ascii := ascii_of_N (Z.to_N z).

(** The character of a sextet: ['A'-'Z'], ['a'-'z'], ['0'-'9'], ['+'], ['/']. *)
Definition b64_char (n : Z) : ascii :=
  of_byte (if n <? 26 then 65 + n else if n <? 52 then 71 + n else if n <? 62 then n - 4
           else if n =? 62 then 43 else 47).

(** The sextet of an alphabet character. *)
Definition b64_value (c : ascii) : option Z :=
  let n := byte c in
  if (65 <=? n) && (n <=? 90) then Some (n - 65)
  else if (97 <=? n) && (n <=? 122) then Some (n - 71)
  else if (48 <=? n) && (n <=? 57) then Some (n + 4)
  else if n =? 43 then Some 62
  else if n =? 47 then Some 63
  else None.

Definition pad : ascii := "=".

(** Three bytes [x y z] as four characters. *)
Definition quad (x y z : Z) : string :=
  String (b64_char (Z.shiftr x 2))
    (String (b64_char (Z.lor (Z.shiftl (Z.land x 3) 4) (Z.shiftr y 4)))
      (String (b64_char (Z.lor (Z.shiftl (Z.land y 15) 2) (Z.shiftr z 6)))
        (String (b64_char (Z.land z 63)) ""))).

Fixpoint b64encode (s : string) : string :=
  match s with
  | String a (String b (String c rest)) => quad (byte a) (byte b) (byte c) +:+ b64encode rest
  | String a (String b "") =>
      let x := byte a in let y := byte b in
      String (b64_char (Z.shiftr x 2))
        (String (b64_char (Z.lor (Z.shiftl (Z.land x 3) 4) (Z.shiftr y 4)))
          (String (b64_char (Z.shiftl (Z.land y 15) 2)) (String pad "")))
  | String a "" =>
      let x := byte a in
      String (b64_char (Z.shiftr x 2))
        (String (b64_char (Z.shiftl (Z.land x 3) 4)) (String pad (String pad "")))
  | "" => ""
  end.

(** The bytes of four sextets. *)
Definition unquad (s1 s2 s3 s4 : Z) : Z * Z * Z :=
  (Z.lor (Z.shiftl s1 2) (Z.shiftr s2 4),
   Z.lor (Z.shiftl (Z.land s2 15) 4) (Z.shiftr s3 2),
   Z.lor (Z.shiftl (Z.land s3 3) 6) s4).

Fixpoint b64decode (s : string) : option string :=
  match s with
  | "" => Some ""
  | String c1 (String c2 (String c3 (String c4 rest))) =>
      s1 ← b64_value c1; s2 ← b64_value c2;
      if Ascii.eqb c3 pad then
        if Ascii.eqb c4 pad then
          if decide (rest = "") then
            let '(x, _, _) := unquad s1 s2 0 0 in Some (String (of_byte x) "")
          else None
        else None
      else
        s3 ← b64_value c3;
        if Ascii.eqb c4 pad then
          if decide (rest = "") then
            let '(x, y, _) := unquad s1 s2 s3 0 in Some (String (of_byte x) (String (of_byte y) ""))
          else None
        else
          s4 ← b64_value c4;
          let '(x, y, z) := unquad s1 s2 s3 s4 in
          String (of_byte x) ∘ String (of_byte y) ∘ String (of_byte z) <$> b64decode rest
  | _ => None
  end.

(** ** Arithmetic of the shifts and masks *)

Lemma shiftr_div x k : 0 ≤ k → Z.shiftr x k = x / 2 ^ k.
Proof. apply Z.shiftr_div_pow2. Qed.

Lemma shiftl_mul x k : 0 ≤ k → Z.shiftl x k = x * 2 ^ k.
Proof. apply Z.shiftl_mul_pow2. Qed.

Lemma land_mod x k : 0 ≤ k → Z.land x (Z.ones k) = x mod 2 ^ k.
Proof. apply Z.land_ones. Qed.

(** Disjoint bits: [lor] of a shifted value and a small one is their sum
    (as fiat-crypto's [Z.lor_shiftl]). *)
Lemma land_shiftl_small a b k : 0 ≤ k → 0 ≤ b < 2 ^ k → Z.land (Z.shiftl a k) b = 0.
Proof.
  intros Hk Hb. apply Z.bits_inj'. intros i Hi. rewrite Z.land_spec, Z.bits_0.
  destruct (Z.lt_ge_cases i k); [by rewrite Z.shiftl_spec_low|].
  replace (Z.testbit b i) with false; [apply andb_false_r|].
  symmetry. apply Z.testbit_false; [lia|]. rewrite Z.div_small; [done|]. split; [lia|].
  eapply Z.lt_le_trans; [apply Hb|]. apply Z.pow_le_mono_r; lia.
Qed.

Lemma lor_shiftl_small a b k :
  0 ≤ k → 0 ≤ b < 2 ^ k → Z.lor (Z.shiftl a k) b = a * 2 ^ k + b.
Proof.
  intros Hk Hb. rewrite <- shiftl_mul by done.
  rewrite <- Z.lxor_lor, Z.add_nocarry_lxor; [done|..]; by apply land_shiftl_small.
Qed.

(** Rewrite the shifts and masks of [quad] and [unquad] into [*], [/] and
    [mod] by constants, which [lia] decides: masks and right shifts first,
    then each [lor] whose right operand is already arithmetic. *)
Ltac b64_arith :=
  change 3 with (Z.ones 2) in *; change 15 with (Z.ones 4) in *;
  change 63 with (Z.ones 6) in *;
  rewrite ?land_mod, ?shiftr_div by lia;
  repeat match goal with
    | |- context [Z.lor (Z.shiftl ?a ?k) ?b] =>
        lazymatch b with
        | context [Z.lor _ _] => fail
        | _ => rewrite (lor_shiftl_small a b k) by (cbn; Z.div_mod_to_equations; lia)
        end
    end;
  rewrite ?shiftl_mul by lia; cbn [Z.pow Z.pow_pos Pos.iter Z.mul] in *.

Lemma byte_range c : 0 ≤ byte c < 256.
Proof. unfold byte. pose proof (N_ascii_bounded c). lia. Qed.

Lemma of_byte_byte c : of_byte (byte c) = c.
Proof. unfold of_byte, byte. by rewrite N2Z.id, ascii_N_embedding. Qed.

Lemma b64_value_char n : 0 ≤ n < 64 → b64_value (b64_char n) = Some n.
Proof.
  intros Hn.
  assert (Forall (λ m, b64_value (b64_char (Z.of_nat m)) = Some (Z.of_nat m)) (seq 0 64)) as H
    by (repeat constructor).
  rewrite Forall_forall in H. specialize (H (Z.to_nat n)). rewrite Z2Nat.id in H by lia.
  apply H, list_elem_of_In, in_seq. lia.
Qed.

(** The four sextets of three bytes give the bytes back. *)
Lemma unquad_quad x y z :
  0 ≤ x < 256 → 0 ≤ y < 256 → 0 ≤ z < 256 →
  unquad (Z.shiftr x 2) (Z.lor (Z.shiftl (Z.land x 3) 4) (Z.shiftr y 4))
    (Z.lor (Z.shiftl (Z.land y 15) 2) (Z.shiftr z 6)) (Z.land z 63) = (x, y, z).
Proof.
  intros Hx Hy Hz. unfold unquad. b64_arith.
  f_equal; [f_equal|]; Z.div_mod_to_equations; lia.
Qed.

Lemma sextets_range x y z :
  0 ≤ x < 256 → 0 ≤ y < 256 → 0 ≤ z < 256 →
  0 ≤ Z.shiftr x 2 < 64 ∧ 0 ≤ Z.lor (Z.shiftl (Z.land x 3) 4) (Z.shiftr y 4) < 64 ∧
  0 ≤ Z.lor (Z.shiftl (Z.land y 15) 2) (Z.shiftr z 6) < 64 ∧ 0 ≤ Z.land z 63 < 64.
Proof. intros Hx Hy Hz. b64_arith. Z.div_mod_to_equations. lia. Qed.

(** No sextet is written as the padding character. *)
Lemma b64_char_not_pad n : 0 ≤ n < 64 → Ascii.eqb (b64_char n) pad = false.
Proof.
  intros Hn. apply Ascii.eqb_neq. intros Heq.
  pose proof (b64_value_char n Hn) as Hv. rewrite Heq in Hv. discriminate.
Qed.

(** One group of three bytes decodes back, whatever follows it. *)
Lemma b64decode_quad a b c rest :
  b64decode (quad (byte a) (byte b) (byte c) +:+ rest) =
  String a ∘ String b ∘ String c <$> b64decode rest.
Proof.
  destruct (sextets_range (byte a) (byte b) (byte c)) as (H1 & H2 & H3 & H4);
    try apply byte_range.
  unfold quad. rewrite !str_app_cons, str_app_nil_l. cbn [b64decode].
  rewrite (b64_value_char _ H1), (b64_value_char _ H2). simpl.
  rewrite (b64_char_not_pad _ H3), (b64_value_char _ H3). simpl.
  rewrite (b64_char_not_pad _ H4), (b64_value_char _ H4). simpl.
  pose proof (unquad_quad (byte a) (byte b) (byte c) (byte_range a) (byte_range b) (byte_range c))
    as Hq.
  unfold unquad in Hq. injection Hq as -> -> ->. by rewrite !of_byte_byte.
Qed.

(** The shorter groups are the first characters of a full group with zero bytes. *)
Lemma b64_tail2 y : Z.shiftl (Z.land y 15) 2 = Z.lor (Z.shiftl (Z.land y 15) 2) (Z.shiftr 0 6).
Proof. by rewrite Z.shiftr_0_l, Z.lor_0_r. Qed.

Lemma b64_tail1 x : Z.shiftl (Z.land x 3) 4 = Z.lor (Z.shiftl (Z.land x 3) 4) (Z.shiftr 0 4).
Proof. by rewrite Z.shiftr_0_l, Z.lor_0_r. Qed.

(** The recursion of [b64encode]: groups of three bytes, then a tail of
    zero, one or two. *)
Lemma b64_ind (P : string → Prop) :
  P "" → (∀ a, P (String a "")) → (∀ a b, P (String a (String b ""))) →
  (∀ a b c rest, P rest → P (String a (String b (String c rest)))) → ∀ s, P s.
Proof.
  intros H0 H1 H2 H3 s. remember (String.length s) as n eqn:Hn. revert s Hn.
  induction n as [n IH] using (well_founded_induction lt_wf). intros s Hn.
  destruct s as [|a [|b [|c rest]]]; auto.
  apply H3, (IH (String.length rest)); [simpl in Hn; lia|done].
Qed.

(** Decoding undoes [b64encode]. *)
Lemma b64decode_encode s : b64decode (b64encode s) = Some s.
Proof.
  induction s as [|a|a b|a b c rest IH] using b64_ind; [done| | |].
  - destruct (sextets_range (byte a) 0 0) as (H1 & H2 & _); [apply byte_range|lia|lia|].
    pose proof (unquad_quad (byte a) 0 0 (byte_range a) ltac:(lia) ltac:(lia)) as Hq.
    unfold unquad in Hq. injection Hq as Ha.
    cbn [b64encode]. rewrite b64_tail1. cbn [b64decode].
    rewrite (b64_value_char _ H1), (b64_value_char _ H2). simpl.
    unfold unquad. by rewrite Ha, of_byte_byte.
  - destruct (sextets_range (byte a) (byte b) 0) as (H1 & H2 & H3 & _);
      [apply byte_range|apply byte_range|lia|].
    pose proof (unquad_quad (byte a) (byte b) 0 (byte_range a) (byte_range b) ltac:(lia)) as Hq.
    unfold unquad in Hq. injection Hq as Ha Hb.
    cbn [b64encode]. rewrite b64_tail2. cbn [b64decode].
    rewrite (b64_value_char _ H1), (b64_value_char _ H2). simpl.
    rewrite (b64_char_not_pad _ H3), (b64_value_char _ H3). simpl.
    unfold unquad. by rewrite Ha, Hb, !of_byte_byte.
  - cbn [b64encode]. by rewrite b64decode_quad, IH.
Qed.

(** The characters a data URL may hold: the alphabet and the padding. *)
Definition b64_alphabet_char (c : ascii) : bool :=
  bool_decide (is_Some (b64_value c)) || Ascii.eqb c pad.

Lemma b64_char_alphabet n : 0 ≤ n < 64 → b64_alphabet_char (b64_char n) = true.
Proof. intros Hn. unfold b64_alphabet_char. rewrite b64_value_char by done. done. Qed.

Lemma quad_alphabet a b c : str_forall b64_alphabet_char (quad (byte a) (byte b) (byte c)) = true.
Proof.
  destruct (sextets_range (byte a) (byte b) (byte c)) as (H1 & H2 & H3 & H4); try apply byte_range.
  simpl. by rewrite !b64_char_alphabet.
Qed.

(** The encoding is made of the alphabet and ['='] only. *)
Lemma b64encode_alphabet s : str_forall b64_alphabet_char (b64encode s) = true.
Proof.
  induction s as [|a|a b|a b c rest IH] using b64_ind; [done| | |].
  - destruct (sextets_range (byte a) 0 0) as (H1 & H2 & _); [apply byte_range|lia|lia|].
    cbn [b64encode]. rewrite b64_tail1. simpl. by rewrite !b64_char_alphabet.
  - destruct (sextets_range (byte a) (byte b) 0) as (H1 & H2 & H3 & _);
      [apply byte_range|apply byte_range|lia|].
    cbn [b64encode]. rewrite b64_tail2. simpl. by rewrite !b64_char_alphabet.
  - cbn [b64encode]. by rewrite str_forall_app, quad_alphabet, IH.
Qed.

End Base64.
