(* ===== verification/World.v ===== *)
(** The world a run of src/app.py acts on, and the effects it uses: the
    file system (paths to contents), ffmpeg's effect on files
    ([ffmpeg_exec], with what it makes of a file the class [Ffmpeg]),
    [os.system] (the class [System], whose law says that a command the
    shell splits into an ffmpeg argument vector runs ffmpeg), the keys of
    [st.session_state], the page elements shown, and the monad [app] of a
    script run, in which an exception ends the run and keeps every change
    made before it.  A small Hoare logic for [app] carries invariants of the
    session state through whole runs. *)

From S2P Require Import Prelude Table Drawtext Shell.
From stdpp Require Import gmap.
From Stdlib Require Import Ascii.

Module World.

Import Table Drawtext Shell.

(** ** The file system and the external tool *)

(** Paths to file contents. *)
Abbreviation fsys := (gmap string string).

(** What ffmpeg makes of an input file's contents under the given options
    (the flags and values between [-i input] and the output path); [None]
    when it fails (an invalid filtergraph, an undecodable input). *)
Class Ffmpeg := ffmpeg_transcode : list string → string → option string.

(** [ffmpeg -i input opts... output] as far as the file system sees it.  A
    missing input is an error; an existing output is not overwritten (asked
    [Overwrite? [y/N]] with no terminal, ffmpeg answers no and exits). *)
Definition ffmpeg_exec `{Ffmpeg} (inp : string) (opts : list string) (out : string)
    (fs : fsys) : fsys :=
  match fs !! inp with
  | None => fs
  | Some m =>
      match fs !! out with
      | Some _ => fs
      | None => match ffmpeg_transcode opts m with Some m' => <[out := m']> fs | None => fs end
      end
  end.

(** The argument vectors ffmpeg reads as one input and one output:
    [ffmpeg -i input (flag value)* output]. *)
Definition ffmpeg_argv (argv : list string) : option (string * list string * string) :=
  match argv with
  | prog :: flag :: inp :: rest =>
      if decide (prog = "ffmpeg" ∧ flag = "-i") then
        match last rest with
        | Some out =>
            if Nat.even (length (removelast rest)) then Some (inp, removelast rest, out) else None
        | None => None
        end
      else None
  | _ => None
  end.

(** [os.system]: its effect on the file system.  The law says what is
    known of it: a command the shell splits into an ffmpeg argument vector
    of one input and one output runs ffmpeg on that vector. *)
Class System `{Ffmpeg} := {
  system : string → fsys → fsys;
  system_ffmpeg cmd argv inp opts out fs :
    sh_words cmd = Some argv → ffmpeg_argv argv = Some (inp, opts, out) →
    system cmd fs = ffmpeg_exec inp opts out fs
}.

(** A shell that runs nothing else. *)
Definition ffmpeg_only `{Ffmpeg} (cmd : string) (fs : fsys) : fsys :=
  match sh_words cmd with
  | Some argv =>
      match ffmpeg_argv argv with
      | Some (inp, opts, out) => ffmpeg_exec inp opts out fs
      | None => fs
      end
  | None => fs
  end.

Lemma ffmpeg_only_ffmpeg `{Ffmpeg} cmd argv inp opts out fs :
  sh_words cmd = Some argv → ffmpeg_argv argv = Some (inp, opts, out) →
  ffmpeg_only cmd fs = ffmpeg_exec inp opts out fs.
Proof. intros Hs Ha. unfold ffmpeg_only. by rewrite Hs, Ha. Qed.

#[export] Instance ffmpeg_only_system `{Ffmpeg} : System :=
  {| system := ffmpeg_only; system_ffmpeg := ffmpeg_only_ffmpeg |}.

(** ** Session state and the world *)

(** The keys of [st.session_state] the script uses. *)
Record session := mk_session {
  ss_function : option string;      (* 'function' *)
  ss_random : option string;        (* 'random_10_digit_string' *)
  ss_annotations : option frame;    (* 'df_initial_annotations' *)
  ss_trimmings : option frame;      (* 'df_initial_trimmings' *)
  ss_gif : option string            (* 'output_gif_file' *)
}.

Definition empty_session : session := mk_session None None None None None.

(** What a run shows on the page, in order: [st.success] messages,
    [st.video] players and [st.markdown] HTML. *)
Inductive element :=
  | Success (msg : string)
  | Video (path : string)
  | Markdown (html : string).

Record world := mk_world {
  w_ss : session;
  w_fs : fsys;
  w_page : list element;           (* what the run has shown so far *)
  w_draws : nat                     (* the number of [random.randint] calls made *)
}.

Definition set_ss (w : world) (ss : session) : world := mk_world ss (w_fs w) (w_page w) (w_draws w).
Definition set_fs (w : world) (fs : fsys) : world := mk_world (w_ss w) fs (w_page w) (w_draws w).

(** ** The monad of a script run *)

Definition app (A : Type) : Type := world → world * res A.

#[export] Instance app_ret : MRet app := λ A x w, (w, Ok x).
#[export] Instance app_bind : MBind app := λ A B f m w,
  match m w with (w', Ok x) => f x w' | (w', Exc e) => (w', Exc e) end.

Definition throw {A} (e : py_exc) : app A := λ w, (w, Exc e).
Definition lift {A} (r : res A) : app A := λ w, (w, r).
Definition get_ss : app session := λ w, (w, Ok (w_ss w)).
Definition put_ss (ss : session) : app unit := λ w, (set_ss w ss, Ok ()).

(** Updates of one key of [st.session_state]. *)
Definition set_function (f : string) (ss : session) : session :=
  mk_session (Some f) (ss_random ss) (ss_annotations ss) (ss_trimmings ss) (ss_gif ss).
Definition set_random (r : string) (ss : session) : session :=
  mk_session (ss_function ss) (Some r) (ss_annotations ss) (ss_trimmings ss) (ss_gif ss).
Definition set_annotations (df : frame) (ss : session) : session :=
  mk_session (ss_function ss) (ss_random ss) (Some df) (ss_trimmings ss) (ss_gif ss).
Definition set_trimmings (df : frame) (ss : session) : session :=
  mk_session (ss_function ss) (ss_random ss) (ss_annotations ss) (Some df) (ss_gif ss).

Definition set_gif (g : string) (ss : session) : session :=
  mk_session (ss_function ss) (ss_random ss) (ss_annotations ss) (ss_trimmings ss) (Some g).

Definition modify_ss (f : session → session) : app unit := ss ← get_ss; put_ss (f ss).

(** [st.session_state[key]]: a missing key raises [KeyError]. *)
Definition ss_get {A} (key : string) (v : option A) : res A :=
  match v with Some x => Ok x | None => Exc (KeyError key) end.

(** [os.path.exists], [os.remove], [os.system], [st.success], [st.video], [st.markdown]. *)
Definition path_exists (p : string) : app bool :=
  λ w, (w, Ok (bool_decide (is_Some (w_fs w !! p)))).
Definition os_remove (p : string) : app unit :=
  λ w, match w_fs w !! p with
       | Some _ => (set_fs w (delete p (w_fs w)), Ok ())
       | None => (w, Exc (FileNotFoundError p))
       end.
Definition os_system `{System} (cmd : string) : app unit :=
  λ w, (set_fs w (system cmd (w_fs w)), Ok ()).
Definition st_success (msg : string) : app unit :=
  λ w, (mk_world (w_ss w) (w_fs w) (w_page w ++ [Success msg]) (w_draws w), Ok ()).
Definition st_video (p : string) : app unit :=
  λ w, (mk_world (w_ss w) (w_fs w) (w_page w ++ [Video p]) (w_draws w), Ok ()).
Definition st_markdown (html : string) : app unit :=
  λ w, (mk_world (w_ss w) (w_fs w) (w_page w ++ [Markdown html]) (w_draws w), Ok ()).

(** [open(p, "rb").read()]: the contents of [p]; a missing file raises. *)
Definition read_file (p : string) : app string :=
  λ w, (w, match w_fs w !! p with Some c => Ok c | None => Exc (FileNotFoundError p) end).

(** [if os.path.exists(p): os.remove(p)], lines 35-36, 49-50, 164-165. *)
Definition remove_if_exists (p : string) : app unit :=
  path_exists p ≫= λ exists_ : bool, if exists_ then os_remove p else mret ().

(** ** Running the operations *)

Lemma app_bind_run {A B} (m : app A) (f : A → app B) w :
  (m ≫= f) w = match m w with (w', Ok x) => f x w' | (w', Exc e) => (w', Exc e) end.
Proof. reflexivity. Qed.

Lemma set_fs_same w : set_fs w (w_fs w) = w.
Proof. by destruct w. Qed.

Lemma set_fs_fs w fs : w_fs (set_fs w fs) = fs.
Proof. done. Qed.

(** Removing a path that may be absent is deleting it from the map. *)
Lemma remove_if_exists_run p w : remove_if_exists p w = (set_fs w (delete p (w_fs w)), Ok ()).
Proof.
  unfold remove_if_exists, path_exists, os_remove. rewrite app_bind_run.
  destruct (w_fs w !! p) eqn:E.
  - rewrite bool_decide_eq_true_2 by eauto. simpl. by rewrite E.
  - rewrite bool_decide_eq_false_2 by (intros [? ?]; congruence).
    by rewrite delete_id, set_fs_same.
Qed.

(** Deleting the output path undoes whatever ffmpeg wrote there. *)
Lemma delete_ffmpeg_exec `{Ffmpeg} inp opts out fs :
  delete out (ffmpeg_exec inp opts out (delete out fs)) = delete out fs.
Proof.
  unfold ffmpeg_exec. rewrite lookup_delete_eq.
  destruct (delete out fs !! inp); [|apply delete_delete_eq].
  destruct (ffmpeg_transcode opts s); [|apply delete_delete_eq].
  by rewrite delete_insert_eq, delete_delete_eq.
Qed.

(** Removing the output and then running ffmpeg, twice, is doing it once. *)
Lemma ffmpeg_exec_fresh_idem `{Ffmpeg} inp opts out fs :
  let run fs := ffmpeg_exec inp opts out (delete out fs) in run (run fs) = run fs.
Proof. simpl. by rewrite delete_ffmpeg_exec. Qed.

(** What a fresh run of ffmpeg leaves: the output made from the input,
    every other path as it was. *)
Lemma ffmpeg_exec_fresh `{Ffmpeg} inp opts out fs :
  inp ≠ out →
  ffmpeg_exec inp opts out (delete out fs) !! out = fs !! inp ≫= ffmpeg_transcode opts ∧
  ∀ p, p ≠ out → ffmpeg_exec inp opts out (delete out fs) !! p = fs !! p.
Proof.
  intros Hne. unfold ffmpeg_exec. rewrite lookup_delete_ne, lookup_delete_eq by done.
  destruct (fs !! inp) as [m|]; simpl.
  - destruct (ffmpeg_transcode opts m); split; intros; by simplify_map_eq.
  - split; intros; by simplify_map_eq.
Qed.

(** A run that leaves the session and the messages alone, makes [out] from
    [inp] with ffmpeg under [opts], and leaves every other path as it was. *)
Definition writes_only `{Ffmpeg} (w w' : world) (inp : string) (opts : list string) (out : string)
    : Prop :=
  w_ss w' = w_ss w ∧ w_page w' = w_page w ∧
  w_fs w' !! out = w_fs w !! inp ≫= ffmpeg_transcode opts ∧
  ∀ p, p ≠ out → w_fs w' !! p = w_fs w !! p.

Lemma system_fresh `{System} cmd argv inp opts out w :
  inp ≠ out → sh_words cmd = Some argv → ffmpeg_argv argv = Some (inp, opts, out) →
  writes_only w (set_fs w (system cmd (delete out (w_fs w)))) inp opts out.
Proof.
  intros Hne Hs Ha. unfold writes_only. rewrite set_fs_fs, (system_ffmpeg _ _ _ _ _ _ Hs Ha).
  destruct (ffmpeg_exec_fresh inp opts out (w_fs w) Hne). done.
Qed.

(** ** Session state across runs *)

(** A small Hoare logic for [app]: [hoare I m Q] says that [m] keeps the
    session invariant [I], even when it raises, and that a normal result
    satisfies [Q]. *)
Section Hoare.
Variable I : session → Prop.

Definition hoare {A} (m : app A) (Q : A → Prop) : Prop :=
  ∀ w, I (w_ss w) → I (w_ss (m w).1) ∧ ∀ x, (m w).2 = Ok x → Q x.

Lemma hoare_ret {A} (x : A) (Q : A → Prop) : Q x → hoare (mret x) Q.
Proof. intros Hx w Hw. split; [done|]. intros ? [= <-]. done. Qed.

Lemma hoare_bind {A B} (m : app A) (f : A → app B) Q R :
  hoare m Q → (∀ x, Q x → hoare (f x) R) → hoare (m ≫= f) R.
Proof.
  intros Hm Hf w Hw. rewrite app_bind_run. destruct (Hm w Hw) as [H1 H2].
  destruct (m w) as [w' [x|e]]; simpl in *; [by apply Hf; [apply H2|]|].
  split; [done|]. by intros ? ?.
Qed.

Lemma hoare_frame {A} (m : app A) : (∀ w, w_ss (m w).1 = w_ss w) → hoare m (λ _, True).
Proof. intros Hm w Hw. by rewrite Hm. Qed.

Lemma hoare_get : hoare get_ss I.
Proof. intros w Hw. split; [done|]. by intros ? [= <-]. Qed.

Lemma hoare_modify f : (∀ ss, I ss → I (f ss)) → hoare (modify_ss f) (λ _, True).
Proof. intros Hf w Hw. split; [by apply Hf|done]. Qed.

Lemma hoare_lift {A} (r : res A) : hoare (lift r) (λ x, r = Ok x).
Proof. intros w Hw. split; [done|]. by intros x ?. Qed.

Lemma hoare_weaken {A} (m : app A) (Q Q' : A → Prop) :
  hoare m Q → (∀ x, Q x → Q' x) → hoare m Q'.
Proof. intros Hm HQ w Hw. destruct (Hm w Hw) as [H1 H2]. split; [done|]. eauto. Qed.

End Hoare.

Create HintDb hoare discriminated.
#[export] Hint Resolve hoare_get hoare_lift : hoare.

(** The operations that do not touch [st.session_state]. *)
Ltac hoare_frame_tac := apply hoare_frame; intros; reflexivity.

Lemma app_ret_bind {A B} (x : A) (f : A → app B) : (mret x ≫= f) = f x.
Proof. reflexivity. Qed.

End World.
