(* ===== verification/App.v ===== *)
(** The stateful part of src/app.py: the two processing handlers
    [draw_text_on_video] and [trim_video] with their file-system effects,
    the GIF export and the GIF view of [main], the two table sections with
    their lazily initialised session state, and one run of the script
    [main].  Its theorems: the handlers' and the export's effects on files,
    session and page (C4, C5, C7-C9, C12, C13, C18, C19); the session invariant over all
    reachable worlds (C6); recovery of the default table (C20); whole runs
    that reach the process button (C21, C22); and the error paths of a run
    (C23, C24).

    A run of the script is a computation in the monad [app]: it threads the
    [world] (Streamlit's [st.session_state], the file system, the success
    messages shown so far and the count of [random.randint] draws made), and
    an exception ends the run with every change made before it kept, as in
    Python where [st.session_state] and the file system are mutated in place.
    [os.system] is reached through the class [System]: the shell splits the
    command (Shell.v) and ffmpeg, whose behaviour on files is the class
    [Ffmpeg] and [ffmpeg_exec], runs on the argument vector. *)

From S2P Require Import Prelude PyStr Table FFGraph FFExpr Drawtext Trim Shell PyReplace Base64 World.
From stdpp Require Import gmap.
From Stdlib Require Import Ascii.

Module App.

Import PyInt Table FFGraph FFExpr Drawtext Trim Shell PyReplace Base64 World.



Section Handlers.
Context `{System}.

(** [draw_text_on_video], lines 29-40. *)
Definition draw_text_on_video (df : frame) (inp out : string) : app unit :=
  strs ← lift (drawtext_strings df);
  remove_if_exists out;;
  let joined_string := String.concat ", " strs in
  os_system (draw_text_command inp out joined_string).

(** [trim_video], lines 43-54. *)
Definition trim_video (df : frame) (inp out : string) : app unit :=
  strs ← lift (between_strings df);
  remove_if_exists out;;
  let joined_string := String.concat "+" strs in
  os_system (trim_command inp out joined_string).

(** Line 166: the GIF conversion command. *)
Definition gif_command (out gif : string) : string := "ffmpeg -i " +:+ out +:+ " " +:+ gif.

(** Lines 162-168, the body of [if st.button('Create GIF from video')]. *)
Definition gif_export (out : string) : app unit :=
  let output_gif_file := py_replace out ".mp4" ".gif" in
  remove_if_exists output_gif_file;;
  os_system (gif_command out output_gif_file);;
  st_success ("GIF file " +:+ output_gif_file +:+ " created successfully!");;
  modify_ss (set_gif output_gif_file).

(** Lines 159-160: [if os.path.exists(output_mp4_file): st.video(output_mp4_file)]. *)
Definition show_if_exists (p : string) : app unit :=
  path_exists p ≫= λ exists_ : bool, if exists_ then st_video p else mret ().

(** Lines 177-180: the HTML that shows the GIF from a base64 data URL. *)
Definition gif_img (data_url : string) : string :=
  "<img src=" +:+ dq +:+ "data:image/gif;base64," +:+ data_url +:+ dq +:+
  " alt=" +:+ dq +:+ "animated gif" +:+ dq +:+ ">".

(** Lines 170-180, the body of [with st.expander('View GIF')]: the GIF
    named in the session, if it exists, read and shown inline.
    [.decode("utf-8")] of the base64 text is the identity, the text being
    ASCII ([b64encode_alphabet]). *)
Definition gif_view : app unit :=
  ss ← get_ss;
  match ss_gif ss with
  | Some g =>
      path_exists g ≫= λ exists_ : bool,
      if exists_ then
        contents ← read_file g;
        let data_url := b64encode contents in
        st_markdown (gif_img data_url)
      else mret ()
  | None => mret ()
  end.

End Handlers.

(** ** The table sections and one run of [main] *)

(** The process function a section hands back to [main]. *)
Inductive process_fn := PDrawText | PTrim.

(** What the user did in the widgets during one run of the script. *)
Record ui := mk_ui {
  ui_input : string;                  (* line 125: the selected video *)
  ui_function : option string;        (* line 135: a new choice, or [None] to keep the current one *)
  ui_use_existing : bool;             (* lines 61, 91 *)
  ui_csv : option string;             (* lines 63, 93: [None] when no CSV file is listed *)
  ui_load : bool;                     (* lines 69, 99 *)
  ui_editor : string → frame → frame; (* line 145: the table the editor with this key shows for this table *)
  ui_output : string;                 (* line 147 *)
  ui_process : bool;                  (* line 149 *)
  ui_gif : bool                       (* line 162 *)
}.

Section Script.
Context `{System}.

(** The successive results of [random.randint(0, 9)]. *)
Context (randint : nat → Z).
(** [pd.read_csv(path)] on the current files. *)
Context (read_csv : string → fsys → res frame).

Definition randint_0_9 : app Z :=
  λ w, (mk_world (w_ss w) (w_fs w) (w_page w) (S (w_draws w)), Ok (randint (w_draws w))).

Fixpoint draw_digits (n : nat) : app (list string) :=
  match n with
  | O => mret []
  | S n' => d ← randint_0_9; ds ← draw_digits n'; mret (py_str_int d :: ds)
  end.

(** [''.join([str(random.randint(0, 9)) for _ in range(10)])], lines 66, 74, 96, 104. *)
Definition random_10_digit_string : app string :=
  ds ← draw_digits 10; mret (String.concat "" ds).

(** [pd.read_csv(input_file)]: the selectbox gives [None] when it lists
    no file, and pandas raises [ValueError] on it. *)
Definition pd_read_csv (f : option string) : app frame :=
  λ w, (w, match f with Some p => read_csv p (w_fs w) | None => Exc ValueError end).

(** The body shared by [text_annotation_section] (lines 57-84) and
    [trimming_section] (lines 87-112), which differ only in the session key
    of their table, its default, the button text and the process function. *)
Definition table_section (u : ui) (key : string) (get : session → option frame)
    (set : frame → session → session) (default_df : frame) (label : string)
    (pf : process_fn) : app (frame * string * process_fn) :=
  ss ← get_ss;
  (match ss_random ss with
   | None => r ← random_10_digit_string; modify_ss (set_random r)
   | Some _ => mret ()
   end);;
  ss ← get_ss;
  (match get ss with None => modify_ss (set default_df) | Some _ => mret () end);;
  (if ui_load u then
     df ← (if ui_use_existing u then pd_read_csv (ui_csv u) else mret default_df);
     modify_ss (set df);;
     r ← random_10_digit_string;
     modify_ss (set_random r)
   else mret ());;
  ss ← get_ss;
  df ← lift (ss_get key (get ss));
  mret (df, label, pf).

Definition text_annotation_section (u : ui) : app (frame * string * process_fn) :=
  table_section u "df_initial_annotations" ss_annotations set_annotations
    get_default_annotation_data "Create MP4 with text overlay" PDrawText.

Definition trimming_section (u : ui) : app (frame * string * process_fn) :=
  table_section u "df_initial_trimmings" ss_trimmings set_trimmings
    get_default_trimming_data "Create trimmed MP4" PTrim.

Definition run_process (pf : process_fn) : frame → string → string → app unit :=
  match pf with PDrawText => draw_text_on_video | PTrim => trim_video end.

(** Lines 151-153, the body of [if st.button(process_button_text)]. *)
Definition process_click (pf : process_fn) (df : frame) (inp out : string) : app unit :=
  run_process pf df inp out;;
  st_success ("Video file " +:+ out +:+ " created successfully!").

(** Lines 155-180, the third column: the output video if it exists, the
    GIF export button, and the GIF view. *)
Definition output_column (u : ui) (out : string) : app unit :=
  show_if_exists out;;
  (if ui_gif u then gif_export out else mret ());;
  gif_view.

(** One run of [main], lines 115-180: the input video shown, the function
    selected and kept in the session, its section, the data editor keyed
    by the session's random key, the process button and the output column.
    The page layout ([set_page_config], columns, headers) changes no state
    and is left out. *)
Definition main_run (u : ui) : app unit :=
  let input_mp4_file := ui_input u in
  st_video input_mp4_file;;
  ss ← get_ss;
  (match ss_function ss with None => modify_ss (set_function "Text annotation") | Some _ => mret () end);;
  ss ← get_ss;
  current ← lift (ss_get "function" (ss_function ss));
  let function := default current (ui_function u) in
  modify_ss (set_function function);;
  (if decide (function = "Text annotation") then text_annotation_section u
   else if decide (function = "Trimming") then trimming_section u
   else throw (UnboundLocalError "df")) ≫= λ sec : frame * string * process_fn,
  let '(df, process_button_text, process_function) := sec in
  ss ← get_ss;
  key ← lift (ss_get "random_10_digit_string" (ss_random ss));
  let df_edited := ui_editor u key df in
  let output_mp4_file := ui_output u in
  (if ui_process u then process_click process_function df_edited input_mp4_file output_mp4_file
   else mret ());;
  output_column u output_mp4_file.

End Script.


Section Runs.
Context `{System}.

Lemma draw_text_on_video_run df inp out w :
  draw_text_on_video df inp out w =
  match drawtext_strings df with
  | Ok strs =>
      (set_fs w (system (draw_text_command inp out (String.concat ", " strs)) (delete out (w_fs w))),
       Ok ())
  | Exc e => (w, Exc e)
  end.
Proof.
  unfold draw_text_on_video. rewrite app_bind_run. destruct (drawtext_strings df); [|done].
  unfold lift. rewrite app_bind_run, remove_if_exists_run. reflexivity.
Qed.

Lemma trim_video_run df inp out w :
  trim_video df inp out w =
  match between_strings df with
  | Ok strs =>
      (set_fs w (system (trim_command inp out (String.concat "+" strs)) (delete out (w_fs w))), Ok ())
  | Exc e => (w, Exc e)
  end.
Proof.
  unfold trim_video. rewrite app_bind_run. destruct (between_strings df); [|done].
  unfold lift. rewrite app_bind_run, remove_if_exists_run. reflexivity.
Qed.

End Runs.

(** ** The argument vectors of the three commands *)

Ltac sh_split :=
  unfold sh_words; simpl;
  repeat first [ progress rewrite ?str_app_nil_l, ?str_app_cons; simpl
               | rewrite sh_go_word by done; simpl
               | rewrite sh_go_quoted by done; simpl
               | rewrite sh_go_last by done; reflexivity ].

Lemma draw_text_command_argv inp out J :
  plain_word inp = true → plain_word out = true → str_forall dq_char J = true →
  sh_words (draw_text_command inp out J) = Some ["ffmpeg"; "-i"; inp; "-vf"; J; out].
Proof. intros. unfold draw_text_command, dq. sh_split. Qed.

Lemma trim_command_argv inp out J :
  plain_word inp = true → plain_word out = true → str_forall dq_char J = true →
  sh_words (trim_command inp out J) =
  Some ["ffmpeg"; "-i"; inp; "-vf"; trim_vf J; "-af"; trim_af J; out].
Proof.
  intros Hi Ho HJ.
  assert (str_forall dq_char (trim_vf J) = true ∧ str_forall dq_char (trim_af J) = true) as [Hv Ha].
  { unfold trim_vf, trim_af. rewrite !str_forall_app, HJ. done. }
  unfold trim_command, dq. remember (trim_vf J) as V. remember (trim_af J) as A. sh_split.
Qed.

Lemma gif_command_argv out gif :
  plain_word out = true → plain_word gif = true →
  sh_words (gif_command out gif) = Some ["ffmpeg"; "-i"; out; gif].
Proof. intros. unfold gif_command. sh_split. Qed.

(** The GIF name of a name that needs no quoting needs none either. *)
Lemma plain_word_gif out :
  plain_word out = true → plain_word (py_replace out ".mp4" ".gif") = true.
Proof.
  intros [Hne Hw]%andb_prop. apply bool_decide_eq_true in Hne. apply andb_true_intro. split.
  - apply bool_decide_eq_true. by apply replace_go_nonempty.
  - by apply replace_go_forall.
Qed.

(** ** The GIF export and the processing button *)

Section Export.
Context `{System}.

Lemma gif_export_run out w :
  gif_export out w =
  let gif := py_replace out ".mp4" ".gif" in
  (mk_world (set_gif gif (w_ss w)) (system (gif_command out gif) (delete gif (w_fs w)))
     (w_page w ++ [Success ("GIF file " +:+ gif +:+ " created successfully!")]) (w_draws w), Ok ()).
Proof. unfold gif_export. rewrite app_bind_run, remove_if_exists_run. reflexivity. Qed.

Lemma gif_export_fs out w :
  plain_word out = true →
  w_fs (gif_export out w).1 =
  ffmpeg_exec out [] (py_replace out ".mp4" ".gif") (delete (py_replace out ".mp4" ".gif") (w_fs w)).
Proof.
  intros Ho. rewrite gif_export_run. simpl. eapply system_ffmpeg.
  - apply gif_command_argv; [done|]. by apply plain_word_gif.
  - reflexivity.
Qed.

End Export.


Lemma draw_text_joined_dq df anns :
  table_annotations df = Some anns → forallb (λ a, str_forall dq_char a.1) anns = true →
  ∃ strs, drawtext_strings df = Ok strs ∧ str_forall dq_char (String.concat ", " strs) = true.
Proof.
  intros Ha Hs. eexists; split; [by apply drawtext_strings_annotations|].
  apply str_forall_concat; [done|]. apply Forall_fmap, Forall_forall.
  intros a Hin%list_elem_of_In. eapply List.forallb_forall in Hs; [|done].
  unfold filter_text, drawtext_segs, drawtext_style. simpl.
  rewrite !str_forall_app, Hs. simpl. rewrite !str_forall_app. simpl.
  rewrite !py_str_int_forall by done. done.
Qed.

Lemma trim_joined_dq df ivs :
  table_intervals df = Some ivs →
  ∃ strs, between_strings df = Ok strs ∧ str_forall dq_char (String.concat "+" strs) = true.
Proof.
  intros Hi. pose proof (trim_joined_intervals df ivs Hi) as HJ. unfold trim_joined in HJ.
  destruct (between_strings df) as [strs|]; [|done]. injection HJ as HJ.
  eexists; split; [done|]. rewrite HJ. by apply joined_forall.
Qed.

Section GifFacts.
Context `{System}.

Lemma gif_export_mp4_effect base w :
  occurs ".mp4" base = false → plain_word (base +:+ ".mp4") = true →
  let w' := (gif_export (base +:+ ".mp4") w).1 in
  gif_export (base +:+ ".mp4") w = (w', Ok ()) ∧ ss_gif (w_ss w') = Some (base +:+ ".gif") ∧
  w_fs w' !! (base +:+ ".gif") = w_fs w !! (base +:+ ".mp4") ≫= ffmpeg_transcode [] ∧
  ∀ p, p ≠ base +:+ ".gif" → w_fs w' !! p = w_fs w !! p.
Proof.
  intros Hocc Ho w'. pose proof (gif_export_fs _ w Ho) as Hfs. rewrite py_replace_mp4 in Hfs by done.
  assert (base +:+ ".mp4" ≠ base +:+ ".gif") as Hne by (intros ?%str_app_inv_l; done).
  destruct (ffmpeg_exec_fresh _ [] _ (w_fs w) Hne) as [H1 H2]. rewrite <- Hfs in H1, H2.
  split; [subst w'; rewrite gif_export_run; reflexivity|].
  split; [|done]. subst w'. rewrite gif_export_run, py_replace_mp4 by done. reflexivity.
Qed.

(** The GIF view shows the file the session names, base64-encoded. *)
Lemma gif_view_run w g c :
  ss_gif (w_ss w) = Some g → w_fs w !! g = Some c →
  gif_view w = (mk_world (w_ss w) (w_fs w) (w_page w ++ [Markdown (gif_img (b64encode c))]) (w_draws w),
                Ok ()).
Proof.
  intros Hg Hc. unfold gif_view. rewrite app_bind_run. simpl. rewrite Hg.
  unfold path_exists. rewrite app_bind_run. simpl. rewrite Hc. simpl.
  unfold read_file. rewrite app_bind_run. simpl. by rewrite Hc.
Qed.

End GifFacts.

Section Claims.
Context `{System}.

(** C5: [draw_text_on_video] on a table whose rows all have a text and
    integer times, the texts free of the characters the shell reads inside
    double quotes, and input and output names that need no quoting: it
    returns normally, the output file is what ffmpeg makes of the input with
    [-vf J] for the joined drawtext filters [J] (the graph of C3), and no
    other file, no session key and no message changes. *)
Theorem draw_text_on_video_output df anns inp out w :
  table_annotations df = Some anns → forallb (λ a, str_forall dq_char a.1) anns = true →
  plain_word inp = true → plain_word out = true → inp ≠ out →
  ∃ J w', draw_text_joined df = Ok J ∧ draw_text_on_video df inp out w = (w', Ok ()) ∧
          writes_only w w' inp ["-vf"; J] out.
Proof.
  intros Ha Hs Hi Ho Hne. destruct (draw_text_joined_dq df anns Ha Hs) as (strs & E & Hq).
  eexists _, _. split; [unfold draw_text_joined; by rewrite E|].
  rewrite draw_text_on_video_run, E. split; [reflexivity|].
  eapply system_fresh; [done|by apply draw_text_command_argv|reflexivity].
Qed.

(** C4: [trim_video] on a table whose rows all have integer times, with
    input and output names that need no quoting: the output file is what
    ffmpeg makes of the input with [-vf trim_vf J -af trim_af J] for the
    joined [between] terms [J] (the filters of C1 and C2), and nothing else
    changes. *)
Theorem trim_video_output df ivs inp out w :
  table_intervals df = Some ivs → plain_word inp = true → plain_word out = true → inp ≠ out →
  ∃ J w', trim_joined df = Ok J ∧ trim_video df inp out w = (w', Ok ()) ∧
          writes_only w w' inp ["-vf"; trim_vf J; "-af"; trim_af J] out.
Proof.
  intros Hiv Hi Ho Hne. destruct (trim_joined_dq df ivs Hiv) as (strs & E & Hq).
  eexists _, _. split; [unfold trim_joined; by rewrite E|].
  rewrite trim_video_run, E. split; [reflexivity|].
  eapply system_fresh; [done|by apply trim_command_argv|reflexivity].
Qed.

(** C9: a handler whose builder loop raises leaves the world exactly as
    it was: the exception is raised before the old output is removed. *)
Theorem handlers_fail_untouched df inp out w e :
  (draw_text_on_video df inp out w = (w, Exc e) ↔ drawtext_strings df = Exc e) ∧
  (trim_video df inp out w = (w, Exc e) ↔ between_strings df = Exc e).
Proof.
  rewrite draw_text_on_video_run, trim_video_run.
  split; [destruct (drawtext_strings df)|destruct (between_strings df)];
    split; intros Heq; simplify_eq; done.
Qed.

(** C7: GIF export of an output name without [".mp4"]: [str.replace]
    leaves the name as it is, so the export deletes the output video itself,
    ffmpeg finds no input, and the page still reports the GIF created. *)
Theorem gif_export_deletes_video out w :
  occurs ".mp4" out = false → plain_word out = true →
  ∃ w', gif_export out w = (w', Ok ()) ∧ w_fs w' = delete out (w_fs w) ∧
        w_page w' = w_page w ++ [Success ("GIF file " +:+ out +:+ " created successfully!")] ∧
        ss_gif (w_ss w') = Some out.
Proof.
  intros Hocc Ho. pose proof (gif_export_fs out w Ho) as Hfs.
  assert (py_replace out ".mp4" ".gif" = out) as Hr by (by apply replace_go_no_occurrence).
  rewrite Hr in Hfs. exists (gif_export out w).1.
  split; [rewrite gif_export_run; reflexivity|].
  split; [rewrite Hfs; unfold ffmpeg_exec; by rewrite lookup_delete_eq|].
  rewrite gif_export_run, Hr. done.
Qed.

(** C12: GIF export of [base.mp4] ([base] without [".mp4"]) writes what
    ffmpeg makes of the video to [base.gif], records [base.gif] in the
    session, and changes no other file. *)
Theorem gif_export_mp4 base w :
  occurs ".mp4" base = false → plain_word (base +:+ ".mp4") = true →
  ∃ w', gif_export (base +:+ ".mp4") w = (w', Ok ()) ∧ ss_gif (w_ss w') = Some (base +:+ ".gif") ∧
        w_fs w' !! (base +:+ ".gif") = w_fs w !! (base +:+ ".mp4") ≫= ffmpeg_transcode [] ∧
        ∀ p, p ≠ base +:+ ".gif" → w_fs w' !! p = w_fs w !! p.
Proof. intros Hocc Ho. eexists. by apply gif_export_mp4_effect. Qed.

(** C8: the processing button reports success whatever ffmpeg does: when
    ffmpeg rejects the trim filters (as it does the [not()] an empty
    table gives), the old output is gone, no new one is written, and the
    page still says the video was created. *)
Theorem trim_click_failure_reported df inp out w J m :
  trim_joined df = Ok J → str_forall dq_char J = true →
  plain_word inp = true → plain_word out = true → inp ≠ out →
  w_fs w !! inp = Some m → ffmpeg_transcode ["-vf"; trim_vf J; "-af"; trim_af J] m = None →
  ∃ w', process_click PTrim df inp out w = (w', Ok ()) ∧ w_fs w' = delete out (w_fs w) ∧
        w_page w' = w_page w ++ [Success ("Video file " +:+ out +:+ " created successfully!")].
Proof.
  intros HJ Hq Hi Ho Hne Hm Ht. unfold trim_joined in HJ.
  destruct (between_strings df) as [strs|] eqn:E; [|done]. injection HJ as <-.
  unfold process_click, run_process. rewrite app_bind_run, trim_video_run, E.
  eexists; split; [reflexivity|]. split; [|done]. simpl.
  erewrite system_ffmpeg; [|by apply trim_command_argv|reflexivity].
  unfold ffmpeg_exec. cbn [removelast]. rewrite lookup_delete_ne, lookup_delete_eq, Hm, Ht by done. done.
Qed.

(** C19: exporting the GIF of [base.mp4] and then opening the view shows
    an image whose data URL decodes to exactly the GIF ffmpeg wrote: the
    export, the session key, the file read and the base64 encoding fit
    together. *)
Theorem gif_export_view_shows_gif base w m g :
  occurs ".mp4" base = false → plain_word (base +:+ ".mp4") = true →
  w_fs w !! (base +:+ ".mp4") = Some m → ffmpeg_transcode [] m = Some g →
  ∃ w' data_url, (gif_export (base +:+ ".mp4");; gif_view) w = (w', Ok ()) ∧
    last (w_page w') = Some (Markdown (gif_img data_url)) ∧ b64decode data_url = Some g.
Proof.
  intros Hocc Ho Hm Ht. destruct (gif_export_mp4_effect base w) as (Hrun & Hss & Hgif & _); [done..|].
  rewrite Hm in Hgif. simpl in Hgif. rewrite Ht in Hgif.
  rewrite app_bind_run, Hrun, (gif_view_run _ _ _ Hss Hgif).
  eexists _, _. split; [reflexivity|]. split; [cbn [w_page]; by rewrite last_snoc|].
  apply b64decode_encode.
Qed.

(** C13: file names are interpolated unquoted into the shell command: for
    an output name [a b] with a blank, [draw_text_on_video] deletes the file
    [a b] and runs a command that the shell splits after [a], so ffmpeg
    receives [a] and [b] as two arguments, an option list of odd length
    that names no output [a b]: the file the user typed is never
    written. *)
Theorem output_name_with_space_splits df anns inp a b w :
  table_annotations df = Some anns → forallb (λ a, str_forall dq_char a.1) anns = true →
  plain_word inp = true → plain_word a = true → plain_word b = true →
  ∃ J cmd, draw_text_joined df = Ok J ∧
    draw_text_on_video df inp (a +:+ " " +:+ b) w =
      (set_fs w (system cmd (delete (a +:+ " " +:+ b) (w_fs w))), Ok ()) ∧
    sh_words cmd = Some ["ffmpeg"; "-i"; inp; "-vf"; J; a; b] ∧
    ffmpeg_argv ["ffmpeg"; "-i"; inp; "-vf"; J; a; b] = None.
Proof.
  intros Ha Hs Hi Hpa Hpb. destruct (draw_text_joined_dq df anns Ha Hs) as (strs & E & Hq).
  eexists _, _. split; [unfold draw_text_joined; by rewrite E|].
  rewrite draw_text_on_video_run, E. split; [reflexivity|]. split.
  - unfold draw_text_command, dq. sh_split.
  - unfold ffmpeg_argv. by rewrite decide_True.
Qed.

(** C18: the GIF view shows the file the session names as an inline image
    whose data URL decodes to exactly that file's bytes, and is made of
    base64 characters only, so no file content can end the [src] attribute
    of the HTML the page renders. *)
Theorem gif_view_data_url w g c :
  ss_gif (w_ss w) = Some g → w_fs w !! g = Some c →
  ∃ data_url,
    gif_view w = (mk_world (w_ss w) (w_fs w) (w_page w ++ [Markdown (gif_img data_url)]) (w_draws w), Ok ()) ∧
    b64decode data_url = Some c ∧ str_forall b64_alphabet_char data_url = true.
Proof.
  intros Hg Hc. exists (b64encode c). split; [by apply (gif_view_run w g c)|].
  split; [apply b64decode_encode|apply b64encode_alphabet].
Qed.

End Claims.


Definition is_digit (c : ascii) : bool := bool_decide (is_Some (digit_val c)).

(** A key of the form [random_10_digit_string] makes. *)
Definition random_ok (r : string) : Prop := String.length r = 10%nat ∧ str_forall is_digit r = true.

Lemma py_str_int_digit d :
  (0 ≤ d ≤ 9)%Z → String.length (py_str_int d) = 1%nat ∧ str_forall is_digit (py_str_int d) = true.
Proof.
  intros Hd. assert (d = 0 ∨ d = 1 ∨ d = 2 ∨ d = 3 ∨ d = 4 ∨ d = 5 ∨ d = 6 ∨ d = 7 ∨ d = 8 ∨ d = 9)%Z
    as Hc by lia.
  repeat destruct Hc as [->|Hc]; [..|subst]; split; reflexivity.
Qed.

Lemma concat_digits ds :
  Forall (λ s, String.length s = 1%nat ∧ str_forall is_digit s = true) ds →
  String.length (String.concat "" ds) = length ds ∧ str_forall is_digit (String.concat "" ds) = true.
Proof.
  induction 1 as [|x ds [Hl Hx] Hds IH]; [done|].
  destruct ds as [|y ds]; [simpl; rewrite Hl, Hx; done|].
  change (String.concat "" (x :: y :: ds)) with (x +:+ String.concat "" (y :: ds)).
  rewrite str_length_app, str_forall_app, Hl, Hx, (proj1 IH), (proj2 IH). done.
Qed.

Section Session.
Context `{System}.
Context (randint : nat → Z) (read_csv : string → fsys → res frame).
Hypothesis randint_digit : ∀ n, (0 ≤ randint n ≤ 9)%Z.

(** A table held in the session is the default one or one [pd.read_csv] returned. *)
Definition table_origin (default_df : frame) (o : option frame) : Prop :=
  ∀ df, o = Some df → df = default_df ∨ ∃ p fs, read_csv p fs = Ok df.

(** The session invariant: the editor key is ten decimal digits, and the
    two tables are defaults or loaded files; edits made in the editor never
    reach the session. *)
Definition session_inv (ss : session) : Prop :=
  (∀ r, ss_random ss = Some r → random_ok r) ∧
  table_origin get_default_annotation_data (ss_annotations ss) ∧
  table_origin get_default_trimming_data (ss_trimmings ss).

Lemma hoare_randint I : hoare I (randint_0_9 randint) (λ d, 0 ≤ d ≤ 9)%Z.
Proof using randint_digit. intros w Hw. split; [done|]. intros x [= <-]. apply randint_digit. Qed.

Lemma hoare_draw_digits I n :
  hoare I (draw_digits randint n)
    (λ ds, length ds = n ∧ Forall (λ s, String.length s = 1%nat ∧ str_forall is_digit s = true) ds).
Proof using randint_digit.
  induction n as [|n IH]; simpl; [by apply hoare_ret|].
  eapply hoare_bind; [apply hoare_randint|]. intros d Hd.
  eapply hoare_bind; [apply IH|]. intros ds [Hl Hds]. apply hoare_ret.
  split; [simpl; congruence|]. constructor; [by apply py_str_int_digit|done].
Qed.

(** The digits drawn from the [n]-th draw on. *)
Definition drawn_digits (n k : nat) : list string :=
  map (λ i, py_str_int (randint (n + i))) (seq 0 k).

Lemma draw_digits_run k w :
  draw_digits randint k w =
  (mk_world (w_ss w) (w_fs w) (w_page w) (w_draws w + k), Ok (drawn_digits (w_draws w) k)).
Proof.
  revert w. induction k as [|k IH]; intros [ss fs page n]; [simpl; by rewrite Nat.add_0_r|].
  cbn [draw_digits]. rewrite app_bind_run. simpl. rewrite app_bind_run, IH. simpl.
  unfold drawn_digits, mret, app_ret. cbn [seq map]. rewrite <- seq_shift, map_map.
  rewrite Nat.add_0_r, Nat.add_succ_r. do 3 f_equal. apply map_ext. intros i. by rewrite Nat.add_succ_r.
Qed.

(** [random_10_digit_string] draws ten digits and changes nothing else. *)
Lemma random_run w :
  random_10_digit_string randint w =
  (mk_world (w_ss w) (w_fs w) (w_page w) (w_draws w + 10),
   Ok (String.concat "" (drawn_digits (w_draws w) 10))).
Proof. unfold random_10_digit_string. rewrite app_bind_run, draw_digits_run. reflexivity. Qed.

Lemma hoare_random I : hoare I (random_10_digit_string randint) random_ok.
Proof using randint_digit.
  eapply hoare_bind; [apply hoare_draw_digits|]. intros ds [Hl Hds]. apply hoare_ret.
  unfold random_ok. rewrite <- Hl. by apply concat_digits.
Qed.

Lemma hoare_read_csv I f :
  hoare I (pd_read_csv read_csv f) (λ df, ∃ p fs, read_csv p fs = Ok df).
Proof.
  intros w Hw. split; [done|]. intros x Hx. simpl in Hx.
  destruct f as [p|]; [by exists p, (w_fs w)|done].
Qed.

Lemma session_inv_random ss r : random_ok r → session_inv ss → session_inv (set_random r ss).
Proof. intros Hr (H1 & H2 & H3). split_and!; [|done|done]. by intros ? [= <-]. Qed.

Lemma session_inv_function ss f : session_inv ss → session_inv (set_function f ss).
Proof. done. Qed.

Lemma session_inv_gif ss g : session_inv ss → session_inv (set_gif g ss).
Proof. done. Qed.

Lemma session_inv_annotations ss df :
  (df = get_default_annotation_data ∨ ∃ p fs, read_csv p fs = Ok df) →
  session_inv ss → session_inv (set_annotations df ss).
Proof. intros Hdf (H1 & H2 & H3). split_and!; [done| |done]. by intros ? [= <-]. Qed.

Lemma session_inv_trimmings ss df :
  (df = get_default_trimming_data ∨ ∃ p fs, read_csv p fs = Ok df) →
  session_inv ss → session_inv (set_trimmings df ss).
Proof. intros Hdf (H1 & H2 & H3). split_and!; [done|done|]. by intros ? [= <-]. Qed.

#[local] Hint Resolve session_inv_random session_inv_function session_inv_gif
  session_inv_annotations session_inv_trimmings : hoare.

(** Symbolic execution of a script fragment in the Hoare logic: the
    conditions are split first, then each bind is stepped with the rule of
    its first operation. *)
Ltac hoare_tac :=
  repeat match goal with
  | |- hoare _ ((if ?b then _ else _) ≫= _) _ => destruct b
  | |- hoare _ ((match ?o with _ => _ end) ≫= _) _ => destruct o
  | |- hoare _ (if ?b then _ else _) _ => destruct b
  | |- hoare _ (match ?o with _ => _ end) _ => destruct o
  | |- hoare _ (get_ss ≫= _) _ => eapply hoare_bind; [apply hoare_get|intros ? ?]
  | |- hoare _ (random_10_digit_string _ ≫= _) _ =>
      eapply hoare_bind; [apply hoare_random|intros ? ?]
  | |- hoare _ (pd_read_csv _ _ ≫= _) _ => eapply hoare_bind; [apply hoare_read_csv|intros ? ?]
  | |- hoare _ (lift _ ≫= _) _ => eapply hoare_bind; [apply hoare_lift|intros ? ?]
  | |- hoare _ (mret _ ≫= _) _ => rewrite app_ret_bind
  | |- hoare _ (_ ≫= _) _ => apply (hoare_bind _ _ _ (λ _, True)); [|intros ? _]
  | |- hoare _ (modify_ss _) _ => apply hoare_modify; intros; eauto with hoare
  | |- hoare _ (mret _) _ => apply hoare_ret
  | |- hoare _ (throw _) _ => hoare_frame_tac
  | |- hoare _ (st_video _) _ => hoare_frame_tac
  | |- hoare _ (st_markdown _) _ => hoare_frame_tac
  | |- hoare _ (read_file _) _ => hoare_frame_tac
  | |- hoare _ (path_exists _) _ => hoare_frame_tac
  end.

Lemma hoare_table_section u key get set default_df label pf
    (Hset : ∀ ss df, (df = default_df ∨ ∃ p fs, read_csv p fs = Ok df) →
                     session_inv ss → session_inv (set df ss)) :
  hoare session_inv (table_section randint read_csv u key get set default_df label pf) (λ _, True).
Proof using randint_digit.
  unfold table_section. hoare_tac; try done; apply Hset; try done; first [left; done|right; done].
Qed.

Lemma hoare_text_section u :
  hoare session_inv (text_annotation_section randint read_csv u) (λ _, True).
Proof using randint_digit.
  unfold text_annotation_section, trimming_section. apply hoare_table_section. intros. eauto with hoare.
Qed.

Lemma hoare_trimming_section u :
  hoare session_inv (trimming_section randint read_csv u) (λ _, True).
Proof using randint_digit.
  unfold text_annotation_section, trimming_section. apply hoare_table_section. intros. eauto with hoare.
Qed.

Lemma hoare_process_click pf df inp out : hoare session_inv (process_click pf df inp out) (λ _, True).
Proof.
  apply hoare_frame. intros w. unfold process_click, run_process. rewrite app_bind_run.
  destruct pf; [rewrite draw_text_on_video_run; destruct (drawtext_strings df)
               |rewrite trim_video_run; destruct (between_strings df)]; done.
Qed.

Lemma hoare_gif_export out : hoare session_inv (gif_export out) (λ _, True).
Proof. intros w Hw. rewrite gif_export_run. split; [by apply session_inv_gif|done]. Qed.

Lemma main_run_session_inv u : hoare session_inv (main_run randint read_csv u) (λ _, True).
Proof using randint_digit.
  unfold main_run, output_column, show_if_exists, gif_view. cbv zeta. hoare_tac; try done;
    auto using hoare_text_section, hoare_trimming_section, hoare_process_click, hoare_gif_export.
Qed.

(** The worlds a session can reach: a fresh session on any files, then
    runs of the script, whatever their outcome, and changes to the files
    made outside the application. *)
Inductive reachable : world → Prop :=
  | reach_start fs : reachable (mk_world empty_session fs [] 0)
  | reach_run u w : reachable w → reachable (main_run randint read_csv u w).1
  | reach_files w fs : reachable w → reachable (set_fs w fs).

(** C6: in every reachable world the editor key in [st.session_state] is
    ten decimal digits, and the tables in [st.session_state] are the
    defaults or tables read from CSV files: a run that raises keeps the
    invariant too, and the edits made in the data editor never reach the
    session state. *)
Theorem reachable_session_inv w : reachable w → session_inv (w_ss w).
Proof using randint_digit.
  induction 1 as [fs|u w _ IH|w fs _ IH].
  - split_and!; intros ? ?; discriminate.
  - by apply main_run_session_inv.
  - done.
Qed.

(** ** Recovering the default table *)

(** [eventually P w]: some sequence of runs of the script, each with
    widget values the user chooses, leads from [w] to a world in [P]. *)
Inductive eventually (P : world → Prop) : world → Prop :=
  | ev_now w : P w → eventually P w
  | ev_run u w : eventually P (main_run randint read_csv u w).1 → eventually P w.

(** The widget values of a run that reloads the default annotation table:
    the 'Text annotation' function, 'Use existing annotation file' off, the
    'Load initial annotation data' button clicked, no other button. *)
Definition reset_ui (inp out : string) : ui :=
  mk_ui inp (Some "Text annotation") false None true (λ _ df, df) out false false.

Lemma drawn_digits_ok n : random_ok (String.concat "" (drawn_digits n 10)).
Proof using randint_digit.
  destruct (concat_digits (drawn_digits n 10)) as [Hl Hd].
  { apply Forall_fmap, Forall_forall. intros i _. apply py_str_int_digit, randint_digit. }
  split; [|done]. rewrite Hl. unfold drawn_digits. by rewrite length_map, length_seq.
Qed.

(** Symbolic run of [main] with the randomness kept folded. *)
Ltac run_simpl := cbn -[random_10_digit_string drawn_digits get_default_annotation_data].

(** The reset run, whatever the session and the files hold: it returns
    normally, selects 'Text annotation', holds the default table and a key
    of ten fresh draws. *)
Lemma main_run_reset w inp out :
  let w' := (main_run randint read_csv (reset_ui inp out) w).1 in
  (main_run randint read_csv (reset_ui inp out) w).2 = Ok () ∧
  ss_function (w_ss w') = Some "Text annotation" ∧
  ss_annotations (w_ss w') = Some get_default_annotation_data ∧
  ∃ n, ss_random (w_ss w') = Some (String.concat "" (drawn_digits n 10)).
Proof.
  destruct w as [[f r a t g] fs page n].
  unfold main_run, output_column, show_if_exists, gif_view, text_annotation_section, table_section,
    modify_ss, get_ss, put_ss, lift, st_video, st_markdown, path_exists,
    read_file, mbind, mret, app_bind, app_ret, ss_get, set_ss.
  destruct f, r, a, g; run_simpl; rewrite decide_True by done; run_simpl;
    repeat (rewrite random_run; run_simpl);
    repeat match goal with
    | Hl : ?m !! ?k = _ |- context [?m !! ?k] => rewrite Hl; run_simpl
    | |- context [?m !! ?k] => destruct (m !! k) eqn:?; run_simpl
    | |- context [bool_decide ?P] => case_bool_decide; run_simpl
    end; split_and!; try done; eauto.
Qed.

(** C20: from every world the user can get the default annotation table
    back: one run with the load button reaches a world whose session
    selects 'Text annotation', holds the default table, and has a valid
    editor key, whatever the session, the files and the earlier outputs. *)
Theorem default_table_recoverable w :
  eventually (λ w', ss_function (w_ss w') = Some "Text annotation" ∧
                    ss_annotations (w_ss w') = Some get_default_annotation_data ∧
                    ∃ r, ss_random (w_ss w') = Some r ∧ random_ok r) w.
Proof using randint_digit.
  apply (ev_run _ (reset_ui "input.mp4" "output.mp4")), ev_now.
  destruct (main_run_reset w "input.mp4" "output.mp4") as (_ & Hf & Ha & k & Hr).
  split_and!; [done|done|]. eexists; split; [done|]. apply drawn_digits_ok.
Qed.

End Session.

(** ** End-to-end runs that reach the process button *)

(** A run whose session already holds the function, the editor key and the
    table is [process_click] on the edited table followed by
    [output_column] ([main_run_click]); a handler that writes only the
    output file makes the whole run do so ([main_run_click_writes]).  C21
    and C22 compose the controller, the section, the handler with its shell
    command and ffmpeg, and the output column; C23 and C24 follow a run to
    the exception that ends it. *)

Section EndToEnd.
Context `{System}.
Context (randint : nat → Z) (read_csv : string → fsys → res frame).

Lemma table_section_ready u key get set default_df label pf df r w :
  ss_random (w_ss w) = Some r → get (w_ss w) = Some df → ui_load u = false →
  table_section randint read_csv u key get set default_df label pf w = (w, Ok (df, label, pf)).
Proof.
  intros Hr Hg Hl. unfold table_section, modify_ss, get_ss, put_ss, lift, ss_get, mbind, mret, app_bind, app_ret.
  cbn -[random_10_digit_string]. rewrite Hr, Hg, Hl. cbn -[random_10_digit_string]. rewrite Hg. done.
Qed.

Lemma output_column_no_gif u out w :
  ui_gif u = false →
  ∃ pg, output_column u out w = (mk_world (w_ss w) (w_fs w) (w_page w ++ pg) (w_draws w), Ok ()).
Proof.
  intros Hg. unfold output_column, show_if_exists, gif_view, path_exists, st_video, st_markdown, read_file,
    get_ss, mbind, mret, app_bind, app_ret. rewrite Hg. destruct w as [ss fs page n]. cbn.
  case_bool_decide; cbn; (destruct (ss_gif ss) as [g|]; cbn; [case_bool_decide; cbn|]);
    try (destruct (fs !! g) eqn:?; cbn; [|by match goal with Hs : is_Some _ |- _ => destruct Hs; congruence end]);
    first [eexists; rewrite <- ?app_assoc; reflexivity | exists []; by rewrite app_nil_r].
Qed.

(** The table and process function the section selected by [function]
    returns when its table is already in the session (lines 136-143). *)
Definition section_table (f : string) (ss : session) : option (frame * process_fn) :=
  if decide (f = "Text annotation") then (λ df, (df, PDrawText)) <$> ss_annotations ss
  else if decide (f = "Trimming") then (λ df, (df, PTrim)) <$> ss_trimmings ss
  else None.

Lemma set_function_same f ss : ss_function ss = Some f → set_function f ss = ss.
Proof. destruct ss; simpl. by intros ->. Qed.

(** The world [main] hands to the process button: the input video shown. *)
Definition shown_input (u : ui) (w : world) : world :=
  mk_world (w_ss w) (w_fs w) (w_page w ++ [Video (ui_input u)]) (w_draws w).

(** A load from a CSV that fails (no file listed, or one pandas cannot
    read) raises before the table or the key is stored. *)
Lemma table_section_load_fails u key get set default_df label pf r df w e :
  ss_random (w_ss w) = Some r → get (w_ss w) = Some df → ui_load u = true → ui_use_existing u = true →
  (match ui_csv u with Some p => read_csv p (w_fs w) | None => Exc ValueError end) = Exc e →
  table_section randint read_csv u key get set default_df label pf w = (w, Exc e).
Proof.
  intros Hr Hg Hl Hu He.
  unfold table_section, modify_ss, get_ss, put_ss, lift, ss_get, pd_read_csv, mbind, mret, app_bind, app_ret.
  cbn -[random_10_digit_string]. rewrite Hr, Hg, Hl, Hu. cbn -[random_10_digit_string]. by rewrite He.
Qed.

(** The start of a run whose session already selects [f]: the input video
    shown, the function kept, and the section of [f] reached with its
    table [df]. *)
Ltac main_prefix Hf Hu Hs :=
  unfold main_run, get_ss, modify_ss, put_ss, lift, ss_get, mbind, app_bind;
  cbn -[text_annotation_section trimming_section output_column process_click];
  rewrite Hf; cbn -[text_annotation_section trimming_section output_column process_click];
  rewrite Hf;
  match goal with
  | |- context [default ?f (ui_function ?u)] =>
      replace (default f (ui_function u)) with f by (by destruct Hu as [-> | ->])
  end;
  rewrite set_function_same by done; unfold section_table in Hs;
  unfold text_annotation_section, trimming_section;
  case_decide; [|case_decide; [|done]]; destruct (_ <$> _) as [?df|] eqn:E in Hs; simplify_eq;
    apply fmap_Some in E as (? & E & [= <- <-]).

Lemma main_run_click u w f key df pf :
  ss_function (w_ss w) = Some f → (ui_function u = None ∨ ui_function u = Some f) →
  ss_random (w_ss w) = Some key → ui_load u = false → ui_process u = true →
  section_table f (w_ss w) = Some (df, pf) →
  main_run randint read_csv u w =
  (process_click pf (ui_editor u key df) (ui_input u) (ui_output u);; output_column u (ui_output u))
    (shown_input u w).
Proof.
  intros Hf Hu Hr Hl Hp Hs. main_prefix Hf Hu Hs;
    (rewrite (table_section_ready _ _ _ _ _ _ _ df key); [|done..]);
    cbn -[output_column process_click]; rewrite Hr, Hp; reflexivity.
Qed.


(** A click whose handler writes only the output file: the run returns
    normally, keeps the session, writes the output as the handler does,
    and the page reports the video created. *)
Lemma main_run_click_writes u w f key df pf opts :
  ss_function (w_ss w) = Some f → (ui_function u = None ∨ ui_function u = Some f) →
  ss_random (w_ss w) = Some key → ui_load u = false → ui_process u = true → ui_gif u = false →
  section_table f (w_ss w) = Some (df, pf) →
  (run_process pf (ui_editor u key df) (ui_input u) (ui_output u) (shown_input u w)).2 = Ok () →
  writes_only (shown_input u w) (run_process pf (ui_editor u key df) (ui_input u) (ui_output u) (shown_input u w)).1
    (ui_input u) opts (ui_output u) →
  ∃ w', main_run randint read_csv u w = (w', Ok ()) ∧ w_ss w' = w_ss w ∧
        w_fs w' !! ui_output u = w_fs w !! ui_input u ≫= ffmpeg_transcode opts ∧
        (∀ p, p ≠ ui_output u → w_fs w' !! p = w_fs w !! p) ∧
        Success ("Video file " +:+ ui_output u +:+ " created successfully!") ∈ w_page w'.
Proof.
  intros Hf Hu Hr Hl Hp Hg Hs Hok (Hss & Hpg & Hout & Hoth).
  rewrite (main_run_click u w f key df pf) by done.
  unfold process_click. rewrite !app_bind_run.
  destruct (run_process _ _ _ _ _) as [w2 r2]. simpl in Hok, Hss, Hpg, Hout, Hoth. subst r2.
  unfold st_success. cbv beta iota.
  destruct (output_column_no_gif u (ui_output u) (mk_world (w_ss w2) (w_fs w2) (w_page w2 ++
    [Success ("Video file " +:+ ui_output u +:+ " created successfully!")]) (w_draws w2)) Hg) as [pg ->].
  eexists. split; [reflexivity|]. simpl. split_and!; [done|done|done|].
  rewrite <- app_assoc. apply elem_of_app. right. by left.
Qed.

(** C21: the scenario of the spec's section 8, through one run of [main]:
    with 'Text annotation' selected, its table and editor key in the
    session, no load and the process button clicked, the run returns
    normally, keeps the session, writes to the output path exactly what
    ffmpeg makes of the input with [-vf J] for the drawtext graph [J] of the
    edited table (C3), changes no other file, and reports the video
    created. *)
Theorem main_run_draw_text_end_to_end u w key df anns :
  ss_function (w_ss w) = Some "Text annotation" →
  (ui_function u = None ∨ ui_function u = Some "Text annotation") →
  ss_random (w_ss w) = Some key → ss_annotations (w_ss w) = Some df →
  ui_load u = false → ui_process u = true → ui_gif u = false →
  table_annotations (ui_editor u key df) = Some anns → forallb (λ a, str_forall dq_char a.1) anns = true →
  plain_word (ui_input u) = true → plain_word (ui_output u) = true → ui_input u ≠ ui_output u →
  ∃ J, draw_text_joined (ui_editor u key df) = Ok J ∧
  ∃ w', main_run randint read_csv u w = (w', Ok ()) ∧ w_ss w' = w_ss w ∧
        w_fs w' !! ui_output u = w_fs w !! ui_input u ≫= ffmpeg_transcode ["-vf"; J] ∧
        (∀ p, p ≠ ui_output u → w_fs w' !! p = w_fs w !! p) ∧
        Success ("Video file " +:+ ui_output u +:+ " created successfully!") ∈ w_page w'.
Proof.
  intros Hf Hu Hr Hd Hl Hp Hg Ha Hs Hi Ho Hne.
  destruct (draw_text_joined_dq _ anns Ha Hs) as (strs & E & Hq).
  eexists. split; [unfold draw_text_joined; by rewrite E|].
  apply (main_run_click_writes u w "Text annotation" key df PDrawText); try done.
  - unfold section_table. by rewrite decide_True, Hd.
  - cbn [run_process]. by rewrite draw_text_on_video_run, E.
  - cbn [run_process]. rewrite draw_text_on_video_run, E.
    eapply system_fresh; [done|by apply draw_text_command_argv|reflexivity].
Qed.

(** C22: the same run with 'Trimming' selected writes what ffmpeg makes of
    the input with the [select]/[aselect] filters of the edited table's
    intervals (C1, C2), and nothing else. *)
Theorem main_run_trim_end_to_end u w key df ivs :
  ss_function (w_ss w) = Some "Trimming" →
  (ui_function u = None ∨ ui_function u = Some "Trimming") →
  ss_random (w_ss w) = Some key → ss_trimmings (w_ss w) = Some df →
  ui_load u = false → ui_process u = true → ui_gif u = false →
  table_intervals (ui_editor u key df) = Some ivs →
  plain_word (ui_input u) = true → plain_word (ui_output u) = true → ui_input u ≠ ui_output u →
  ∃ J, trim_joined (ui_editor u key df) = Ok J ∧
  ∃ w', main_run randint read_csv u w = (w', Ok ()) ∧ w_ss w' = w_ss w ∧
        w_fs w' !! ui_output u =
          w_fs w !! ui_input u ≫= ffmpeg_transcode ["-vf"; trim_vf J; "-af"; trim_af J] ∧
        (∀ p, p ≠ ui_output u → w_fs w' !! p = w_fs w !! p) ∧
        Success ("Video file " +:+ ui_output u +:+ " created successfully!") ∈ w_page w'.
Proof.
  intros Hf Hu Hr Hd Hl Hp Hg Hiv Hi Ho Hne.
  destruct (trim_joined_dq _ ivs Hiv) as (strs & E & Hq).
  eexists. split; [unfold trim_joined; by rewrite E|].
  apply (main_run_click_writes u w "Trimming" key df PTrim); try done.
  - unfold section_table. by rewrite decide_False, decide_True, Hd.
  - cbn [run_process]. by rewrite trim_video_run, E.
  - cbn [run_process]. rewrite trim_video_run, E.
    eapply system_fresh; [done|by apply trim_command_argv|reflexivity].
Qed.

(** C23: the error path of the same run: when the edited annotation table
    has rows but no ['Text'] column (a CSV of another table), the run
    raises [KeyError('Text')] from the builder loop; its only effect is the
    input video shown: no file is removed or written, no session key
    changes, and no success message is shown. *)
Theorem main_run_missing_text_raises u w key df r rs :
  ss_function (w_ss w) = Some "Text annotation" →
  (ui_function u = None ∨ ui_function u = Some "Text annotation") →
  ss_random (w_ss w) = Some key → ss_annotations (w_ss w) = Some df →
  ui_load u = false → ui_process u = true →
  col_text ∉ columns (ui_editor u key df) → rows (ui_editor u key df) = r :: rs →
  main_run randint read_csv u w = (shown_input u w, Exc (KeyError col_text)).
Proof.
  intros Hf Hu Hr Hd Hl Hp Hc Hrs.
  rewrite (main_run_click u w "Text annotation" key df PDrawText) by
    (done || (unfold section_table; by rewrite decide_True, Hd)).
  unfold process_click. rewrite !app_bind_run. cbn [run_process].
  by rewrite draw_text_on_video_run, (drawtext_strings_missing_text _ r rs).
Qed.

(** C24: a load that fails leaves the session as it was: when the user
    asks to load an existing CSV and none is listed ([pd.read_csv(None)]
    raises [ValueError]) or pandas cannot read it, the run raises that
    exception with the selected function, its table and the editor key
    unchanged, no file touched, and only the input video shown. *)
Theorem main_run_load_failure_keeps_session u w f df pf key e :
  ss_function (w_ss w) = Some f → (ui_function u = None ∨ ui_function u = Some f) →
  ss_random (w_ss w) = Some key → section_table f (w_ss w) = Some (df, pf) →
  ui_load u = true → ui_use_existing u = true →
  (match ui_csv u with Some p => read_csv p (w_fs w) | None => Exc ValueError end) = Exc e →
  main_run randint read_csv u w = (shown_input u w, Exc e).
Proof.
  intros Hf Hu Hr Hs Hl He Hc. main_prefix Hf Hu Hs;
    (rewrite (table_section_load_fails _ _ _ _ _ _ _ key df _ e); [|done..]); reflexivity.
Qed.

End EndToEnd.

(** ** Witnesses on concrete worlds *)

Section Witnesses.

(** An ffmpeg that rejects a [not()] expression and otherwise records the
    options it ran with. *)
#[local] Instance demo_ffmpeg : Ffmpeg :=
  λ opts m, if existsb (occurs "not()") opts then None else Some (String.concat " " opts +:+ "|" +:+ m).

Definition demo_world (fs : fsys) : world := mk_world empty_session fs [] 0.

Definition demo_ui : ui :=
  mk_ui "in.mp4" None false None false (λ _ df, df) "out.mp4" false false.

Lemma draw_text_on_video_output_witness :
  table_annotations get_default_annotation_data = Some [("Sample text", (5, 10))%Z] ∧
  ∃ J w', draw_text_joined get_default_annotation_data = Ok J ∧
          draw_text_on_video get_default_annotation_data "in.mp4" "out.mp4"
            (demo_world {["in.mp4" := "V"]}) = (w', Ok ()) ∧
          writes_only (demo_world {["in.mp4" := "V"]}) w' "in.mp4" ["-vf"; J] "out.mp4".
Proof.
  split; [reflexivity|].
  apply (draw_text_on_video_output _ [("Sample text", (5, 10))%Z]);
    [reflexivity|reflexivity|reflexivity|reflexivity|done].
Defined.

Lemma trim_video_output_witness :
  table_intervals get_default_trimming_data = Some [(5, 10)%Z] ∧
  ∃ J w', trim_joined get_default_trimming_data = Ok J ∧
          trim_video get_default_trimming_data "in.mp4" "out.mp4"
            (demo_world {["in.mp4" := "V"]}) = (w', Ok ()) ∧
          writes_only (demo_world {["in.mp4" := "V"]}) w' "in.mp4"
            ["-vf"; trim_vf J; "-af"; trim_af J] "out.mp4".
Proof.
  split; [reflexivity|].
  apply (trim_video_output _ [(5, 10)%Z]); [reflexivity|reflexivity|reflexivity|done].
Defined.

Lemma gif_export_deletes_video_witness :
  ∃ w', gif_export "clip.mov" (demo_world {["clip.mov" := "V"]}) = (w', Ok ()) ∧
        w_fs w' = delete "clip.mov" (w_fs (demo_world {["clip.mov" := "V"]})) ∧
        w_page w' = w_page (demo_world {["clip.mov" := "V"]}) ++
                    [Success ("GIF file " +:+ "clip.mov" +:+ " created successfully!")] ∧
        ss_gif (w_ss w') = Some "clip.mov".
Proof. apply gif_export_deletes_video; reflexivity. Defined.

Lemma gif_export_mp4_witness :
  ∃ w', gif_export ("clip" +:+ ".mp4") (demo_world {["clip.mp4" := "V"]}) = (w', Ok ()) ∧
        ss_gif (w_ss w') = Some ("clip" +:+ ".gif") ∧
        w_fs w' !! ("clip" +:+ ".gif") =
          w_fs (demo_world {["clip.mp4" := "V"]}) !! ("clip" +:+ ".mp4") ≫= ffmpeg_transcode [] ∧
        ∀ p, p ≠ "clip" +:+ ".gif" →
             w_fs w' !! p = w_fs (demo_world {["clip.mp4" := "V"]}) !! p.
Proof. apply gif_export_mp4; reflexivity. Defined.

Lemma trim_click_failure_reported_witness :
  ∃ w', process_click PTrim (mk_frame (columns get_default_trimming_data) []) "in.mp4" "out.mp4"
          (demo_world {["in.mp4" := "V"; "out.mp4" := "old"]}) = (w', Ok ()) ∧
        w_fs w' = delete "out.mp4" (w_fs (demo_world {["in.mp4" := "V"; "out.mp4" := "old"]})) ∧
        w_page w' = w_page (demo_world {["in.mp4" := "V"; "out.mp4" := "old"]}) ++
                    [Success ("Video file " +:+ "out.mp4" +:+ " created successfully!")].
Proof.
  apply (trim_click_failure_reported _ _ _ _ "" "V");
    [reflexivity|reflexivity|reflexivity|reflexivity|done|reflexivity|reflexivity].
Defined.

Lemma reachable_session_inv_witness :
  session_inv (λ _ _, Exc ValueError)
    (w_ss (main_run (λ n, Z.of_nat (n mod 10)) (λ _ _, Exc ValueError) demo_ui (demo_world ∅)).1).
Proof.
  apply (reachable_session_inv (λ n, Z.of_nat (n mod 10))).
  - intros n. pose proof (Nat.mod_upper_bound n 10). lia.
  - apply reach_run, reach_start.
Defined.

Lemma gif_export_view_shows_gif_witness :
  occurs ".mp4" "clip" = false ∧ plain_word ("clip" +:+ ".mp4") = true ∧
  ∃ w' data_url, (gif_export ("clip" +:+ ".mp4");; gif_view) (demo_world {["clip.mp4" := "V"]}) =
                 (w', Ok ()) ∧
    last (w_page w') = Some (Markdown (gif_img data_url)) ∧ b64decode data_url = Some "|V".
Proof.
  split; [reflexivity|]. split; [reflexivity|].
  apply (gif_export_view_shows_gif "clip" _ "V"); reflexivity.
Defined.

Lemma default_table_recoverable_witness :
  eventually (λ n, Z.of_nat (n mod 10)) (λ _ _, Exc ValueError)
    (λ w', ss_function (w_ss w') = Some "Text annotation" ∧
           ss_annotations (w_ss w') = Some get_default_annotation_data ∧
           ∃ r, ss_random (w_ss w') = Some r ∧ random_ok r)
    (demo_world ∅).
Proof.
  apply (default_table_recoverable (λ n, Z.of_nat (n mod 10))).
  intros n. pose proof (Nat.mod_upper_bound n 10). lia.
Defined.

(** A session after one earlier run: 'Text annotation' or 'Trimming'
    selected, a key drawn, the default tables loaded. *)
Definition e2e_world (f : string) : world :=
  mk_world (mk_session (Some f) (Some "0123456789") (Some get_default_annotation_data)
              (Some get_default_trimming_data) None)
           {["in.mp4" := "V"]} [] 1.

(** Only the process button clicked. *)
Definition e2e_ui : ui := mk_ui "in.mp4" None false None false (λ _ df, df) "out.mp4" true false.

Lemma main_run_draw_text_end_to_end_witness :
  ss_function (w_ss (e2e_world "Text annotation")) = Some "Text annotation" ∧
  ss_random (w_ss (e2e_world "Text annotation")) = Some "0123456789" ∧
  table_annotations get_default_annotation_data = Some [("Sample text", (5, 10))%Z] ∧
  ∃ J, draw_text_joined get_default_annotation_data = Ok J ∧
  ∃ w', main_run (λ _, 0%Z) (λ _ _, Exc ValueError) e2e_ui (e2e_world "Text annotation") = (w', Ok ()) ∧
        w_ss w' = w_ss (e2e_world "Text annotation") ∧
        w_fs w' !! "out.mp4" = w_fs (e2e_world "Text annotation") !! "in.mp4" ≫= ffmpeg_transcode ["-vf"; J] ∧
        (∀ p, p ≠ "out.mp4" → w_fs w' !! p = w_fs (e2e_world "Text annotation") !! p) ∧
        Success ("Video file " +:+ "out.mp4" +:+ " created successfully!") ∈ w_page w'.
Proof.
  split; [reflexivity|]. split; [reflexivity|]. split; [reflexivity|].
  apply (main_run_draw_text_end_to_end _ _ e2e_ui (e2e_world "Text annotation") "0123456789"
           get_default_annotation_data [("Sample text", (5, 10))%Z]);
    first [reflexivity | by left | discriminate].
Defined.

Lemma main_run_trim_end_to_end_witness :
  ss_function (w_ss (e2e_world "Trimming")) = Some "Trimming" ∧
  table_intervals get_default_trimming_data = Some [(5, 10)%Z] ∧
  ∃ J, trim_joined get_default_trimming_data = Ok J ∧
  ∃ w', main_run (λ _, 0%Z) (λ _ _, Exc ValueError) e2e_ui (e2e_world "Trimming") = (w', Ok ()) ∧
        w_ss w' = w_ss (e2e_world "Trimming") ∧
        w_fs w' !! "out.mp4" =
          w_fs (e2e_world "Trimming") !! "in.mp4" ≫= ffmpeg_transcode ["-vf"; trim_vf J; "-af"; trim_af J] ∧
        (∀ p, p ≠ "out.mp4" → w_fs w' !! p = w_fs (e2e_world "Trimming") !! p) ∧
        Success ("Video file " +:+ "out.mp4" +:+ " created successfully!") ∈ w_page w'.
Proof.
  split; [reflexivity|]. split; [reflexivity|].
  apply (main_run_trim_end_to_end _ _ e2e_ui (e2e_world "Trimming") "0123456789"
           get_default_trimming_data [(5, 10)%Z]);
    first [reflexivity | by left | discriminate].
Defined.

Lemma main_run_missing_text_raises_witness :
  let u := mk_ui "in.mp4" None false None false (λ _ _, get_default_trimming_data) "out.mp4" true false in
  (col_text ∉ columns get_default_trimming_data) ∧
  main_run (λ _, 0%Z) (λ _ _, Exc ValueError) u (e2e_world "Text annotation") =
    (shown_input u (e2e_world "Text annotation"), Exc (KeyError col_text)).
Proof.
  intros u. assert (col_text ∉ columns get_default_trimming_data) as Hc.
  { apply (bool_decide_unpack _). by vm_compute. }
  split; [exact Hc|].
  apply (main_run_missing_text_raises _ _ u (e2e_world "Text annotation") "0123456789"
           get_default_annotation_data [CInt 0; CInt 5; CInt 0; CInt 10] []);
    first [reflexivity | by left | exact Hc].
Defined.

Lemma main_run_load_failure_keeps_session_witness :
  let u := mk_ui "in.mp4" None true None true (λ _ df, df) "out.mp4" false false in
  main_run (λ _, 0%Z) (λ _ _, Exc ValueError) u (e2e_world "Trimming") =
    (shown_input u (e2e_world "Trimming"), Exc ValueError).
Proof.
  intros u.
  apply (main_run_load_failure_keeps_session _ _ u (e2e_world "Trimming") "Trimming"
           get_default_trimming_data PTrim "0123456789" ValueError);
    first [reflexivity | by left].
Defined.

Lemma output_name_with_space_splits_witness :
  table_annotations get_default_annotation_data = Some [("Sample text", (5, 10))%Z] ∧
  ∃ J cmd, draw_text_joined get_default_annotation_data = Ok J ∧
    draw_text_on_video get_default_annotation_data "in.mp4" ("my" +:+ " " +:+ "video.mp4")
      (demo_world {["in.mp4" := "V"]}) =
      (set_fs (demo_world {["in.mp4" := "V"]})
         (system cmd (delete ("my" +:+ " " +:+ "video.mp4") (w_fs (demo_world {["in.mp4" := "V"]})))), Ok ()) ∧
    sh_words cmd = Some ["ffmpeg"; "-i"; "in.mp4"; "-vf"; J; "my"; "video.mp4"] ∧
    ffmpeg_argv ["ffmpeg"; "-i"; "in.mp4"; "-vf"; J; "my"; "video.mp4"] = None.
Proof.
  split; [reflexivity|].
  apply (output_name_with_space_splits _ [("Sample text", (5, 10))%Z]); reflexivity.
Defined.

Lemma gif_view_data_url_witness :
  let w := mk_world (set_gif "out.gif" empty_session) {["out.gif" := "GIF89a"]} [] 0 in
  ss_gif (w_ss w) = Some "out.gif" ∧ w_fs w !! "out.gif" = Some "GIF89a" ∧
  ∃ data_url,
    gif_view w = (mk_world (w_ss w) (w_fs w) (w_page w ++ [Markdown (gif_img data_url)]) (w_draws w), Ok ()) ∧
    b64decode data_url = Some "GIF89a" ∧ str_forall b64_alphabet_char data_url = true.
Proof.
  intros w. split; [reflexivity|]. split; [reflexivity|].
  apply (gif_view_data_url w "out.gif"); reflexivity.
Defined.

End Witnesses.

End App.
